(** * Secure Bin Cycle Count: the reconciliation functions of [data-schema.js]

    A shallow embedding of [validateInventoryRow], [deduplicateRows],
    [calculateVarianceStats], [calculateSessionMetrics] and [formatDuration],
    with the fragment of the JavaScript semantics they rely on (truthiness,
    string conversion, [parseInt], [toFixed], the division of numbers).

    Conventions of the embedding:
    - a number held in a row or record is an integer ([Z]) that a double
      holds; its rendering is the decimal numeral, which is what [ToString]
      gives up to [2^53] (beyond, JavaScript prints the shortest digits that
      read back, and an exponent from [10^21] on: this is not modelled);
    - the arithmetic is the one of binary64: a sum, a quotient or a product is
      the exact result rounded to the nearest double, ties to the even
      mantissa ([b64]); the quotients are rationals, together with the
      non-finite values [NaN] and [Infinity];
    - a string is the sequence of the bytes of its UTF-8 encoding, as a
      string literal is read; the white space [parseInt] skips is the one of
      ECMAScript, in that encoding.

    The functions are given twice: on values, where the properties of their
    results are proved, and as programs on a store of objects, where it is
    proved that they write to no object they are given and that they compute
    what the functions on values compute. *)

From Stdlib Require Import Ascii QArith Qround Qabs Qpower Qreduction Lqa.
From Stdlib Require Qcanon.
From stdpp Require Import gmap strings list fin_maps pretty.

Local Open Scope Z_scope.

(** ** JavaScript values *)

(** The primitive values a spreadsheet cell or a record field can hold. *)
Inductive prim :=
  | Undefined
  | Null
  | Bool (b : bool)
  | Num (z : Z)
  | Str (s : string).

#[global] Instance prim_eq_dec : EqDecision prim.
Proof. solve_decision. Defined.

(** A plain object with primitive fields, such as a raw row. *)
Abbreviation Row := (gmap string prim).

(** [o[k]]: a property that is not there reads as [undefined]. *)
Definition get (o : Row) (k : string) : prim := default Undefined (o !! k).

(** [ToBoolean]. *)
Definition truthy (v : prim) : bool :=
  match v with
  | Undefined | Null => false
  | Bool b => b
  | Num z => negb (Z.eqb z 0)
  | Str s => negb (String.eqb s "")
  end.

(** [ToString], as a template literal applies it. *)
Definition js_string (v : prim) : string :=
  match v with
  | Undefined => "undefined"
  | Null => "null"
  | Bool true => "true"
  | Bool false => "false"
  | Num z => pretty z
  | Str s => s
  end.

(** *** [parseInt] *)

(** The white space and line terminators of ECMAScript that are one byte
    long: TAB, LF, VT, FF, CR and the space. *)
Definition is_ws (c : ascii) : bool :=
  let n := N_of_ascii c in ((9 <=? n) && (n <=? 13) || (n =? 32))%N.

(** Those of two bytes: the no-break space U+00A0. *)
Definition is_ws2 (c1 c2 : ascii) : bool :=
  ((N_of_ascii c1 =? 194) && (N_of_ascii c2 =? 160))%N.

(** Those of three bytes: U+1680, U+2000 to U+200A, U+2028, U+2029, U+202F,
    U+205F, U+3000 and U+FEFF. *)
Definition is_ws3 (c1 c2 c3 : ascii) : bool :=
  let n1 := N_of_ascii c1 in
  let n2 := N_of_ascii c2 in
  let n3 := N_of_ascii c3 in
  ((n1 =? 225) && (n2 =? 154) && (n3 =? 128)
   || (n1 =? 226) && (n2 =? 128)
      && ((128 <=? n3) && (n3 <=? 138) || (n3 =? 168) || (n3 =? 169)
          || (n3 =? 175))
   || (n1 =? 226) && (n2 =? 129) && (n3 =? 159)
   || (n1 =? 227) && (n2 =? 128) && (n3 =? 128)
   || (n1 =? 239) && (n2 =? 187) && (n3 =? 191))%N.

Fixpoint trim_start (s : string) : string :=
  match s with
  | String c1 t1 =>
      if is_ws c1 then trim_start t1
      else
        match t1 with
        | String c2 t2 =>
            if is_ws2 c1 c2 then trim_start t2
            else
              match t2 with
              | String c3 t3 =>
                  if is_ws3 c1 c2 c3 then trim_start t3 else s
              | EmptyString => s
              end
        | EmptyString => s
        end
  | EmptyString => s
  end.

(** The value of [c] as a digit in the given radix, if it is one. *)
Definition digit_val (radix : N) (c : ascii) : option N :=
  let n := N_of_ascii c in
  let v :=
    (if (48 <=? n) && (n <=? 57) then Some (n - 48)
     else if (97 <=? n) && (n <=? 122) then Some (n - 87)
     else if (65 <=? n) && (n <=? 90) then Some (n - 55)
     else None)%N in
  match v with
  | Some d => if (d <? radix)%N then Some d else None
  | None => None
  end.

(** The longest prefix of digits, read left to right; [acc] is [None] as long
    as no digit was read. *)
Fixpoint digits_value (radix : N) (s : string) (acc : option N) : option N :=
  match s with
  | String c t =>
      match digit_val radix c with
      | Some d => digits_value radix t (Some (radix * default 0 acc + d)%N)
      | None => acc
      end
  | EmptyString => acc
  end.

Definition strip_sign (s : string) : Z * string :=
  match s with
  | String c t =>
      if Ascii.eqb c "-" then (-1, t)
      else if Ascii.eqb c "+" then (1, t)
      else (1, s)
  | EmptyString => (1, s)
  end.

Definition strip_hex_prefix (s : string) : N * string :=
  match s with
  | String c (String x t) =>
      if Ascii.eqb c "0" && (Ascii.eqb x "x" || Ascii.eqb x "X")
      then (16%N, t) else (10%N, s)
  | _ => (10%N, s)
  end.

(** [parseInt(v)] with no radix; [None] is [NaN]. The value is the integer
    the digits spell; the program only asks whether it is [NaN]. *)
Definition parseInt (v : prim) : option Z :=
  let '(sign, s1) := strip_sign (trim_start (js_string v)) in
  let '(radix, s2) := strip_hex_prefix s1 in
  match digits_value radix s2 None with
  | Some m => Some (sign * Z.of_N m)
  | None => None
  end.

(** [isNaN(parseInt(v))]. *)
Definition isNaN_parseInt (v : prim) : bool :=
  match parseInt v with None => true | Some _ => false end.

(** *** The test of [/^\d{4}-\d{2}-\d{2}$/] *)

Definition is_digit (c : ascii) : bool :=
  let n := N_of_ascii c in ((48 <=? n) && (n <=? 57))%N.

Definition is_dash (c : ascii) : bool := Ascii.eqb c "-".

Definition date_pattern : list (ascii -> bool) :=
  [is_digit; is_digit; is_digit; is_digit; is_dash;
   is_digit; is_digit; is_dash; is_digit; is_digit].

Fixpoint match_all (p : list (ascii -> bool)) (s : string) : bool :=
  match p, s with
  | [], EmptyString => true
  | f :: p', String c t => f c && match_all p' t
  | _, _ => false
  end.

Definition date_regex_test (v : prim) : bool :=
  match_all date_pattern (js_string v).

(** ** [validateInventoryRow] *)

Definition required : list string :=
  ["Location"; "Bin"; "PalletID"; "ItemNumber"; "SystemQuantity"].

Record ValidationResult := {
  isValid : bool;
  errors : list string
}.

Definition missing_error (col : string) : string :=
  "Missing required column: " +:+ col.

Definition quantity_error (v : prim) : string :=
  "SystemQuantity must be a number, got: " +:+ js_string v.

Definition expiry_error (v : prim) : string :=
  "ExpiryDate must be YYYY-MM-DD format, got: " +:+ js_string v.

(** The body of the [required.forEach] callback: [errors] is the array it
    pushes to. *)
Definition check_required (row : Row) (errors : list string) (col : string)
    : list string :=
  if negb (truthy (get row col)) then errors ++ [missing_error col]
  else errors.

Definition validateInventoryRow (row : Row) : ValidationResult :=
  let errors := [] in
  let errors := fold_left (check_required row) required errors in
  let errors :=
    if truthy (get row "SystemQuantity")
       && isNaN_parseInt (get row "SystemQuantity")
    then errors ++ [quantity_error (get row "SystemQuantity")]
    else errors in
  let errors :=
    if truthy (get row "ExpiryDate")
       && negb (date_regex_test (get row "ExpiryDate"))
    then errors ++ [expiry_error (get row "ExpiryDate")]
    else errors in
  {| isValid := (length errors =? 0)%nat; errors := errors |}.

(** The row of the first test of [tests.js], and variations of it. *)
Definition sample_row (quantity : prim) : Row :=
  <["Location" := Str "Area-A"]>
  (<["Bin" := Str "A-1"]>
  (<["PalletID" := Str "PAL-001"]>
  (<["ItemNumber" := Str "SKU-1001"]>
  (<["SystemQuantity" := quantity]> ∅)))).

(** ** [deduplicateRows] *)

(** The composite key: the template literal [`${row.PalletID}|${row.Bin}`]. *)
Definition dedupKey (row : Row) : string :=
  js_string (get row "PalletID") +:+ "|" +:+ js_string (get row "Bin").

(** [{ ...row, reason: 'Duplicate PalletID+Bin' }]: a copy with one more
    property. *)
Definition with_reason (row : Row) : Row :=
  <["reason" := Str "Duplicate PalletID+Bin"]> row.

(** What the [filter] callback reads and writes besides its argument: the
    [seen] map and the [duplicates] array. *)
Record DedupState := {
  seen : gmap string Row;
  dups : list Row
}.

(** The [filter] callback: the verdict on [row] and the state it leaves. *)
Definition dedup_callback (row : Row) (st : DedupState) : bool * DedupState :=
  let key := dedupKey row in
  if decide (is_Some (seen st !! key)) then
    (false, {| seen := seen st; dups := dups st ++ [with_reason row] |})
  else
    (true, {| seen := <[key := row]> (seen st); dups := dups st |}).

(** [Array.prototype.filter] with a callback that has a state: the elements
    are visited in order, and the kept ones form a new array. *)
Fixpoint filter_st {A S : Type} (cb : A -> S -> bool * S) (l : list A) (st : S)
    : list A * S :=
  match l with
  | [] => ([], st)
  | x :: l' =>
      let '(keep, st1) := cb x st in
      let '(kept, st2) := filter_st cb l' st1 in
      (if keep then x :: kept else kept, st2)
  end.

Record DedupResult := {
  unique : list Row;
  duplicates : list Row;
  deduplicationCount : nat
}.

Definition deduplicateRows (rows : list Row) : DedupResult :=
  let '(unique, st) := filter_st dedup_callback rows {| seen := ∅; dups := [] |} in
  {| unique := unique;
     duplicates := dups st;
     deduplicationCount := length (dups st) |}.

(** ** Binary64 arithmetic *)

(** The exponent of a positive rational: [2 ^ ilog2 q <= q < 2 ^ (ilog2 q + 1)]. *)
Definition ilog2 (q : Q) : Z :=
  let c := Z.log2 (Qnum q) - Z.log2 (Zpos (Qden q)) in
  if Qle_bool (2 ^ c) q then c else c - 1.

(** The nearest integer, the even one of the two on a tie. *)
Definition rne (q : Q) : Z :=
  let f := Qfloor q in
  match Qcompare (q - inject_Z f) (1 # 2) with
  | Lt => f
  | Gt => f + 1
  | Eq => if Z.even f then f else f + 1
  end.

(** The nearest double of a positive rational: a mantissa of 53 bits at the
    exponent of [q], and a fixed exponent of [-1074] for the subnormal
    numbers. *)
Definition b64_pos (q : Q) : Q :=
  let e := Z.max (ilog2 q - 52) (-1074) in
  (inject_Z (rne (q / 2 ^ e)) * 2 ^ e)%Q.

(** The nearest double of a rational, as a fraction in lowest terms; the
    exponent is not bounded from above here, see [js_round]. *)
Definition b64 (q : Q) : Q :=
  let q := Qred q in
  match Qnum q with
  | Z0 => 0%Q
  | Zpos _ => Qred (b64_pos q)
  | Zneg _ => Qred (- b64_pos (- q))
  end.

(** ** Numbers that are not integers, and [toFixed] *)

(** The result of a division: a finite double, or one of the non-finite
    values. *)
Inductive jsnum :=
  | JFin (q : Q)
  | JInf (negative : bool)
  | JNaN.

Definition Qis_zero (q : Q) : bool := Z.eqb (Qnum q) 0.
Definition Qis_neg (q : Q) : bool := Z.ltb (Qnum q) 0.

(** The double of an exact result: an infinity from [2^1024] on. *)
Definition js_round (q : Q) : jsnum :=
  let r := b64 q in
  if Qle_bool (2 ^ 1024) (Qabs r) then JInf (Qis_neg r) else JFin r.

(** [a / b] on finite operands: a zero divisor gives [NaN] (for [0 / 0]) or an
    infinity. *)
Definition js_div (a b : Q) : jsnum :=
  if Qis_zero b then
    if Qis_zero a then JNaN else JInf (Qis_neg a)
  else js_round (a / b).

(** [x * 100]. *)
Definition js_times100 (x : jsnum) : jsnum :=
  match x with
  | JFin q => js_round (q * 100)
  | JInf s => JInf s
  | JNaN => JNaN
  end.

(** [a + b] on integers: the nearest double of the sum, which is an integer
    (the sums of this program are far from [2^1024], where a double
    overflows). *)
Definition js_add (a b : Z) : Z := Qfloor (b64 (inject_Z (a + b))).

(** [Math.floor(a / b)] on integers, for a divisor other than [0]. *)
Definition js_floor_div (a b : Z) : Z :=
  Qfloor (b64 (inject_Z a / inject_Z b)).

Arguments b64 : simpl never.
Arguments js_round : simpl never.
Arguments js_add : simpl never.
Arguments js_floor_div : simpl never.

(** Two decimal digits, with a leading zero if need be. *)
Definition two_digits (d : Z) : string :=
  (if d <? 10 then "0" else "") +:+ pretty d.

(** The numeral of [n / 100] with two decimals, for [0 <= n]. *)
Definition hundredths (n : Z) : string :=
  pretty (n / 100) +:+ "." +:+ two_digits (n mod 100).

(** [x.toFixed(2)], for a double below [10^21] in magnitude as all the
    percentages are: the multiple of 1/100 nearest to the double, the larger
    one in magnitude on a tie; the non-finite values render as their
    names. *)
Definition toFixed2 (x : jsnum) : string :=
  match x with
  | JNaN => "NaN"
  | JInf false => "Infinity"
  | JInf true => "-Infinity"
  | JFin q =>
      if Qis_neg q then "-" +:+ hundredths (Qfloor ((- q) * 100 + (1 # 2)))
      else hundredths (Qfloor (q * 100 + (1 # 2)))
  end.

(** ** Count actions and [calculateVarianceStats] *)

Inductive ActionStatus := confirmed | flagged_status | pending_review.

(** A count action, with the fields and types of [CountActionsSchema]. *)
Record CountAction := {
  actionId : string;
  action_sessionId : string;
  palletId : string;
  bin : string;
  itemNumber : string;
  systemQuantity : Z;
  countedQuantity : Z;
  variance : Z;
  timestamp : string;
  userId : string;
  flagged : bool;
  notes : option string;
  status : ActionStatus
}.

Record VarianceStats := {
  totalActions : nat;
  totalVariance : Z;
  positiveVariances : list CountAction;
  negativeVariances : list CountAction;
  zeroVariances : list CountAction;
  varianceCount : nat;
  accuracyPercentage : string
}.

(** The [stats] object while the [forEach] runs: the two last properties are
    not set yet. *)
Record StatsAcc := {
  acc_totalActions : nat;
  acc_totalVariance : Z;
  acc_positive : list CountAction;
  acc_negative : list CountAction;
  acc_zero : list CountAction
}.

(** The body of the [countActions.forEach] callback. *)
Definition stats_callback (stats : StatsAcc) (action : CountAction) : StatsAcc :=
  let stats :=
    {| acc_totalActions := acc_totalActions stats;
       acc_totalVariance := js_add (acc_totalVariance stats) (variance action);
       acc_positive := acc_positive stats;
       acc_negative := acc_negative stats;
       acc_zero := acc_zero stats |} in
  if variance action >? 0 then
    {| acc_totalActions := acc_totalActions stats;
       acc_totalVariance := acc_totalVariance stats;
       acc_positive := acc_positive stats ++ [action];
       acc_negative := acc_negative stats;
       acc_zero := acc_zero stats |}
  else if variance action <? 0 then
    {| acc_totalActions := acc_totalActions stats;
       acc_totalVariance := acc_totalVariance stats;
       acc_positive := acc_positive stats;
       acc_negative := acc_negative stats ++ [action];
       acc_zero := acc_zero stats |}
  else
    {| acc_totalActions := acc_totalActions stats;
       acc_totalVariance := acc_totalVariance stats;
       acc_positive := acc_positive stats;
       acc_negative := acc_negative stats;
       acc_zero := acc_zero stats ++ [action] |}.

Definition Qnat (n : nat) : Q := inject_Z (Z.of_nat n).

Definition calculateVarianceStats (countActions : list CountAction)
    : VarianceStats :=
  let stats :=
    {| acc_totalActions := length countActions;
       acc_totalVariance := 0;
       acc_positive := [];
       acc_negative := [];
       acc_zero := [] |} in
  let stats := fold_left stats_callback countActions stats in
  let varianceCount :=
    (length (acc_positive stats) + length (acc_negative stats))%nat in
  let accuracyPercentage :=
    toFixed2 (js_times100 (js_div (Qnat (length (acc_zero stats)))
                                  (Qnat (acc_totalActions stats)))) in
  {| totalActions := acc_totalActions stats;
     totalVariance := acc_totalVariance stats;
     positiveVariances := acc_positive stats;
     negativeVariances := acc_negative stats;
     zeroVariances := acc_zero stats;
     varianceCount := varianceCount;
     accuracyPercentage := accuracyPercentage |}.

(** ** Sessions, [formatDuration] and [calculateSessionMetrics] *)

Definition formatDuration (seconds : Z) : string :=
  let hours := js_floor_div seconds 3600 in
  let minutes := js_floor_div (Z.rem seconds 3600) 60 in
  let secs := Z.rem seconds 60 in
  if hours >? 0 then
    pretty hours +:+ "h " +:+ pretty minutes +:+ "m " +:+ pretty secs +:+ "s"
  else if minutes >? 0 then
    pretty minutes +:+ "m " +:+ pretty secs +:+ "s"
  else
    pretty secs +:+ "s".

Inductive SessionStatus := in_progress | completed | submitted.

(** A counting session, with the fields and types of [CountSessionsSchema];
    [endTime] is [None] when it is [null] or not there. *)
Record CountSession := {
  sessionId : string;
  session_timestamp : string;
  location : string;
  bins : list string;
  session_userId : string;
  startTime : Z;
  endTime : option Z;
  session_status : SessionStatus;
  totalPallets : Z;
  completedCount : Z;
  session_varianceCount : Z
}.

Record SessionMetrics := {
  m_sessionId : string;
  m_location : string;
  binsCount : nat;
  m_totalPallets : Z;
  countedPallets : nat;
  completionPercentage : string;
  durationSeconds : Z;
  durationFormatted : string;
  m_varianceCount : nat;
  flaggedCount : nat
}.

(** The truthiness of [session.endTime]: a number other than [0]. *)
Definition endTime_set (session : CountSession) : bool :=
  match endTime session with
  | Some t => negb (t =? 0)
  | None => false
  end.

(** [now] is what [Date.now()] returns when the function runs. The times are
    clock readings in milliseconds, far below [2^53]: there the difference
    and [Math.floor(duration / 1000)] are exact, and they are written as the
    integer operations. *)
Definition calculateSessionMetrics (now : Z) (session : CountSession)
    (countActions : list CountAction) : SessionMetrics :=
  let duration :=
    if endTime_set session
    then default 0 (endTime session) - startTime session
    else now - startTime session in
  let durationSeconds := duration / 1000 in
  {| m_sessionId := sessionId session;
     m_location := location session;
     binsCount := length (bins session);
     m_totalPallets := totalPallets session;
     countedPallets := length countActions;
     completionPercentage :=
       toFixed2 (js_times100 (js_div (Qnat (length countActions))
                                     (inject_Z (totalPallets session))));
     durationSeconds := durationSeconds;
     durationFormatted := formatDuration durationSeconds;
     m_varianceCount :=
       length (filter (fun a => variance a <> 0) countActions);
     flaggedCount := length (filter (fun a => flagged a = true) countActions) |}.

(** * The functions on a store

    To say that a function leaves its arguments as they were, the objects
    and arrays are placed in a store, and the functions are written once more
    as programs that read and write it: every [push], [set] and assignment
    of the source is a write at a location. *)

Abbreviation loc := positive.

(** A value is a primitive or a reference to an object of the store. *)
Inductive val :=
  | VPrim (p : prim)
  | VRef (l : loc).

Inductive hobj :=
  | HObj (fields : gmap string val)
  | HArr (elems : list val)
  | HMap (entries : gmap string val).

Abbreviation heap := (gmap loc hobj).

(** A program: from a store to a result and a store, or to nothing when it
    meets a value of a kind the embedding does not cover. *)
Definition M (A : Type) : Type := heap -> option (A * heap).

Definition ret {A} (a : A) : M A := fun h => Some (a, h).

Definition bind {A B} (m : M A) (f : A -> M B) : M B :=
  fun h => match m h with Some (a, h') => f a h' | None => None end.

Definition fail {A} : M A := fun _ => None.

Notation "'let*' x ':=' c 'in' k" := (bind c (fun x => k))
  (at level 10, x name, c at level 100, k at level 200).

Notation "c ';;;' k" := (bind c (fun _ => k))
  (at level 100, k at level 200, right associativity).

(** A new object, array or map, at a location that is not in use. *)
Definition alloc (o : hobj) : M loc :=
  fun h => let l := fresh (dom h) in Some (l, <[l := o]> h).

Definition get_obj (l : loc) : M (gmap string val) :=
  fun h => match h !! l with Some (HObj f) => Some (f, h) | _ => None end.

Definition get_arr (l : loc) : M (list val) :=
  fun h => match h !! l with Some (HArr a) => Some (a, h) | _ => None end.

Definition get_map (l : loc) : M (gmap string val) :=
  fun h => match h !! l with Some (HMap m) => Some (m, h) | _ => None end.

(** [o.k] and [o[k]]. *)
Definition get_field (l : loc) (k : string) : M val :=
  let* f := get_obj l in ret (default (VPrim Undefined) (f !! k)).

(** [o.k = v]. *)
Definition set_field (l : loc) (k : string) (v : val) : M unit :=
  fun h => match h !! l with
           | Some (HObj f) => Some (tt, <[l := HObj (<[k := v]> f)]> h)
           | _ => None
           end.

(** [a.push(v)]. *)
Definition push (l : loc) (v : val) : M unit :=
  fun h => match h !! l with
           | Some (HArr a) => Some (tt, <[l := HArr (a ++ [v])]> h)
           | _ => None
           end.

(** [m.has(k)] and [m.set(k, v)]. *)
Definition map_has (l : loc) (k : string) : M bool :=
  let* m := get_map l in ret (bool_decide (is_Some (m !! k))).

Definition map_set (l : loc) (k : string) (v : val) : M unit :=
  fun h => match h !! l with
           | Some (HMap m) => Some (tt, <[l := HMap (<[k := v]> m)]> h)
           | _ => None
           end.

Definition as_prim (v : val) : M prim :=
  match v with VPrim p => ret p | VRef _ => fail end.

Definition as_ref (v : val) : M loc :=
  match v with VRef l => ret l | VPrim _ => fail end.

Definition as_num (v : val) : M Z :=
  match v with VPrim (Num z) => ret z | _ => fail end.

Definition as_str (v : val) : M string :=
  match v with VPrim (Str s) => ret s | _ => fail end.

(** [a.forEach(cb)]: the length is read once, each element when its turn
    comes. *)
Fixpoint for_each_from (arr : loc) (cb : val -> M unit) (i n : nat) : M unit :=
  match n with
  | O => ret tt
  | S n' =>
      let* a := get_arr arr in
      match a !! i with
      | Some v => cb v ;;; for_each_from arr cb (S i) n'
      | None => for_each_from arr cb (S i) n'
      end
  end.

Definition for_each (arr : loc) (cb : val -> M unit) : M unit :=
  let* a := get_arr arr in for_each_from arr cb 0 (length a).

(** [a.filter(cb)]: the same visit; the kept elements go to a new array. *)
Fixpoint filter_from (arr : loc) (cb : val -> M bool) (i n : nat)
    : M (list val) :=
  match n with
  | O => ret []
  | S n' =>
      let* a := get_arr arr in
      match a !! i with
      | Some v =>
          let* keep := cb v in
          let* kept := filter_from arr cb (S i) n' in
          ret (if keep then v :: kept else kept)
      | None => filter_from arr cb (S i) n'
      end
  end.

Definition array_filter (arr : loc) (cb : val -> M bool) : M loc :=
  let* a := get_arr arr in
  let* kept := filter_from arr cb 0 (length a) in
  alloc (HArr kept).

Definition vstr (s : string) : val := VPrim (Str s).
Definition vnum (z : Z) : val := VPrim (Num z).
Definition vnat (n : nat) : val := VPrim (Num (Z.of_nat n)).
Definition vbool (b : bool) : val := VPrim (Bool b).

(** ** [validateInventoryRow] on the store *)

Definition exec_check_required (row errors : loc) (col : val) : M unit :=
  let* col := as_str col in
  let* v := get_field row col in
  let* v := as_prim v in
  if negb (truthy v) then push errors (vstr (missing_error col))
  else ret tt.

Definition exec_validateInventoryRow (row : loc) : M loc :=
  let* required := alloc (HArr (vstr <$> required)) in
  let* errors := alloc (HArr []) in
  for_each required (exec_check_required row errors) ;;;
  let* quantity := get_field row "SystemQuantity" in
  let* quantity := as_prim quantity in
  (if truthy quantity && isNaN_parseInt quantity
   then push errors (vstr (quantity_error quantity))
   else ret tt) ;;;
  let* expiry := get_field row "ExpiryDate" in
  let* expiry := as_prim expiry in
  (if truthy expiry && negb (date_regex_test expiry)
   then push errors (vstr (expiry_error expiry))
   else ret tt) ;;;
  let* es := get_arr errors in
  alloc (HObj (<["isValid" := vbool (length es =? 0)%nat]>
              (<["errors" := VRef errors]> ∅))).

(** ** [deduplicateRows] on the store *)

Definition exec_dedup_callback (seen duplicates : loc) (row : val) : M bool :=
  let* r := as_ref row in
  let* pallet := get_field r "PalletID" in
  let* pallet := as_prim pallet in
  let* bin := get_field r "Bin" in
  let* bin := as_prim bin in
  let key := js_string pallet +:+ "|" +:+ js_string bin in
  let* has := map_has seen key in
  if has then
    let* fields := get_obj r in
    let* copy :=
      alloc (HObj (<["reason" := vstr "Duplicate PalletID+Bin"]> fields)) in
    push duplicates (VRef copy) ;;;
    ret false
  else
    map_set seen key row ;;;
    ret true.

Definition exec_deduplicateRows (rows : loc) : M loc :=
  let* seen := alloc (HMap ∅) in
  let* duplicates := alloc (HArr []) in
  let* unique := array_filter rows (exec_dedup_callback seen duplicates) in
  let* ds := get_arr duplicates in
  alloc (HObj (<["unique" := VRef unique]>
              (<["duplicates" := VRef duplicates]>
              (<["deduplicationCount" := vnat (length ds)]> ∅)))).

(** ** [calculateVarianceStats] on the store *)

(** [stats.k.push(v)]. *)
Definition push_field (stats : loc) (k : string) (v : val) : M unit :=
  let* a := get_field stats k in
  let* a := as_ref a in
  push a v.

Definition exec_stats_callback (stats : loc) (action : val) : M unit :=
  let* a := as_ref action in
  let* total := get_field stats "totalVariance" in
  let* total := as_num total in
  let* v := get_field a "variance" in
  let* v := as_num v in
  set_field stats "totalVariance" (vnum (js_add total v)) ;;;
  if v >? 0 then push_field stats "positiveVariances" action
  else if v <? 0 then push_field stats "negativeVariances" action
  else push_field stats "zeroVariances" action.

Definition field_length (stats : loc) (k : string) : M nat :=
  let* a := get_field stats k in
  let* a := as_ref a in
  let* elems := get_arr a in
  ret (length elems).

Definition exec_calculateVarianceStats (countActions : loc) : M loc :=
  let* actions := get_arr countActions in
  let* positive := alloc (HArr []) in
  let* negative := alloc (HArr []) in
  let* zero := alloc (HArr []) in
  let* stats :=
    alloc (HObj (<["totalActions" := vnat (length actions)]>
                (<["totalVariance" := vnum 0]>
                (<["positiveVariances" := VRef positive]>
                (<["negativeVariances" := VRef negative]>
                (<["zeroVariances" := VRef zero]> ∅)))))) in
  for_each countActions (exec_stats_callback stats) ;;;
  let* np := field_length stats "positiveVariances" in
  let* nn := field_length stats "negativeVariances" in
  set_field stats "varianceCount" (vnat (np + nn)) ;;;
  let* nz := field_length stats "zeroVariances" in
  let* total := get_field stats "totalActions" in
  let* total := as_num total in
  set_field stats "accuracyPercentage"
    (vstr (toFixed2 (js_times100 (js_div (Qnat nz) (inject_Z total))))) ;;;
  ret stats.

(** ** [calculateSessionMetrics] on the store *)

(** The callbacks [a => a.variance !== 0] and [a => a.flagged]. *)
Definition exec_has_variance (a : val) : M bool :=
  let* a := as_ref a in
  let* v := get_field a "variance" in
  let* v := as_num v in
  ret (negb (v =? 0)).

Definition exec_is_flagged (a : val) : M bool :=
  let* a := as_ref a in
  let* f := get_field a "flagged" in
  let* f := as_prim f in
  ret (truthy f).

Definition exec_calculateSessionMetrics (now : Z) (session countActions : loc)
    : M loc :=
  let* finish := get_field session "endTime" in
  let* finish := as_prim finish in
  let* start := get_field session "startTime" in
  let* start := as_num start in
  let* duration :=
    (if truthy finish
     then let* finish := as_num (VPrim finish) in ret (finish - start)
     else ret (now - start)) in
  let durationSeconds := duration / 1000 in
  let* sessionId := get_field session "sessionId" in
  let* location := get_field session "location" in
  let* bins := get_field session "bins" in
  let* bins := as_ref bins in
  let* bins := get_arr bins in
  let* totalPallets := get_field session "totalPallets" in
  let* pallets := as_num totalPallets in
  let* actions := get_arr countActions in
  let* withVariance := array_filter countActions exec_has_variance in
  let* withVariance := get_arr withVariance in
  let* flaggedOnes := array_filter countActions exec_is_flagged in
  let* flaggedOnes := get_arr flaggedOnes in
  alloc (HObj (<["sessionId" := sessionId]>
              (<["location" := location]>
              (<["binsCount" := vnat (length bins)]>
              (<["totalPallets" := totalPallets]>
              (<["countedPallets" := vnat (length actions)]>
              (<["completionPercentage" :=
                   vstr (toFixed2 (js_times100
                     (js_div (Qnat (length actions)) (inject_Z pallets))))]>
              (<["durationSeconds" := vnum durationSeconds]>
              (<["durationFormatted" := vstr (formatDuration durationSeconds)]>
              (<["varianceCount" := vnat (length withVariance)]>
              (<["flaggedCount" := vnat (length flaggedOnes)]> ∅))))))))))).

(** ** How the store holds the arguments and the results *)

(** A row, or any object with primitive fields only. *)
Definition row_obj (r : Row) : hobj := HObj (VPrim <$> r).

Definition rows_at (h : heap) (ls : list loc) (rows : list Row) : Prop :=
  Forall2 (fun l r => h !! l = Some (row_obj r)) ls rows.

Definition status_text (s : ActionStatus) : string :=
  match s with
  | confirmed => "confirmed"
  | flagged_status => "flagged"
  | pending_review => "pending_review"
  end.

Definition action_fields (a : CountAction) : gmap string val :=
  <["variance" := vnum (variance a)]>
  (<["flagged" := vbool (flagged a)]>
  (<["actionId" := vstr (actionId a)]>
  (<["sessionId" := vstr (action_sessionId a)]>
  (<["palletId" := vstr (palletId a)]>
  (<["bin" := vstr (bin a)]>
  (<["itemNumber" := vstr (itemNumber a)]>
  (<["systemQuantity" := vnum (systemQuantity a)]>
  (<["countedQuantity" := vnum (countedQuantity a)]>
  (<["timestamp" := vstr (timestamp a)]>
  (<["userId" := vstr (userId a)]>
  (<["notes" := VPrim (from_option Str Undefined (notes a))]>
  (<["status" := vstr (status_text (status a))]> ∅)))))))))))).

Definition action_obj (a : CountAction) : hobj := HObj (action_fields a).

Definition actions_at (h : heap) (ls : list loc) (actions : list CountAction)
    : Prop :=
  Forall2 (fun l a => h !! l = Some (action_obj a)) ls actions.

Definition session_status_text (s : SessionStatus) : string :=
  match s with
  | in_progress => "in-progress"
  | completed => "completed"
  | submitted => "submitted"
  end.

Definition session_fields (s : CountSession) (lbins : loc) : gmap string val :=
  <["endTime" := VPrim (from_option Num Null (endTime s))]>
  (<["startTime" := vnum (startTime s)]>
  (<["sessionId" := vstr (sessionId s)]>
  (<["location" := vstr (location s)]>
  (<["bins" := VRef lbins]>
  (<["totalPallets" := vnum (totalPallets s)]>
  (<["timestamp" := vstr (session_timestamp s)]>
  (<["userId" := vstr (session_userId s)]>
  (<["status" := vstr (session_status_text (session_status s))]>
  (<["completedCount" := vnum (completedCount s)]>
  (<["varianceCount" := vnum (session_varianceCount s)]> ∅)))))))))).

Definition session_obj (s : CountSession) (lbins : loc) : hobj :=
  HObj (session_fields s lbins).

Definition session_at (h : heap) (l : loc) (s : CountSession) : Prop :=
  exists lbins,
    h !! l = Some (session_obj s lbins)
    /\ h !! lbins = Some (HArr (vstr <$> bins s)).

Definition validation_obj (res : ValidationResult) (lerrors : loc) : hobj :=
  HObj (<["isValid" := vbool (isValid res)]>
       (<["errors" := VRef lerrors]> ∅)).

Definition dedup_obj (res : DedupResult) (lunique lduplicates : loc) : hobj :=
  HObj (<["unique" := VRef lunique]>
       (<["duplicates" := VRef lduplicates]>
       (<["deduplicationCount" := vnat (deduplicationCount res)]> ∅))).

(** The [stats] object while the [forEach] runs. *)
Definition stats_fields (acc : StatsAcc) (lpos lneg lzero : loc)
    : gmap string val :=
  <["totalActions" := vnat (acc_totalActions acc)]>
  (<["totalVariance" := vnum (acc_totalVariance acc)]>
  (<["positiveVariances" := VRef lpos]>
  (<["negativeVariances" := VRef lneg]>
  (<["zeroVariances" := VRef lzero]> ∅)))).

(** An array of the store that holds references to the given actions of the
    store [h0]. *)
Definition bucket_at (h0 h : heap) (l : loc) (actions : list CountAction)
    : Prop :=
  exists ls, h !! l = Some (HArr (VRef <$> ls)) /\ actions_at h0 ls actions.

Record stats_inv (h0 h : heap) (lst lp ln lz : loc) (acc : StatsAcc) : Prop := {
  inv_sub : h0 ⊆ h;
  inv_stats : h !! lst = Some (HObj (stats_fields acc lp ln lz));
  inv_pos : bucket_at h0 h lp (acc_positive acc);
  inv_neg : bucket_at h0 h ln (acc_negative acc);
  inv_zero : bucket_at h0 h lz (acc_zero acc)
}.

(** The four objects of [calculateVarianceStats] are new and distinct. *)
Record stats_locs (h0 : heap) (lst lp ln lz : loc) : Prop := {
  new_stats : h0 !! lst = None;
  new_pos : h0 !! lp = None;
  new_neg : h0 !! ln = None;
  new_zero : h0 !! lz = None;
  stats_pos : lst <> lp;
  stats_neg : lst <> ln;
  stats_zero : lst <> lz;
  pos_neg : lp <> ln;
  pos_zero : lp <> lz;
  neg_zero : ln <> lz
}.

(** The two objects of [deduplicateRows] while the [filter] runs: the map has
    the keys seen so far, the array refers to the copies of the rejected
    rows. *)
Record dedup_inv (h0 h : heap) (lseen ldup : loc) (st : DedupState) : Prop := {
  dinv_sub : h0 ⊆ h;
  dinv_seen : exists m, h !! lseen = Some (HMap m) /\ dom m = dom (seen st);
  dinv_dups :
    exists lds, h !! ldup = Some (HArr (VRef <$> lds)) /\ rows_at h lds (dups st)
}.

Definition stats_obj (stats : VarianceStats) (lpos lneg lzero : loc) : hobj :=
  HObj (<["accuracyPercentage" := vstr (accuracyPercentage stats)]>
       (<["varianceCount" := vnat (varianceCount stats)]>
       (<["totalActions" := vnat (totalActions stats)]>
       (<["totalVariance" := vnum (totalVariance stats)]>
       (<["positiveVariances" := VRef lpos]>
       (<["negativeVariances" := VRef lneg]>
       (<["zeroVariances" := VRef lzero]> ∅))))))).

Definition metrics_obj (m : SessionMetrics) : hobj :=
  HObj (<["sessionId" := vstr (m_sessionId m)]>
       (<["location" := vstr (m_location m)]>
       (<["binsCount" := vnat (binsCount m)]>
       (<["totalPallets" := vnum (m_totalPallets m)]>
       (<["countedPallets" := vnat (countedPallets m)]>
       (<["completionPercentage" := vstr (completionPercentage m)]>
       (<["durationSeconds" := vnum (durationSeconds m)]>
       (<["durationFormatted" := vstr (durationFormatted m)]>
       (<["varianceCount" := vnat (m_varianceCount m)]>
       (<["flaggedCount" := vnat (flaggedCount m)]> ∅)))))))))).

(** * Definitions used to state the properties *)

(** The three groups of errors [validateInventoryRow] can report. *)
Definition missing_errors (row : Row) : list string :=
  missing_error <$> filter (fun c => truthy (get row c) = false) required.

Definition quantity_errors (row : Row) : list string :=
  if truthy (get row "SystemQuantity")
     && isNaN_parseInt (get row "SystemQuantity")
  then [quantity_error (get row "SystemQuantity")] else [].

Definition expiry_errors (row : Row) : list string :=
  if truthy (get row "ExpiryDate")
     && negb (date_regex_test (get row "ExpiryDate"))
  then [expiry_error (get row "ExpiryDate")] else [].

(** The first character of [s] passes [f]. *)
Definition starts_with (f : ascii -> bool) (s : string) : bool :=
  match s with
  | String c _ => f c
  | EmptyString => false
  end.

Definition is_hex_digit (c : ascii) : bool :=
  let n := N_of_ascii c in
  ((48 <=? n) && (n <=? 57) || (97 <=? n) && (n <=? 102)
   || (65 <=? n) && (n <=? 70))%N.

(** The text of a value without its leading white space and its sign. *)
Definition unsigned_text (v : prim) : string :=
  (strip_sign (trim_start (js_string v))).2.

(** The text starts with a numeral: [0x] or [0X] and a hexadecimal digit, or
    a decimal digit that is not the [0] of such a prefix. *)
Definition starts_with_numeral (s : string) : bool :=
  match s with
  | String c (String x t) =>
      if Ascii.eqb c "0" && (Ascii.eqb x "x" || Ascii.eqb x "X")
      then starts_with is_hex_digit t
      else is_digit c
  | _ => starts_with is_digit s
  end.

(** The row at index [i] is the first one of [rows] with its key. *)
Definition first_occurrence (rows : list Row) (i : nat) (r : Row) : Prop :=
  rows !! i = Some r
  /\ forall j r', (j < i)%nat -> rows !! j = Some r' -> dedupKey r' <> dedupKey r.

(** The (PalletID, Bin) pair of a row, as values and as text. *)
Definition pallet_bin (r : Row) : prim * prim :=
  (get r "PalletID", get r "Bin").

Definition pallet_bin_text (r : Row) : string * string :=
  (js_string (get r "PalletID"), js_string (get r "Bin")).


(** No character of [s] is the separator of the key. *)
Fixpoint no_bar (s : string) : bool :=
  match s with
  | String c t => negb (Ascii.eqb c "|") && no_bar t
  | EmptyString => true
  end.

(** A row as the deduplication tests of [tests.js] write them. *)
Definition inventory_row (pallet bin : prim) : Row :=
  <["PalletID" := pallet]>
  (<["Bin" := bin]>
  (<["ItemNumber" := Str "SKU-1001"]>
  (<["SystemQuantity" := Num 50]>
  (<["Location" := Str "Area-A"]> ∅)))).

Definition sum_Z (l : list Z) : Z := foldr Z.add 0 l.

(** The integers up to [2^53] in magnitude: the sums of doubles that come
    out exact. *)
Definition exact_int (z : Z) : Prop := - 2 ^ 53 <= z <= 2 ^ 53.

(** The totals after each element, from [acc]:
    [partial_sums [a; b; c] = [a; a + b; a + b + c]]. *)
Fixpoint running_totals (acc : Z) (l : list Z) : list Z :=
  match l with
  | [] => []
  | x :: l' => (acc + x) :: running_totals (acc + x) l'
  end.

Definition partial_sums (l : list Z) : list Z := running_totals 0 l.

(** [a / b × 100] to two decimals, for [0 <= a] and [0 < b]: the number of
    hundredths is [a × 10000 / b] rounded to the nearest integer, upwards on a
    tie. *)
Definition percent_two_decimals (a b : Z) : string :=
  hundredths ((20000 * a + b) / (2 * b)).

(** [<h>h <m>m <s>s] without its leading units that are zero; the last unit
    is always there. *)
Fixpoint drop_leading_zero_units (units : list (Z * string))
    : list (Z * string) :=
  match units with
  | (n, u) :: (_ :: _) as rest =>
      if n =? 0 then drop_leading_zero_units rest else units
  | _ => units
  end.

Definition join_spaces (l : list string) : string :=
  match l with
  | [] => ""
  | x :: l' => fold_left (fun acc y => acc +:+ " " +:+ y) l' x
  end.

Definition duration_text (h m s : Z) : string :=
  join_spaces
    ((fun '(n, u) => pretty n +:+ u)
       <$> drop_leading_zero_units [(h, "h"); (m, "m"); (s, "s")]).

(** A count action with the given variance and flag, as the tests write
    them. *)
Definition action_with (v : Z) (f : bool) : CountAction :=
  {| actionId := ""; action_sessionId := ""; palletId := ""; bin := "";
     itemNumber := ""; systemQuantity := 0; countedQuantity := v;
     variance := v; timestamp := ""; userId := ""; flagged := f;
     notes := None; status := confirmed |}.

(** The session of the completion test of [tests.js], with the given number
    of pallets. *)
Definition session_with (pallets : Z) (finish : option Z) : CountSession :=
  {| sessionId := "SES-123"; session_timestamp := ""; location := "Area-A";
     bins := ["A-1"]; session_userId := ""; startTime := 1000;
     endTime := finish; session_status := in_progress;
     totalPallets := pallets; completedCount := 0;
     session_varianceCount := 0 |}.

(** A store with one row, an array with that row, one action, an array with
    that action, and a finished session with its array of bins. *)
Definition sample_store : heap :=
  <[1%positive := row_obj (sample_row (Num 50))]>
  (<[2%positive := HArr [VRef 1%positive]]>
  (<[3%positive := action_obj (action_with 5 true)]>
  (<[4%positive := HArr [VRef 3%positive]]>
  (<[5%positive := session_obj (session_with 10 (Some 61000)) 6%positive]>
  (<[6%positive := HArr [vstr "A-1"]]> ∅))))).

(** * The validators of the schemas *)

(** A character of the class [[A-Za-z0-9\-]]. *)
Definition is_code_char (c : ascii) : bool :=
  let n := N_of_ascii c in
  ((65 <=? n) && (n <=? 90) || (97 <=? n) && (n <=? 122)
   || (48 <=? n) && (n <=? 57) || (n =? 45))%N.

Fixpoint all_chars (f : ascii -> bool) (s : string) : bool :=
  match s with
  | String c t => f c && all_chars f t
  | EmptyString => true
  end.

(** The test of [/^[A-Za-z0-9\-]+$/], the [validation] of [location] and of
    [bin] in [InventoryImportSchema]. *)
Definition code_pattern_test (v : prim) : bool :=
  negb (String.eqb (js_string v) "") && all_chars is_code_char (js_string v).

(** [(val) => Number.isInteger(val) && val >= 0], the [validation] of
    [systemQuantity] in [InventoryImportSchema]; [Number.isInteger] is false
    of every value that is not a number. *)
Definition systemQuantity_validation (val : prim) : bool :=
  match val with
  | Num z => 0 <=? z
  | _ => false
  end.

(** [(data) => data.countedQuantity - data.systemQuantity], the [computed]
    of [variance] in [CountActionsSchema]. *)
Definition variance_computed (data : CountAction) : Z :=
  countedQuantity data - systemQuantity data.

(** * The test runner of [tests.js]

    The counters of [TestRunner]; what it prints is not modelled. A test body
    is the sequence of the assertions it makes: it throws at the first one
    that fails. *)

Record TestRunner := {
  passed : nat;
  failed : nat
}.

(** [message || fallback]. *)
Definition message_or (message : prim) (fallback : string) : string :=
  if truthy message then js_string message else fallback.

(** [assert(condition, message)]: the message of the error it throws, if it
    throws. *)
Definition runner_assert (condition message : prim) : option string :=
  if negb (truthy condition) then Some (message_or message "Assertion failed")
  else None.

(** [assertEqual(actual, expected, message)], with [!==] on primitive
    values. *)
Definition runner_assertEqual (actual expected message : prim) : option string :=
  if negb (bool_decide (actual = expected))
  then Some (message_or message
               ("Expected " +:+ js_string expected +:+ ", got "
                +:+ js_string actual))
  else None.

Inductive assertion :=
  | Assert (condition message : prim)
  | AssertEqual (actual expected message : prim).

Definition run_assertion (a : assertion) : option string :=
  match a with
  | Assert c m => runner_assert c m
  | AssertEqual x y m => runner_assertEqual x y m
  end.

(** The call [fn()] of a test body: the message of the first error thrown. *)
Fixpoint run_body (body : list assertion) : option string :=
  match body with
  | [] => None
  | a :: body' =>
      match run_assertion a with
      | Some e => Some e
      | None => run_body body'
      end
  end.

(** [it(description, fn)]: the [try] counts the test as passed, the [catch]
    as failed. *)
Definition runner_it (st : TestRunner) (body : list assertion) : TestRunner :=
  match run_body body with
  | None => {| passed := S (passed st); failed := failed st |}
  | Some _ => {| passed := passed st; failed := S (failed st) |}
  end.

(** The numeral of [n / 10] with one decimal, for [0 <= n]. *)
Definition tenths (n : Z) : string :=
  pretty (n / 10) +:+ "." +:+ pretty (n mod 10).

(** [x.toFixed(1)]. *)
Definition toFixed1 (x : jsnum) : string :=
  match x with
  | JNaN => "NaN"
  | JInf false => "Infinity"
  | JInf true => "-Infinity"
  | JFin q =>
      if Qis_neg q then "-" +:+ tenths (Qfloor ((- q) * 10 + (1 # 2)))
      else tenths (Qfloor (q * 10 + (1 # 2)))
  end.

(** The [percentage] of [report()]. *)
Definition runner_report (st : TestRunner) : string :=
  let total := (passed st + failed st)%nat in
  toFixed1 (js_times100 (js_div (Qnat (passed st)) (Qnat total))).

(** What an assertion asks for. *)
Definition assertion_holds (a : assertion) : bool :=
  match a with
  | Assert c _ => truthy c
  | AssertEqual x y _ => bool_decide (x = y)
  end.

(** * Reading a duration back *)

(** The digits at the start of [s] and what follows them. *)
Fixpoint read_digits (s : string) (acc : option N) : option N * string :=
  match s with
  | String c t =>
      match digit_val 10 c with
      | Some d => read_digits t (Some (10 * default 0 acc + d)%N)
      | None => (acc, s)
      end
  | EmptyString => (acc, s)
  end.

(** A number and the character of its unit. *)
Definition read_unit (s : string) : option (N * ascii * string) :=
  match read_digits s None with
  | (Some n, String u t) => Some (n, u, t)
  | _ => None
  end.

Definition skip_space (s : string) : option string :=
  match s with
  | String c t => if Ascii.eqb c " " then Some t else None
  | EmptyString => None
  end.

(** The seconds that a text of the form [<h>h <m>m <s>s], [<m>m <s>s] or
    [<s>s] stands for. *)
Definition parse_duration (s : string) : option N :=
  match read_unit s with
  | Some (n1, u1, t1) =>
      if Ascii.eqb u1 "s" then
        if String.eqb t1 "" then Some n1 else None
      else if Ascii.eqb u1 "m" then
        match skip_space t1 ≫= read_unit with
        | Some (n2, u2, t2) =>
            if Ascii.eqb u2 "s" && String.eqb t2 ""
            then Some (60 * n1 + n2)%N else None
        | None => None
        end
      else if Ascii.eqb u1 "h" then
        match skip_space t1 ≫= read_unit with
        | Some (n2, u2, t2) =>
            if Ascii.eqb u2 "m" then
              match skip_space t2 ≫= read_unit with
              | Some (n3, u3, t3) =>
                  if Ascii.eqb u3 "s" && String.eqb t3 ""
                  then Some (3600 * n1 + 60 * n2 + n3)%N else None
              | None => None
              end
            else None
        | None => None
        end
      else None
  | None => None
  end.

(** * Checks on the inputs of [tests.js] *)

Example validate_test1 :
  validateInventoryRow (sample_row (Num 50)) = {| isValid := true; errors := [] |}.
Proof. vm_compute. reflexivity. Qed.

Example validate_test3 :
  validateInventoryRow (sample_row (Str "not-a-number"))
  = {| isValid := false;
       errors := ["SystemQuantity must be a number, got: not-a-number"] |}.
Proof. vm_compute. reflexivity. Qed.

Example validate_zero :
  validateInventoryRow (sample_row (Num 0))
  = {| isValid := false;
       errors := ["Missing required column: SystemQuantity"] |}.
Proof. vm_compute. reflexivity. Qed.

Example parseInt_examples :
  parseInt (Str "  -12abc") = Some (-12) /\ parseInt (Str "0x1F") = Some 31
  /\ parseInt (Str "") = None /\ parseInt (Str "abc") = None
  /\ parseInt (Str "3.7") = Some 3 /\ parseInt (Num (-250)) = Some (-250)
  /\ parseInt (Bool true) = None /\ parseInt (Str "0x") = None.
Proof. vm_compute. repeat split. Qed.

(** White space of more than one byte: the no-break space U+00A0, the byte
    order mark U+FEFF and the line separator U+2028 are skipped; the letter
    U+00C2 is not. *)
Example parseInt_unicode_space :
  let nbsp := String (ascii_of_N 194) (String (ascii_of_N 160) "") in
  let bom :=
    String (ascii_of_N 239) (String (ascii_of_N 187) (String (ascii_of_N 191) "")) in
  let ls :=
    String (ascii_of_N 226) (String (ascii_of_N 128) (String (ascii_of_N 168) "")) in
  let a_circumflex := String (ascii_of_N 195) (String (ascii_of_N 130) "") in
  parseInt (Str (nbsp +:+ "12")) = Some 12
  /\ parseInt (Str (bom +:+ " " +:+ ls +:+ "-7")) = Some (-7)
  /\ parseInt (Str (a_circumflex +:+ "12")) = None
  /\ validateInventoryRow (sample_row (Str (nbsp +:+ "12")))
     = {| isValid := true; errors := [] |}.
Proof. vm_compute. repeat split. Qed.

Example validate_dates :
  isValid (validateInventoryRow
             (<["ExpiryDate" := Str "2026-12-31"]> (sample_row (Num 50)))) = true
  /\ validateInventoryRow
       (<["ExpiryDate" := Str "31/12/2026"]> (sample_row (Num 50)))
     = {| isValid := false;
          errors := ["ExpiryDate must be YYYY-MM-DD format, got: 31/12/2026"] |}.
Proof. vm_compute. repeat split. Qed.

Example validate_missing_pallet :
  validateInventoryRow (delete "PalletID" (sample_row (Num 50)))
  = {| isValid := false; errors := ["Missing required column: PalletID"] |}.
Proof. vm_compute. reflexivity. Qed.

Example dedup_tests :
  (let r := inventory_row (Str "PAL-001") (Str "A-1") in
   unique (deduplicateRows [r; r]) = [r]
   /\ duplicates (deduplicateRows [r; r]) = [with_reason r]
   /\ deduplicationCount (deduplicateRows [r; r]) = 1%nat)
  /\ (let rows := [inventory_row (Str "PAL-001") (Str "A-1");
                   inventory_row (Str "PAL-002") (Str "A-1");
                   inventory_row (Str "PAL-003") (Str "A-2")] in
      unique (deduplicateRows rows) = rows
      /\ deduplicationCount (deduplicateRows rows) = 0%nat)
  /\ (let rows := [inventory_row (Str "PAL-001") (Str "A-1");
                   inventory_row (Str "PAL-001") (Str "A-2")] in
      unique (deduplicateRows rows) = rows).
Proof. cbv zeta. repeat split; vm_compute; reflexivity. Qed.

Example stats_test :
  let stats :=
    calculateVarianceStats
      [action_with 10 false; action_with (-5) false;
       action_with 0 false; action_with 0 false] in
  totalActions stats = 4%nat
  /\ length (positiveVariances stats) = 1%nat
  /\ length (negativeVariances stats) = 1%nat
  /\ length (zeroVariances stats) = 2%nat
  /\ varianceCount stats = 2%nat
  /\ totalVariance stats = 5
  /\ accuracyPercentage stats = "50.00".
Proof. vm_compute. repeat split. Qed.

(** Additions of doubles: beyond [2^53] a sum is rounded, and the total
    depends on the order of the actions. *)
Example stats_rounding :
  js_add (2 ^ 53) 1 = 2 ^ 53
  /\ js_add (2 ^ 53 + 2) 1 = 2 ^ 53 + 4
  /\ totalVariance
       (calculateVarianceStats
          [action_with (2 ^ 53) false; action_with 1 false;
           action_with (- 2 ^ 53) false]) = 0
  /\ totalVariance
       (calculateVarianceStats
          [action_with (2 ^ 53) false; action_with 1 false;
           action_with 1 false]) = 2 ^ 53
  /\ totalVariance
       (calculateVarianceStats
          [action_with 1 false; action_with 1 false;
           action_with (2 ^ 53) false]) = 2 ^ 53 + 2.
Proof. vm_compute. repeat split. Qed.

Example metrics_tests :
  completionPercentage
    (calculateSessionMetrics 1000 (session_with 10 None)
       (replicate 5 (action_with 0 false))) = "50.00"
  /\ flaggedCount
       (calculateSessionMetrics 1000 (session_with 5 None)
          [action_with 0 false; action_with 5 true;
           action_with 0 false; action_with (-3) true]) = 2%nat
  /\ durationSeconds
       (calculateSessionMetrics 0 (session_with 10 (Some 3601000)) []) = 3600.
Proof. vm_compute. repeat split. Qed.

Example formatDuration_tests :
  formatDuration 45 = "45s" /\ formatDuration 125 = "2m 5s"
  /\ formatDuration 3665 = "1h 1m 5s".
Proof. vm_compute. repeat split. Qed.

(** Beyond [2^53] the quotient by 3600 is rounded: here it comes out one hour
    above the integer quotient. *)
Example formatDuration_rounding :
  formatDuration 253327479039593984 = "70368744177665h 59m 44s"
  /\ 253327479039593984 / 3600 = 70368744177664.
Proof. vm_compute. repeat split. Qed.

Example toFixed2_examples :
  toFixed2 (js_times100 (js_div (Qnat 5) (Qnat 10))) = "50.00"
  /\ toFixed2 (js_times100 (js_div (Qnat 1) (Qnat 3))) = "33.33"
  /\ toFixed2 (js_times100 (js_div (Qnat 2) (Qnat 3))) = "66.67"
  /\ toFixed2 (js_times100 (js_div (Qnat 0) (Qnat 0))) = "NaN"
  /\ toFixed2 (js_times100 (js_div (Qnat 3) (Qnat 0))) = "Infinity"
  /\ toFixed2 (js_times100 (js_div (Qnat 1) (Qnat 1))) = "100.00".
Proof. vm_compute. repeat split. Qed.

(** The doubles of some quotients, and percentages that are half-way between
    two hundredths: the double of [23 / 160 * 100] is below 14.375, the one of
    [1 / 32 * 100] is 3.125. *)
Example binary64_examples :
  b64 (1 # 10) = (3602879701896397 # 36028797018963968)%Q
  /\ b64 (inject_Z (2 ^ 53 + 1)) = inject_Z (2 ^ 53)
  /\ b64 (inject_Z (2 ^ 53 + 3)) = inject_Z (2 ^ 53 + 4)
  /\ js_times100 (js_div (Qnat 23) (Qnat 160))
     = JFin (8092405580431359 # 562949953421312)
  /\ toFixed2 (js_times100 (js_div (Qnat 23) (Qnat 160))) = "14.37"
  /\ percent_two_decimals 23 160 = "14.38"
  /\ toFixed2 (js_times100 (js_div (Qnat 1) (Qnat 32))) = "3.13"
  /\ toFixed1 (js_times100 (js_div (Qnat 23) (Qnat 80))) = "28.7"
  /\ js_div 1 (inject_Z (2 ^ 1023)) = JFin (1 # 2 ^ 1023)
  /\ js_times100 (JFin (inject_Z (2 ^ 1023))) = JInf false.
Proof. vm_compute. repeat split. Qed.

(** * The JavaScript fragment *)

Lemma get_lookup (row : Row) k v : row !! k = Some v -> get row k = v.
Proof. unfold get. by intros ->. Qed.

Lemma get_absent (row : Row) k : row !! k = None -> get row k = Undefined.
Proof. unfold get. by intros ->. Qed.

Lemma get_delete_ne (row : Row) k k' : k <> k' -> get (delete k row) k' = get row k'.
Proof. intros. unfold get. by rewrite lookup_delete_ne. Qed.

Lemma get_delete_eq (row : Row) k : get (delete k row) k = Undefined.
Proof. unfold get. by rewrite lookup_delete_eq. Qed.

(** ** [parseInt] reads back the numeral of an integer *)

Lemma digit_val_pretty_N_char d :
  (d < 10)%N -> digit_val 10 (pretty_N_char d) = Some d.
Proof.
  intros Hd.
  assert (d = 0 \/ d = 1 \/ d = 2 \/ d = 3 \/ d = 4 \/ d = 5 \/ d = 6
          \/ d = 7 \/ d = 8 \/ d = 9)%N as Hcases by lia.
  repeat destruct Hcases as [-> | Hcases]; try reflexivity.
  by subst.
Qed.

Lemma digits_value_pretty_N_go x s :
  (0 < x)%N ->
  exists k, forall acc,
    digits_value 10 (pretty_N_go x s) acc
    = digits_value 10 s (Some (10 ^ k * default 0 acc + x)%N).
Proof.
  revert s. induction (N.lt_wf_0 x) as [x _ IH]; intros s Hx.
  rewrite pretty_N_go_step by done.
  destruct (decide (x `div` 10 = 0)%N) as [Hq | Hq].
  - rewrite Hq, pretty_N_go_0. exists 1%N. intros acc. simpl.
    assert (x < 10)%N by (apply N.div_small_iff in Hq; lia).
    rewrite N.mod_small by done.
    rewrite digit_val_pretty_N_char by done.
    reflexivity.
  - assert (x `div` 10 < x)%N as Hlt by (apply N.div_lt; lia).
    assert (0 < x `div` 10)%N as Hpos by by apply N.neq_0_lt_0.
    destruct (IH _ Hlt (String (pretty_N_char (x `mod` 10)) s) Hpos) as [k Hk].
    exists (k + 1)%N. intros acc. rewrite Hk. simpl.
    rewrite digit_val_pretty_N_char by (apply N.mod_lt; lia).
    do 2 f_equal. simpl default.
    rewrite N.pow_add_r, N.pow_1_r.
    pose proof (N.div_mod x 10). lia.
Qed.

Lemma pretty_N_go_head x s :
  (0 < x)%N ->
  exists d t, (1 <= d <= 9)%N /\ pretty_N_go x s = String (pretty_N_char d) t.
Proof.
  revert s. induction (N.lt_wf_0 x) as [x _ IH]; intros s Hx.
  rewrite pretty_N_go_step by done.
  destruct (decide (x `div` 10 = 0)%N) as [Hq | Hq].
  - rewrite Hq, pretty_N_go_0.
    assert (x < 10)%N by (apply N.div_small_iff in Hq; lia).
    exists x, s. rewrite N.mod_small by done. split; [lia | done].
  - apply IH; [apply N.div_lt; lia | by apply N.neq_0_lt_0].
Qed.

(** A character of one byte that is no white space starts no white space
    of several bytes. *)
Lemma trim_start_keep c t :
  is_ws c = false -> (N_of_ascii c <? 128)%N = true ->
  trim_start (String c t) = String c t.
Proof.
  intros Hws Hlt. apply N.ltb_lt in Hlt. cbn [trim_start]. rewrite Hws.
  destruct t as [| c2 t2]; [done |].
  assert (is_ws2 c c2 = false) as ->.
  { unfold is_ws2. apply andb_false_intro1, N.eqb_neq. lia. }
  destruct t2 as [| c3 t3]; [done |].
  assert (is_ws3 c c2 c3 = false) as ->; [| done].
  unfold is_ws3. cbv zeta.
  assert ((N_of_ascii c =? 225)%N = false) as -> by (apply N.eqb_neq; lia).
  assert ((N_of_ascii c =? 226)%N = false) as -> by (apply N.eqb_neq; lia).
  assert ((N_of_ascii c =? 227)%N = false) as -> by (apply N.eqb_neq; lia).
  assert ((N_of_ascii c =? 239)%N = false) as -> by (apply N.eqb_neq; lia).
  reflexivity.
Qed.

Lemma parseInt_digits (p : positive) :
  exists c t,
    pretty (Npos p) = String c t
    /\ is_ws c = false /\ (N_of_ascii c <? 128)%N = true
    /\ Ascii.eqb c "-" = false /\ Ascii.eqb c "+" = false
    /\ Ascii.eqb c "0" = false
    /\ digits_value 10 (String c t) None = Some (Npos p).
Proof.
  unfold pretty, pretty_N. rewrite decide_False by done.
  destruct (pretty_N_go_head (Npos p) "") as (d & t & Hd & Heq); [lia |].
  destruct (digits_value_pretty_N_go (Npos p) "") as [k Hk]; [lia |].
  exists (pretty_N_char d), t. rewrite <- Heq, Hk. simpl digits_value.
  assert (d = 1 \/ d = 2 \/ d = 3 \/ d = 4 \/ d = 5 \/ d = 6
          \/ d = 7 \/ d = 8 \/ d = 9)%N as Hcases by lia.
  split; [done |].
  replace (10 ^ k * 0 + N.pos p)%N with (N.pos p) by lia.
  repeat destruct Hcases as [-> | Hcases]; try subst d; by repeat split.
Qed.

(** [parseInt] of an integer is that integer: it is never [NaN]. *)
Lemma parseInt_Num z : parseInt (Num z) = Some z.
Proof.
  destruct z as [| p | p]; [reflexivity | |].
  - destruct (parseInt_digits p)
      as (c & t & Heq & Hws & Hlt & Hm & Hp & H0 & Hd).
    unfold parseInt. simpl js_string.
    change (pretty (Z.pos p)) with (pretty (N.pos p)). rewrite Heq.
    rewrite (trim_start_keep _ _ Hws Hlt). unfold strip_sign. rewrite Hm, Hp.
    assert (strip_hex_prefix (String c t) = (10%N, String c t)) as ->.
    { unfold strip_hex_prefix. destruct t; [done |]. by rewrite H0. }
    by rewrite Hd.
  - destruct (parseInt_digits p)
      as (c & t & Heq & Hws & Hlt & Hm & Hp & H0 & Hd).
    unfold parseInt. simpl js_string.
    change (pretty (Z.neg p)) with ("-" +:+ pretty (N.pos p)). rewrite Heq.
    change ("-" +:+ String c t) with (String "-" (String c t)).
    rewrite (trim_start_keep "-" _ eq_refl eq_refl).
    change (strip_sign (String "-" (String c t))) with (-1, String c t).
    cbv beta iota.
    assert (strip_hex_prefix (String c t) = (10%N, String c t)) as ->.
    { unfold strip_hex_prefix. destruct t; [done |]. by rewrite H0. }
    by rewrite Hd.
Qed.

(** * [validateInventoryRow] *)

Lemma fold_check_required row cols acc :
  fold_left (check_required row) cols acc
  = acc ++ (missing_error <$> filter (fun c => truthy (get row c) = false) cols).
Proof.
  revert acc. induction cols as [| c cols IH]; intros acc; simpl.
  - by rewrite app_nil_r.
  - rewrite IH. unfold check_required. rewrite filter_cons.
    destruct (truthy (get row c)); simpl; [done |].
    by rewrite <- app_assoc.
Qed.

(** The errors come in three groups, in this order. *)
Lemma validate_errors row :
  errors (validateInventoryRow row)
  = missing_errors row ++ quantity_errors row ++ expiry_errors row.
Proof.
  unfold validateInventoryRow, missing_errors, quantity_errors, expiry_errors.
  rewrite fold_check_required. simpl app at 1.
  destruct (truthy (get row "SystemQuantity") && _),
    (truthy (get row "ExpiryDate") && _); simpl;
    rewrite ?app_nil_r, <- ?app_assoc; reflexivity.
Qed.

Lemma validate_isValid row :
  isValid (validateInventoryRow row) = true <-> errors (validateInventoryRow row) = [].
Proof.
  unfold validateInventoryRow. cbv zeta. simpl isValid. simpl errors.
  rewrite Nat.eqb_eq. apply length_zero_iff_nil.
Qed.

Lemma missing_error_inj c c' : missing_error c = missing_error c' -> c = c'.
Proof. unfold missing_error. intros H. by simplify_eq/=. Qed.

Lemma elem_of_missing_errors row e :
  e ∈ missing_errors row
  <-> exists c, e = missing_error c /\ c ∈ required /\ truthy (get row c) = false.
Proof.
  unfold missing_errors. rewrite list_elem_of_fmap.
  split; intros (c & -> & Hc); exists c; split; try done.
  - by apply list_elem_of_filter in Hc as [? ?].
  - apply list_elem_of_filter. tauto.
Qed.

Lemma quantity_error_not_missing row v : quantity_error v ∉ missing_errors row.
Proof.
  rewrite elem_of_missing_errors. intros (c & Heq & _).
  unfold quantity_error, missing_error in Heq. simpl in Heq. discriminate Heq.
Qed.

Lemma quantity_error_not_expiry row v : quantity_error v ∉ expiry_errors row.
Proof.
  unfold expiry_errors. case_match; [| apply not_elem_of_nil].
  rewrite list_elem_of_singleton. unfold quantity_error, expiry_error. simpl.
  discriminate.
Qed.

(** A row whose five required values are truthy, whose quantity [parseInt]
    reads, and whose expiry date is empty or well formed, has no error. *)
Lemma validate_accepts row :
  (forall c, c ∈ required -> truthy (get row c) = true) ->
  parseInt (get row "SystemQuantity") <> None ->
  (truthy (get row "ExpiryDate") = false
   \/ date_regex_test (get row "ExpiryDate") = true) ->
  validateInventoryRow row = {| isValid := true; errors := [] |}.
Proof.
  intros Hreq Hq Hd.
  assert (errors (validateInventoryRow row) = []) as Herr.
  { rewrite validate_errors.
    assert (missing_errors row = []) as ->.
    { apply elem_of_nil_inv. intros e.
      rewrite elem_of_missing_errors. intros (c & _ & Hc & Hf).
      rewrite (Hreq c Hc) in Hf. discriminate. }
    assert (quantity_errors row = []) as ->.
    { unfold quantity_errors, isNaN_parseInt.
      destruct (parseInt _); [| done]. by rewrite andb_false_r. }
    unfold expiry_errors. destruct Hd as [-> | ->]; [done |].
    by rewrite andb_false_r. }
  pose proof (proj2 (validate_isValid row) Herr) as Hv.
  destruct (validateInventoryRow row) as [b es]. simpl in *. by subst.
Qed.

(** Validation looks at a value only once it is truthy: two rows with the same
    truthy values are validated alike. *)
Lemma validate_ext (r1 r2 : Row) :
  (forall c, truthy (get r1 c) = truthy (get r2 c)) ->
  (forall c, truthy (get r1 c) = true -> get r1 c = get r2 c) ->
  validateInventoryRow r1 = validateInventoryRow r2.
Proof.
  intros Ht Hg. unfold validateInventoryRow. cbv zeta.
  rewrite !fold_check_required.
  rewrite (list_filter_iff _ (fun c => truthy (get r2 c) = false))
    by (intros c; by rewrite Ht).
  assert (forall c (f : prim -> bool) (g : prim -> string) (l : list string),
    (if truthy (get r1 c) && f (get r1 c) then l ++ [g (get r1 c)] else l)
    = (if truthy (get r2 c) && f (get r2 c) then l ++ [g (get r2 c)] else l))
    as Hstep.
  { intros c f g l. rewrite <- Ht. destruct (truthy (get r1 c)) eqn:E; [| done].
    by rewrite <- (Hg c E). }
  rewrite (Hstep "SystemQuantity" isNaN_parseInt quantity_error).
  set (l := if truthy (get r2 "SystemQuantity") && _ then _ else _).
  rewrite (Hstep "ExpiryDate" (fun v => negb (date_regex_test v)) expiry_error).
  reflexivity.
Qed.

(** C10: a required column that holds the number 0 or the empty string is
    reported as [Missing required column: <name>], and the whole result is the
    one of the row without that column: a falsy value is treated as an absent
    one. *)
Theorem falsy_required_value_reported_missing (row : Row) (col : string) :
  col ∈ required ->
  row !! col = Some (Num 0) \/ row !! col = Some (Str "") ->
  missing_error col ∈ errors (validateInventoryRow row)
  /\ isValid (validateInventoryRow row) = false
  /\ validateInventoryRow row = validateInventoryRow (delete col row).
Proof.
  intros Hcol Hv.
  assert (truthy (get row col) = false) as Hf.
  { destruct Hv as [H | H]; by rewrite (get_lookup _ _ _ H). }
  assert (missing_error col ∈ errors (validateInventoryRow row)) as Hin.
  { rewrite validate_errors, elem_of_app. left.
    apply elem_of_missing_errors. eauto. }
  split; [done |]. split.
  - destruct (isValid (validateInventoryRow row)) eqn:E; [| done].
    apply validate_isValid in E. rewrite E in Hin.
    by apply not_elem_of_nil in Hin.
  - apply validate_ext.
    + intros c. destruct (decide (col = c)) as [<- | Hne].
      * by rewrite get_delete_eq, Hf.
      * by rewrite get_delete_ne.
    + intros c Hc. destruct (decide (col = c)) as [<- | Hne].
      * congruence.
      * by rewrite get_delete_ne.
Qed.

Lemma falsy_required_value_witness :
  let row := sample_row (Num 0) in
  missing_error "SystemQuantity" ∈ errors (validateInventoryRow row)
  /\ isValid (validateInventoryRow row) = false
  /\ validateInventoryRow row = validateInventoryRow (delete "SystemQuantity" row).
Proof.
  apply (falsy_required_value_reported_missing (sample_row (Num 0))
           "SystemQuantity").
  - unfold required. do 4 apply list_elem_of_further. apply list_elem_of_here.
  - left. vm_compute. reflexivity.
Defined.

(** C1, at a quantity of zero: the row of the first test of [tests.js] with
    [SystemQuantity: 0] has its five required columns and a quantity that
    [parseInt] reads as the integer 0, and yet it is rejected as if the
    column were missing; with the text ["0"] the same row is accepted. *)
Theorem validate_rejects_zero_quantity :
  parseInt (Num 0) = Some 0
  /\ validateInventoryRow (sample_row (Num 0))
     = {| isValid := false;
          errors := ["Missing required column: SystemQuantity"] |}
  /\ validateInventoryRow (sample_row (Str "0"))
     = {| isValid := true; errors := [] |}.
Proof. vm_compute. repeat split. Qed.

(** Once a digit is read, the value is a number. *)
Lemma digits_value_Some radix s a : digits_value radix s (Some a) <> None.
Proof.
  revert a. induction s as [| c s IH]; intros a; simpl; [done |].
  destruct (digit_val radix c); [apply IH | done].
Qed.

Lemma digits_value_None radix s :
  digits_value radix s None = None
  <-> starts_with (fun c => bool_decide (is_Some (digit_val radix c))) s = false.
Proof.
  destruct s as [| c s]; simpl; [done |].
  destruct (digit_val radix c) as [d |] eqn:E.
  - rewrite bool_decide_true by eauto. split; [| done].
    intros H. by apply digits_value_Some in H.
  - rewrite bool_decide_false by (by intros [? ?]). done.
Qed.

Lemma digit_val_10 c : bool_decide (is_Some (digit_val 10 c)) = is_digit c.
Proof.
  destruct c as [[] [] [] [] [] [] [] []]; vm_compute; reflexivity.
Qed.

Lemma digit_val_16 c : bool_decide (is_Some (digit_val 16 c)) = is_hex_digit c.
Proof.
  destruct c as [[] [] [] [] [] [] [] []]; vm_compute; reflexivity.
Qed.

Lemma starts_with_ext f g s :
  (forall c, f c = g c) -> starts_with f s = starts_with g s.
Proof. intros H. destruct s; simpl; [done | apply H]. Qed.

(** [parseInt] gives [NaN] exactly when no numeral starts the text that
    follows the white space and the sign. *)
Lemma parseInt_None v :
  parseInt v = None <-> starts_with_numeral (unsigned_text v) = false.
Proof.
  unfold parseInt, unsigned_text.
  destruct (strip_sign (trim_start (js_string v))) as [sign s1]. simpl snd.
  assert (forall radix s2,
            match digits_value radix s2 None with
            | Some m => Some (sign * Z.of_N m)
            | None => None
            end = None
            <-> digits_value radix s2 None = None) as Hnone.
  { intros radix s2. by destruct (digits_value radix s2 None). }
  unfold strip_hex_prefix, starts_with_numeral.
  destruct s1 as [| c [| x t]].
  - rewrite Hnone, digits_value_None.
    by rewrite (starts_with_ext _ _ _ digit_val_10).
  - rewrite Hnone, digits_value_None.
    by rewrite (starts_with_ext _ _ _ digit_val_10).
  - destruct (Ascii.eqb c "0" && (Ascii.eqb x "x" || Ascii.eqb x "X")).
    + rewrite Hnone, digits_value_None.
      by rewrite (starts_with_ext _ _ _ digit_val_16).
    + rewrite Hnone, digits_value_None.
      by rewrite (starts_with_ext _ _ _ digit_val_10).
Qed.

(** C5, as the code has it: the quantity error is reported exactly when the
    value is truthy (there, not the empty string, not 0) and [parseInt] gives
    [NaN], which is when the text after the white space and the sign starts
    with no numeral: not with [0x] or [0X] and a hexadecimal digit, and not
    with a decimal digit other than the [0] of such a prefix. An integer
    never gets the error. *)
Theorem quantity_error_iff (row : Row) :
  let v := get row "SystemQuantity" in
  (quantity_error v ∈ errors (validateInventoryRow row)
   <-> truthy v = true /\ parseInt v = None)
  /\ (parseInt v = None <-> starts_with_numeral (unsigned_text v) = false)
  /\ (forall z, v = Num z ->
        quantity_error v ∉ errors (validateInventoryRow row)).
Proof.
  cbv zeta.
  assert (quantity_error (get row "SystemQuantity")
            ∈ errors (validateInventoryRow row)
          <-> truthy (get row "SystemQuantity") = true
              /\ parseInt (get row "SystemQuantity") = None) as Hiff.
  { rewrite validate_errors, !elem_of_app. split.
    - intros [H | [H | H]].
      + by apply quantity_error_not_missing in H.
      + unfold quantity_errors, isNaN_parseInt in H.
        destruct (truthy (get row "SystemQuantity")); simpl in H;
          [| by apply not_elem_of_nil in H].
        destruct (parseInt (get row "SystemQuantity")); [| done].
        by apply not_elem_of_nil in H.
      + by apply quantity_error_not_expiry in H.
    - intros [Ht Hp]. right. left.
      unfold quantity_errors, isNaN_parseInt. rewrite Ht, Hp. simpl.
      apply list_elem_of_here. }
  split; [exact Hiff |]. split; [apply parseInt_None |].
  intros z Hz. rewrite Hiff, Hz, parseInt_Num. intros [_ H]. discriminate H.
Qed.

(** C5 fails as stated: an empty quantity does not parse as an integer, and
    the quantity error is not reported for it; the text [12abc] is the
    numeral of no integer, and the row that has it is valid. The text [0x]
    starts with a digit and gets the error. *)
Lemma quantity_error_iff_counterexample :
  (let row := sample_row (Str "") in
   parseInt (get row "SystemQuantity") = None
   /\ quantity_error (get row "SystemQuantity")
        ∉ errors (validateInventoryRow row))
  /\ (let row := sample_row (Str "12abc") in
      (forall z, js_string (Num z) <> "12abc")
      /\ validateInventoryRow row = {| isValid := true; errors := [] |})
  /\ validateInventoryRow (sample_row (Str "0x"))
     = {| isValid := false;
          errors := ["SystemQuantity must be a number, got: 0x"] |}.
Proof.
  apply and_assoc. split; [| vm_compute; reflexivity].
  split; [split |].
  - vm_compute. reflexivity.
  - vm_compute errors. intros H.
    apply list_elem_of_singleton in H. vm_compute in H. discriminate H.
  - split; [| vm_compute; reflexivity].
    intros z Hz. pose proof (parseInt_Num z) as Hp.
    unfold parseInt in Hp. rewrite Hz in Hp. vm_compute in Hp.
    injection Hp as <-. vm_compute in Hz. discriminate Hz.
Qed.

(** * [deduplicateRows] *)

Lemma dedup_callback_cases row st :
  (dedupKey row ∈ dom (seen st)
   /\ dedup_callback row st
      = (false, {| seen := seen st; dups := dups st ++ [with_reason row] |}))
  \/ ((dedupKey row ∉ dom (seen st))
      /\ dedup_callback row st
         = (true, {| seen := <[dedupKey row := row]> (seen st);
                     dups := dups st |})).
Proof.
  unfold dedup_callback. cbv zeta.
  destruct (decide (is_Some (seen st !! dedupKey row))) as [H | H].
  - left. by rewrite elem_of_dom.
  - right. by rewrite elem_of_dom.
Qed.

Lemma filter_st_cons_inv row rows st kept st' :
  filter_st dedup_callback (row :: rows) st = (kept, st') ->
  exists keep st1 kept1,
    dedup_callback row st = (keep, st1)
    /\ filter_st dedup_callback rows st1 = (kept1, st')
    /\ kept = (if keep then row :: kept1 else kept1).
Proof.
  cbn [filter_st]. destruct (dedup_callback row st) as [keep st1].
  destruct (filter_st dedup_callback rows st1) as [kept1 st2] eqn:E.
  intros [= <- <-]. by exists keep, st1, kept1.
Qed.

(** Taking one row apart: either it is rejected and the state only gets one
    more duplicate, or it is kept and its key is marked as seen. *)
Ltac dedup_cases H row st :=
  apply filter_st_cons_inv in H as (?keep & ?st1 & ?kept1 & ?Hcb & H & ->);
  destruct (dedup_callback_cases row st) as [[?Hkey ?Heq] | [?Hkey ?Heq]];
  match goal with
  | Hcb : dedup_callback row st = _, Heq : dedup_callback row st = _ |- _ =>
      rewrite Heq in Hcb; injection Hcb as <- <-
  end.



Lemma filter_st_dedup_first rows st kept st' :
  filter_st dedup_callback rows st = (kept, st') ->
  forall r, r ∈ kept
    <-> exists i, first_occurrence rows i r /\ dedupKey r ∉ dom (seen st).
Proof.
  revert st kept st'. induction rows as [| row rows IH]; intros st kept st' H r.
  - simpl in H. injection H as <- <-. split.
    + by intros ?%not_elem_of_nil.
    + intros (i & [Hi _] & _). by rewrite lookup_nil in Hi.
  - dedup_cases H row st; specialize (IH _ _ _ H r); simpl in IH.
    + rewrite IH. split.
      * intros (i & [Hi Hfirst] & Hr). exists (S i). split; [| done].
        split; [done |]. intros [| j] r' Hj Hr'; simpl in Hr'.
        -- injection Hr' as <-. congruence.
        -- apply (Hfirst j); [lia | done].
      * intros ([| i] & [Hi Hfirst] & Hr); simpl in Hi.
        -- injection Hi as <-. done.
        -- exists i. split; [| done]. split; [done |].
           intros j r' Hj Hr'. apply (Hfirst (S j)); [lia | done].
    + rewrite elem_of_cons, IH, dom_insert_L. split.
      * intros [-> | (i & [Hi Hfirst] & Hr)].
        -- exists 0%nat. split; [| done]. split; [done |]. intros j r' Hj. lia.
        -- apply not_elem_of_union in Hr as [Hne%not_elem_of_singleton Hr].
           exists (S i). split; [| done]. split; [done |].
           intros [| j] r' Hj Hr'; simpl in Hr'.
           ++ injection Hr' as <-. congruence.
           ++ apply (Hfirst j); [lia | done].
      * intros ([| i] & [Hi Hfirst] & Hr); simpl in Hi.
        -- injection Hi as <-. by left.
        -- right. exists i. split.
           ++ split; [done |].
              intros j r' Hj Hr'. apply (Hfirst (S j)); [lia | done].
           ++ assert (dedupKey row <> dedupKey r) as Hne
                by (apply (Hfirst 0%nat); [lia | done]).
              apply not_elem_of_union. split; [| done].
              apply not_elem_of_singleton. congruence.
Qed.

Lemma filter_st_dedup_NoDup rows st kept st' :
  filter_st dedup_callback rows st = (kept, st') ->
  NoDup (dedupKey <$> kept).
Proof.
  revert st kept st'. induction rows as [| row rows IH]; intros st kept st' H.
  - simpl in H. injection H as <- <-. constructor.
  - dedup_cases H row st.
    + by apply IH in H.
    + rewrite fmap_cons. apply NoDup_cons. split; [| by apply IH in H].
      intros (r & Hk & Hr)%list_elem_of_fmap.
      apply (filter_st_dedup_first _ _ _ _ H) in Hr as (i & _ & Hr).
      simpl in Hr. rewrite dom_insert_L in Hr.
      apply not_elem_of_union in Hr as [Hne%not_elem_of_singleton _].
      congruence.
Qed.

(** ** The key and the (PalletID, Bin) pair *)

Lemma append_nil_l s : "" +:+ s = s.
Proof. reflexivity. Qed.

Lemma append_cons c s t : String c s +:+ t = String c (s +:+ t).
Proof. reflexivity. Qed.

Lemma append_assoc s t u : (s +:+ t) +:+ u = s +:+ t +:+ u.
Proof.
  induction s as [| c s IH]; rewrite ?append_nil_l, ?append_cons; [done |].
  by rewrite IH.
Qed.


Lemma no_bar_append p b : no_bar (p +:+ String "|" b) = false.
Proof.
  induction p as [| c p IH]; rewrite ?append_nil_l, ?append_cons; simpl;
    [done |].
  rewrite IH. apply andb_false_r.
Qed.

Lemma bar_separated_inj p1 p2 b1 b2 :
  no_bar b1 = true -> no_bar b2 = true ->
  p1 +:+ "|" +:+ b1 = p2 +:+ "|" +:+ b2 -> p1 = p2 /\ b1 = b2.
Proof.
  intros H1 H2. revert p2.
  induction p1 as [| c p1 IH]; intros [| c' p2] H;
    rewrite ?append_nil_l, ?append_cons, ?append_nil_l in H.
  - by injection H as ->.
  - injection H as <- ->. by rewrite no_bar_append in H1.
  - injection H as -> <-. by rewrite no_bar_append in H2.
  - injection H as -> H. destruct (IH p2) as [-> ->]; done.
Qed.

(** Where no Bin holds a [|], two rows have the same key exactly when their
    PalletID and Bin read the same as text. *)
Lemma dedupKey_inj r r' :
  no_bar (js_string (get r "Bin")) = true ->
  no_bar (js_string (get r' "Bin")) = true ->
  dedupKey r = dedupKey r' -> pallet_bin_text r = pallet_bin_text r'.
Proof.
  intros H1 H2 Hk. unfold pallet_bin_text.
  by destruct (bar_separated_inj _ _ _ _ H1 H2 Hk) as [-> ->].
Qed.

Lemma dedupKey_pallet_bin r r' : pallet_bin r = pallet_bin r' -> dedupKey r = dedupKey r'.
Proof. unfold pallet_bin, dedupKey. by intros [= -> ->]. Qed.










(** * Binary64 arithmetic *)

Section binary64.
Local Open Scope Q_scope.

Lemma Qpow2_pos e : 0 < 2 ^ e.
Proof. apply Qpower_0_lt. reflexivity. Qed.

Lemma Qpow2_add a b : 2 ^ (a + b) == 2 ^ a * 2 ^ b.
Proof. apply Qpower_plus. discriminate. Qed.

Lemma Qpow2_succ a : 2 ^ (a + 1) == 2 * 2 ^ a.
Proof. rewrite Qpow2_add. change (2 ^ 1) with 2. ring. Qed.

Lemma Qpow2_Z a : (0 <= a)%Z -> 2 ^ a == inject_Z (2 ^ a).
Proof. intros. symmetry. apply (Zpower_Qpower 2 a). assumption. Qed.

Lemma Qpow2_le a b : (a <= b)%Z -> 2 ^ a <= 2 ^ b.
Proof. intros. apply Qpower_le_compat_l; [assumption | discriminate]. Qed.

Lemma ilog2_spec q : 0 < q -> 2 ^ ilog2 q <= q /\ q < 2 ^ (ilog2 q + 1).
Proof.
  intros Hq. destruct q as [n d]. unfold ilog2. cbn [Qnum Qden].
  assert (0 < n)%Z as Hn by (unfold Qlt in Hq; simpl in Hq; lia).
  set (ln := Z.log2 n). set (ld := Z.log2 (Z.pos d)).
  destruct (Z.log2_spec n Hn) as [Hn1 Hn2]. fold ln in Hn1, Hn2.
  destruct (Z.log2_spec (Z.pos d) eq_refl) as [Hd1 Hd2]. fold ld in Hd1, Hd2.
  assert (0 <= ln)%Z as Hln by apply Z.log2_nonneg.
  assert (0 <= ld)%Z as Hld by apply Z.log2_nonneg.
  assert (n # d == inject_Z n / inject_Z (Z.pos d)) as Hnd by apply Qmake_Qdiv.
  assert (0 < inject_Z (Z.pos d)) as Hdpos by reflexivity.
  assert (inject_Z (2 ^ ln) <= inject_Z n) as Q1 by (rewrite <- Zle_Qle; lia).
  assert (inject_Z n < inject_Z (2 ^ (ln + 1))) as Q2
    by (rewrite <- Zlt_Qlt; unfold Z.succ in Hn2; lia).
  assert (inject_Z (2 ^ ld) <= inject_Z (Z.pos d)) as Q3 by (rewrite <- Zle_Qle; lia).
  assert (inject_Z (Z.pos d) < inject_Z (2 ^ (ld + 1))) as Q4
    by (rewrite <- Zlt_Qlt; unfold Z.succ in Hd2; lia).
  rewrite <- !Qpow2_Z in Q1, Q2, Q3, Q4 by lia.
  rewrite Qpow2_succ in Q2, Q4.
  set (c := (ln - ld)%Z).
  assert (2 ^ ln == 2 ^ c * 2 ^ ld) as Hc.
  { rewrite <- Qpow2_add. unfold c. replace (ln - ld + ld)%Z with ln by lia.
    reflexivity. }
  pose proof (Qpow2_pos c) as Pc. pose proof (Qpow2_pos ld) as Pld.
  pose proof (Qpow2_pos ln) as Pln.
  set (N := inject_Z n) in *. set (D := inject_Z (Z.pos d)) in *.
  assert (n # d == N / D) as Hq' by exact Hnd.
  assert ((n # d) * D == N) as Hmul by (rewrite Hq'; field; lra).
  set (x := n # d) in *.
  (* upper: x < 2 * 2^c ; lower: 2^c / 2 < x *)
  assert (x < 2 * 2 ^ c) as Hup.
  { apply Qnot_le_lt. intros Hle.
    assert (2 * 2 ^ c * 2 ^ ld <= x * D) by nra. nra. }
  assert (2 ^ c < 2 * x) as Hlo.
  { apply Qnot_le_lt. intros Hle.
    assert (2 * x * D <= 2 ^ c * (2 * 2 ^ ld)) by nra. nra. }
  destruct (Qle_bool (2 ^ c) x) eqn:E.
  - apply Qle_bool_iff in E. split; [assumption |]. rewrite Qpow2_succ. assumption.
  - assert (~ 2 ^ c <= x) as Hnle by (rewrite <- Qle_bool_iff; congruence).
    apply Qnot_le_lt in Hnle.
    replace (c - 1 + 1)%Z with c by lia.
    assert (2 ^ c == 2 * 2 ^ (c - 1)) as Hc1.
    { rewrite <- Qpow2_succ. replace (c - 1 + 1)%Z with c by lia. reflexivity. }
    split; [lra | assumption].
Qed.

Lemma rne_bound q : inject_Z (rne q) - (1 # 2) <= q /\ q <= inject_Z (rne q) + (1 # 2).
Proof.
  unfold rne. pose proof (Qfloor_le q) as H1. pose proof (Qlt_floor q) as H2.
  rewrite inject_Z_plus in H2. change (inject_Z 1) with 1 in H2.
  destruct (Qcompare (q - inject_Z (Qfloor q)) (1 # 2)) eqn:E.
  - apply Qeq_alt in E. destruct (Z.even (Qfloor q)).
    + lra.
    + rewrite inject_Z_plus. change (inject_Z 1) with 1. lra.
  - apply Qlt_alt in E. lra.
  - apply Qgt_alt in E. rewrite inject_Z_plus. change (inject_Z 1) with 1. lra.
Qed.

Lemma rne_comp q q' : q == q' -> rne q = rne q'.
Proof.
  intros H. unfold rne. rewrite (Qfloor_comp _ _ H).
  assert (q - inject_Z (Qfloor q') == q' - inject_Z (Qfloor q')) as H' by (rewrite H; reflexivity).
  rewrite (Qcompare_comp _ _ H' (1 # 2) (1 # 2) (Qeq_refl _)). reflexivity.
Qed.

Lemma rne_inject_Z k : rne (inject_Z k) = k.
Proof.
  unfold rne. rewrite Qfloor_Z.
  assert (inject_Z k - inject_Z k < 1 # 2) as H by lra.
  destruct (Qcompare (inject_Z k - inject_Z k) (1 # 2)) eqn:E.
  - apply Qeq_alt in E. lra.
  - reflexivity.
  - apply Qgt_alt in E. lra.
Qed.

Lemma rne_nonneg q : 0 <= q -> (0 <= rne q)%Z.
Proof.
  intros H. unfold rne.
  assert (0 <= Qfloor q)%Z as Hf.
  { change 0%Z with (Qfloor 0). apply Qfloor_resp_le. assumption. }
  destruct (Qcompare _ _); [destruct (Z.even _) | |]; lia.
Qed.

Lemma b64_pos_nonneg q : 0 < q -> 0 <= b64_pos q.
Proof.
  intros Hq. unfold b64_pos. cbv zeta.
  set (e := Z.max _ _). pose proof (Qpow2_pos e) as He.
  assert (0 <= q / 2 ^ e) as Hs.
  { apply Qle_shift_div_l; [assumption | lra]. }
  apply rne_nonneg in Hs. rewrite Zle_Qle in Hs.
  change (inject_Z 0) with 0 in Hs. nra.
Qed.

(** The relative error of a rounding in the normal range. *)
Lemma b64_pos_error q :
  2 ^ (-1022) <= q ->
  b64_pos q - q <= q * 2 ^ (-53) /\ q - b64_pos q <= q * 2 ^ (-53).
Proof.
  intros Hmin.
  assert (0 < q) as Hq by (pose proof (Qpow2_pos (-1022)); lra).
  destruct (ilog2_spec q Hq) as [Hlo Hhi].
  assert (-1022 <= ilog2 q)%Z as Hil.
  { destruct (Z_lt_le_dec (ilog2 q) (-1022)%Z) as [Hlt | ?]; [| assumption].
    pose proof (Qpow2_le (ilog2 q + 1) (-1022) ltac:(lia)). lra. }
  unfold b64_pos. cbv zeta. rewrite Z.max_l by lia.
  set (e := (ilog2 q - 52)%Z). pose proof (Qpow2_pos e) as He.
  destruct (rne_bound (q / 2 ^ e)) as [R1 R2].
  set (m := inject_Z (rne (q / 2 ^ e))) in *.
  assert (q / 2 ^ e * 2 ^ e == q) as Hs by (field; lra).
  set (s := q / 2 ^ e) in *.
  assert (2 ^ ilog2 q == 2 ^ e * 2 ^ 52) as Hpow.
  { rewrite <- Qpow2_add. unfold e. replace (ilog2 q - 52 + 52)%Z with (ilog2 q) by lia.
    reflexivity. }
  assert (2 ^ e == 2 ^ e * 2 ^ 53 * 2 ^ (-53)) as Hu.
  { assert (2 ^ 53 * 2 ^ (-53) == 1) as H1 by reflexivity.
    transitivity (2 ^ e * (2 ^ 53 * 2 ^ (-53))); [rewrite H1; ring | ring]. }
  assert (2 ^ 53 == 2 * 2 ^ 52) as H53 by reflexivity.
  pose proof (Qpow2_pos (-53)) as Pu.
  set (u := 2 ^ (-53)) in *. set (P := 2 ^ e) in *.
  set (T := 2 ^ 52) in *.
  (* |m - s| <= 1/2, so |m P - q| <= P / 2 = P * T * u <= q * u *)
  assert (P * T <= q) as HPT by lra.
  assert (P == P * (2 * T) * u) as HP by (rewrite <- H53; exact Hu).
  split.
  - assert (m * P - q == (m - s) * P) as -> by (rewrite <- Hs; ring).
    assert ((m - s) * P <= (1 # 2) * P) by nra.
    assert ((1 # 2) * P == P * T * u) as Hhalf by (rewrite HP at 1; ring).
    assert (P * T * u <= q * u) by nra. lra.
  - assert (q - m * P == (s - m) * P) as -> by (rewrite <- Hs; ring).
    assert ((s - m) * P <= (1 # 2) * P) by nra.
    assert ((1 # 2) * P == P * T * u) as Hhalf by (rewrite HP at 1; ring).
    assert (P * T * u <= q * u) by nra. lra.
Qed.

Lemma b64_comp q q' : q == q' -> b64 q = b64 q'.
Proof. intros H. unfold b64. rewrite (Qred_complete _ _ H). reflexivity. Qed.

Lemma Qnum_pos_iff q : 0 < q <-> (0 < Qnum q)%Z.
Proof. unfold Qlt. simpl. rewrite Z.mul_1_r. reflexivity. Qed.

Lemma b64_pos_eq q : 0 < q -> b64 q == b64_pos (Qred q).
Proof.
  intros Hq. unfold b64. cbv zeta.
  assert (0 < Qred q) as Hr by (rewrite Qred_correct; assumption).
  apply Qnum_pos_iff in Hr. destruct (Qnum (Qred q)); try lia.
  apply Qred_correct.
Qed.

Lemma b64_error q :
  2 ^ (-1022) <= q ->
  b64 q - q <= q * 2 ^ (-53) /\ q - b64 q <= q * 2 ^ (-53).
Proof.
  intros Hmin.
  assert (0 < q) as Hq by (pose proof (Qpow2_pos (-1022)); lra).
  rewrite (b64_pos_eq q Hq).
  assert (2 ^ (-1022) <= Qred q) as Hmin' by (rewrite Qred_correct; assumption).
  destruct (b64_pos_error _ Hmin') as [H1 H2].
  rewrite (Qred_correct q) in H1 at 2 3. rewrite (Qred_correct q) in H2 at 1 3.
  split; assumption.
Qed.

Lemma b64_nonneg q : 0 <= q -> 0 <= b64 q.
Proof.
  intros Hq. unfold b64. cbv zeta.
  destruct (Qnum (Qred q)) eqn:E.
  - lra.
  - rewrite Qred_correct. apply b64_pos_nonneg. apply Qnum_pos_iff. rewrite E. reflexivity.
  - exfalso. assert (0 <= Qred q) as Hr by (rewrite Qred_correct; assumption).
    unfold Qle in Hr. simpl in Hr. lia.
Qed.

Lemma b64_nonpos q : q <= 0 -> b64 q <= 0.
Proof.
  intros Hq. unfold b64. cbv zeta.
  destruct (Qnum (Qred q)) eqn:E.
  - lra.
  - exfalso. assert (Qred q <= 0) as Hr by (rewrite Qred_correct; assumption).
    unfold Qle in Hr. simpl in Hr. lia.
  - rewrite Qred_correct.
    assert (0 <= b64_pos (- Qred q)).
    { apply b64_pos_nonneg.
      assert (Qred q < 0) by (unfold Qlt; simpl; lia). lra. }
    lra.
Qed.

Lemma Qfloor_unique (x : Q) (k : Z) :
  inject_Z k <= x -> x < inject_Z (k + 1) -> Qfloor x = k.
Proof.
  intros H1 H2.
  pose proof (Qfloor_le x) as F1. pose proof (Qlt_floor x) as F2.
  assert (inject_Z k < inject_Z (Qfloor x + 1)) as A by lra.
  assert (inject_Z (Qfloor x) < inject_Z (k + 1)) as B by lra.
  rewrite <- Zlt_Qlt in A, B. lia.
Qed.

(** An integer of at most 53 bits is a double. *)
Lemma b64_pos_int (z : Z) :
  (0 < z < 2 ^ 53)%Z -> b64_pos (inject_Z z) == inject_Z z.
Proof.
  intros Hz.
  assert (0 < inject_Z z) as Hq by (change 0 with (inject_Z 0); rewrite <- Zlt_Qlt; lia).
  destruct (ilog2_spec _ Hq) as [Hlo Hhi].
  set (il := ilog2 (inject_Z z)) in *.
  assert (il <= 52)%Z as Hmax.
  { destruct (Z_lt_le_dec 52%Z il) as [Hlt | ?]; [| lia].
    pose proof (Qpow2_le 53 il ltac:(lia)) as Hp.
    rewrite (Qpow2_Z 53) in Hp by lia.
    assert (inject_Z (2 ^ 53) <= inject_Z z) as Hc by lra.
    rewrite <- Zle_Qle in Hc. lia. }
  assert (0 <= il)%Z as Hmin.
  { destruct (Z_lt_le_dec il 0%Z) as [Hlt | ?]; [| lia].
    pose proof (Qpow2_le (il + 1) 0 ltac:(lia)) as Hp.
    change (2 ^ 0) with (inject_Z 1) in Hp.
    assert (inject_Z z < inject_Z 1) as Hc by lra.
    rewrite <- Zlt_Qlt in Hc. lia. }
  unfold b64_pos. cbv zeta. fold il. rewrite Z.max_l by lia.
  set (e := (il - 52)%Z). pose proof (Qpow2_pos e) as He.
  assert (2 ^ e * 2 ^ (- e) == 1) as Hinv.
  { rewrite <- Qpow2_add. replace (e + - e)%Z with 0%Z by lia. reflexivity. }
  assert (inject_Z z / 2 ^ e == inject_Z (z * 2 ^ (- e))) as Hint.
  { rewrite inject_Z_mult, <- (Qpow2_Z (- e)) by (unfold e; lia).
    pose proof (Qpow2_pos (- e)).
    apply (Qmult_inj_r _ _ (2 ^ e)); [lra |].
    transitivity (inject_Z z); [field; lra |].
    transitivity (inject_Z z * (2 ^ e * 2 ^ (- e))); [rewrite Hinv; ring | ring]. }
  rewrite (rne_comp _ _ Hint), rne_inject_Z.
  rewrite inject_Z_mult, <- (Qpow2_Z (- e)) by (unfold e; lia).
  transitivity (inject_Z z * (2 ^ e * 2 ^ (- e))); [ring | rewrite Hinv; ring].
Qed.

Lemma b64_int (z : Z) :
  (- 2 ^ 53 <= z <= 2 ^ 53)%Z -> b64 (inject_Z z) == inject_Z z.
Proof.
  intros Hz.
  destruct (Z.eq_dec z (2 ^ 53)%Z) as [-> | H1]; [vm_compute; reflexivity |].
  destruct (Z.eq_dec z (- 2 ^ 53)%Z) as [-> | H2]; [vm_compute; reflexivity |].
  assert (Qred (inject_Z z) == inject_Z z) as Hr by apply Qred_correct.
  unfold b64. cbv zeta. destruct (Qnum (Qred (inject_Z z))) eqn:E.
  - assert (Qred (inject_Z z) == 0) as H0 by (unfold Qeq; rewrite E; reflexivity).
    rewrite <- Hr, H0. reflexivity.
  - assert (0 < Qred (inject_Z z)) as Hp by (apply Qnum_pos_iff; rewrite E; reflexivity).
    rewrite Hr in Hp. change 0 with (inject_Z 0) in Hp. rewrite <- Zlt_Qlt in Hp.
    rewrite Qred_correct.
    assert (b64_pos (Qred (inject_Z z)) = b64_pos (inject_Z z)) as ->.
    { f_equal. change (inject_Z z) with (z # 1).
      apply Qcanon.Qred_identity. simpl. apply Z.gcd_1_r. }
    apply b64_pos_int. lia.
  - assert (Qred (inject_Z z) < 0) as Hp by (unfold Qlt; rewrite E; reflexivity).
    rewrite Hr in Hp. change 0 with (inject_Z 0) in Hp. rewrite <- Zlt_Qlt in Hp.
    rewrite Qred_correct.
    assert (Qred (inject_Z z) = inject_Z z) as ->.
    { change (inject_Z z) with (z # 1). apply Qcanon.Qred_identity. simpl. apply Z.gcd_1_r. }
    assert (- inject_Z z = inject_Z (- z)) as -> by reflexivity.
    rewrite b64_pos_int by lia. rewrite inject_Z_opp. ring.
Qed.

(** The nearest double of an integer is an integer. *)
Lemma b64_pos_is_int (z : Z) :
  (0 < z)%Z -> exists k : Z, b64_pos (inject_Z z) == inject_Z k.
Proof.
  intros Hz.
  destruct (Z_lt_le_dec z (2 ^ 53)%Z) as [Hlt | Hge].
  - exists z. apply b64_pos_int. lia.
  - assert (0 < inject_Z z) as Hq
      by (change 0 with (inject_Z 0); rewrite <- Zlt_Qlt; lia).
    destruct (ilog2_spec _ Hq) as [_ Hhi].
    set (il := ilog2 (inject_Z z)) in *.
    assert (53 <= il)%Z as Hil.
    { destruct (Z_lt_le_dec il 53%Z) as [Hlt | ?]; [| lia].
      pose proof (Qpow2_le (il + 1) 53 ltac:(lia)) as Hp.
      rewrite (Qpow2_Z 53) in Hp by lia.
      assert (inject_Z z < inject_Z (2 ^ 53)) as Hc by lra.
      rewrite <- Zlt_Qlt in Hc. lia. }
    unfold b64_pos. cbv zeta. fold il. rewrite Z.max_l by lia.
    exists (rne (inject_Z z / 2 ^ (il - 52)) * 2 ^ (il - 52))%Z.
    rewrite inject_Z_mult, <- (Qpow2_Z (il - 52)) by lia. reflexivity.
Qed.

Lemma b64_is_int (z : Z) : exists k : Z, b64 (inject_Z z) == inject_Z k.
Proof.
  assert (Qred (inject_Z z) = inject_Z z) as Hr.
  { change (inject_Z z) with (z # 1). apply Qcanon.Qred_identity. simpl.
    apply Z.gcd_1_r. }
  unfold b64. cbv zeta. rewrite Hr. destruct z as [| p | p]; simpl Qnum.
  - by exists 0%Z.
  - destruct (b64_pos_is_int (Z.pos p) eq_refl) as [k Hk].
    exists k. by rewrite Qred_correct.
  - destruct (b64_pos_is_int (Z.pos p) eq_refl) as [k Hk].
    exists (- k)%Z. rewrite Qred_correct.
    change (- inject_Z (Z.neg p)) with (inject_Z (Z.pos p)).
    rewrite Hk, inject_Z_opp. reflexivity.
Qed.

(** [Math.floor(s / d)] is the integer quotient for a dividend below 2^53. *)
Lemma b64_floor_div (s d : Z) :
  (0 <= s < 2 ^ 53)%Z -> (0 < d <= 2 ^ 53)%Z ->
  Qfloor (b64 (inject_Z s / inject_Z d)) = (s / d)%Z.
Proof.
  intros Hs Hd.
  pose proof (Z.div_mod s d ltac:(lia)) as Hdm.
  pose proof (Z.mod_pos_bound s d ltac:(lia)) as Hr.
  assert (0 <= s / d)%Z as Hk by (apply Z.div_pos; lia).
  assert (s / d <= s)%Z as Hks by (apply Z.div_le_upper_bound; nia).
  set (k := (s / d)%Z) in *. set (r := (s mod d)%Z) in *.
  assert (0 < inject_Z d) as HD
    by (change 0 with (inject_Z 0); rewrite <- Zlt_Qlt; lia).
  assert (inject_Z s == inject_Z k * inject_Z d + inject_Z r) as HS.
  { rewrite <- inject_Z_mult, <- inject_Z_plus. rewrite Hdm at 1.
    replace (d * k)%Z with (k * d)%Z by ring. reflexivity. }
  destruct (Z.eq_dec r 0%Z) as [Hr0 | Hr0].
  - assert (inject_Z s / inject_Z d == inject_Z k) as Hq.
    { rewrite HS, Hr0. change (inject_Z 0) with 0. field. lra. }
    rewrite (b64_comp _ _ Hq). rewrite (Qfloor_comp _ _ (b64_int k ltac:(lia))).
    apply Qfloor_Z.
  - set (q := inject_Z s / inject_Z d).
    assert (q * inject_Z d == inject_Z s) as Hq by (unfold q; field; lra).
    assert (1 <= inject_Z r) as R1
      by (change 1 with (inject_Z 1); rewrite <- Zle_Qle; lia).
    assert (inject_Z r + 1 <= inject_Z d) as R2.
    { change 1 with (inject_Z 1). rewrite <- inject_Z_plus, <- Zle_Qle. lia. }
    assert (0 <= inject_Z k) as K0
      by (change 0 with (inject_Z 0); rewrite <- Zle_Qle; lia).
    assert (inject_Z d <= 2 ^ 53) as D53
      by (rewrite (Qpow2_Z 53) by lia; rewrite <- Zle_Qle; lia).
    assert (inject_Z s < 2 ^ 53) as S53
      by (rewrite (Qpow2_Z 53) by lia; rewrite <- Zlt_Qlt; lia).
    assert (1 <= inject_Z s) as S1
      by (change 1 with (inject_Z 1); rewrite <- Zle_Qle; lia).
    assert (2 ^ 53 * 2 ^ (-53) == 1) as Hu by reflexivity.
    pose proof (Qpow2_pos (-53)) as Pu. pose proof (Qpow2_pos 53) as P53.
    set (u := 2 ^ (-53)) in *. set (T := 2 ^ 53) in *.
    set (Sq := inject_Z s) in *. set (D := inject_Z d) in *.
    set (K := inject_Z k) in *. set (R := inject_Z r) in *.
    assert (q * D * u < 1) as Herr by nra.
    assert (u <= q) as Hqu.
    { assert (u * D <= q * D) by nra.
      apply Qnot_lt_le. intros Hlt. nra. }
    assert (2 ^ (-1022) <= q) as Hmin.
    { pose proof (Qpow2_le (-1022) (-53) ltac:(lia)). fold u in H. lra. }
    destruct (b64_error q Hmin) as [E1 E2]. fold u in E1, E2.
    set (x := b64 q) in *.
    apply Qfloor_unique.
    + (* K <= x : x >= q - q u, (q - q u) D = K D + R - q D u > K D *)
      apply Qnot_lt_le. intros Hlt.
      assert (x * D < K * D) by (apply Qmult_lt_compat_r; assumption).
      assert ((q - x) * D <= q * u * D) by (apply Qmult_le_compat_r; lra).
      nra.
    + rewrite inject_Z_plus. change (inject_Z 1) with 1. fold K.
      apply Qnot_le_lt. intros Hle.
      assert ((K + 1) * D <= x * D) by (apply Qmult_le_compat_r; lra).
      assert ((x - q) * D <= q * u * D) by (apply Qmult_le_compat_r; lra).
      nra.
Qed.

(** [(a / b) * 100] for counts: the two roundings stay within a relative
    error of [2^-53] each, so the value is within [1 / 2b] of the exact
    percentage once [a < 2^37]. *)
Lemma b64_percent (a b : Z) :
  (0 < a < 2 ^ 37)%Z -> (0 < b <= 2 ^ 53)%Z ->
  let r1 := b64 (inject_Z a / inject_Z b) in
  let r2 := b64 (r1 * 100) in
  let n := Qfloor (r2 * 100 + (1 # 2)) in
  (0 < r1 /\ r1 < 2 ^ 40) /\ (0 < r2 /\ r2 < 2 ^ 50)
  /\ (2 * b * n - b <= 20000 * a <= 2 * b * n + b)%Z.
Proof.
  intros Ha Hb r1 r2 n.
  assert (1 <= inject_Z a) as A1
    by (change 1 with (inject_Z 1); rewrite <- Zle_Qle; lia).
  assert (inject_Z a < 137438953472) as A2
    by (change 137438953472 with (inject_Z (2 ^ 37)); rewrite <- Zlt_Qlt; lia).
  assert (1 <= inject_Z b) as B1
    by (change 1 with (inject_Z 1); rewrite <- Zle_Qle; lia).
  assert (inject_Z b <= 9007199254740992) as B2
    by (change 9007199254740992 with (inject_Z (2 ^ 53)); rewrite <- Zle_Qle; lia).
  set (A := inject_Z a) in *. set (B := inject_Z b) in *.
  set (q := A / B) in *.
  assert (q * B == A) as Hq by (unfold q; field; lra).
  assert (1 # 9007199254740992 <= q) as Hq1.
  { apply Qnot_lt_le. intros Hlt.
    assert (q * B < (1 # 9007199254740992) * B)
      by (apply Qmult_lt_compat_r; lra). lra. }
  assert (q <= A) as Hq2.
  { apply Qnot_lt_le. intros Hlt.
    assert (0 < q) by lra.
    assert (q * 1 <= q * B) by (apply Qmult_le_l; lra). lra. }
  assert (2 ^ (-1022) <= q) as Hmin1.
  { assert (2 ^ (-1022) <= 1 # 9007199254740992) by
      (apply (Qpow2_le (-1022) (-53)); lia). lra. }
  destruct (b64_error q Hmin1) as [E1 E2]. fold r1 in E1, E2.
  change (2 ^ (-53)) with (1 # 9007199254740992) in E1, E2.
  assert (2 ^ (-1022) <= r1 * 100) as Hmin2.
  { assert (2 ^ (-1022) <= 1 # 9007199254740992) by
      (apply (Qpow2_le (-1022) (-53)); lia). lra. }
  destruct (b64_error _ Hmin2) as [E3 E4]. fold r2 in E3, E4.
  change (2 ^ (-53)) with (1 # 9007199254740992) in E3, E4.
  change (2 ^ 40) with 1099511627776. change (2 ^ 50) with 1125899906842624.
  split; [lra |]. split; [lra |].
  pose proof (Qfloor_le (r2 * 100 + (1 # 2))) as F1.
  pose proof (Qlt_floor (r2 * 100 + (1 # 2))) as F2.
  fold n in F1, F2. rewrite inject_Z_plus in F2. change (inject_Z 1) with 1 in F2.
  set (N := inject_Z n) in *.
  assert ((r1 - q) * B <= q * (1 # 9007199254740992) * B) as G1
    by (apply Qmult_le_compat_r; lra).
  assert ((q - r1) * B <= q * (1 # 9007199254740992) * B) as G2
    by (apply Qmult_le_compat_r; lra).
  assert ((r2 - r1 * 100) * B <= r1 * 100 * (1 # 9007199254740992) * B) as G3
    by (apply Qmult_le_compat_r; lra).
  assert ((r1 * 100 - r2) * B <= r1 * 100 * (1 # 9007199254740992) * B) as G4
    by (apply Qmult_le_compat_r; lra).
  assert (N * B <= (r2 * 100 + (1 # 2)) * B) as G5
    by (apply Qmult_le_compat_r; lra).
  assert ((r2 * 100 + (1 # 2)) * B < (N + 1) * B) as G6
    by (apply Qmult_lt_compat_r; lra).
  assert (2 * N * B < 20000 * A + B + 1) as U1 by lra.
  assert (20000 * A - 1 < 2 * N * B + B) as U2 by lra.
  assert (inject_Z (2 * n * b) < inject_Z (20000 * a + b + 1)) as V1.
  { rewrite !inject_Z_plus, !inject_Z_mult. exact U1. }
  assert (inject_Z (20000 * a - 1) < inject_Z (2 * n * b + b)) as V2.
  { unfold Z.sub. rewrite !inject_Z_plus, !inject_Z_mult. exact U2. }
  rewrite <- Zlt_Qlt in V1, V2. lia.
Qed.

End binary64.

(** * Percentages *)

Lemma Qis_zero_inject_Z z : Qis_zero (inject_Z z) = (z =? 0).
Proof. reflexivity. Qed.

Lemma Qis_neg_inject_Z z : Qis_neg (inject_Z z) = (z <? 0).
Proof. reflexivity. Qed.

Section percentages.
Local Open Scope Q_scope.

Lemma js_round_comp (q q' : Q) : q == q' -> js_round q = js_round q'.
Proof. intros H. unfold js_round. by rewrite (b64_comp _ _ H). Qed.

Lemma js_round_finite (q : Q) :
  0 <= b64 q -> b64 q < 2 ^ 1024 -> js_round q = JFin (b64 q).
Proof.
  intros H0 H1. unfold js_round. cbv zeta.
  destruct (Qle_bool (2 ^ 1024) (Qabs (b64 q))) eqn:E; [| done].
  apply Qle_bool_iff in E. rewrite Qabs_pos in E by assumption. lra.
Qed.

Lemma Qis_neg_nonneg (q : Q) : 0 <= q -> Qis_neg q = false.
Proof.
  unfold Qis_neg, Qle. cbn [Qnum Qden]. intros H. apply Z.ltb_ge. lia.
Qed.

(** The rendering of a quotient of counts: the number of hundredths is an
    integer nearest to the exact percentage. *)
Lemma toFixed2_percent (a b : Z) :
  (0 <= a < 2 ^ 37)%Z -> (0 < b <= 2 ^ 53)%Z ->
  exists n : Z,
    toFixed2 (js_times100 (js_div (inject_Z a) (inject_Z b))) = hundredths n
    /\ (2 * b * n - b <= 20000 * a <= 2 * b * n + b)%Z.
Proof.
  intros Ha Hb. unfold js_div. rewrite Qis_zero_inject_Z.
  destruct (Z.eqb_spec b 0) as [-> | Hb0]; [lia |].
  assert (0 < inject_Z b) as HB
    by (change 0 with (inject_Z 0); rewrite <- Zlt_Qlt; lia).
  destruct (Z.eq_dec a 0%Z) as [-> | Hne].
  - exists 0%Z. split; [| lia].
    rewrite (js_round_comp _ 0) by (field; lra).
    vm_compute. reflexivity.
  - destruct (b64_percent a b) as ((P1 & P2) & (P3 & P4) & Hn); [lia | lia |].
    cbv zeta in Hn.
    pose proof (Qpow2_le 40 1024 ltac:(lia)) as H40.
    pose proof (Qpow2_le 50 1024 ltac:(lia)) as H50.
    eexists. split; [| exact Hn].
    rewrite js_round_finite by lra. cbn [js_times100].
    rewrite js_round_finite by lra.
    unfold toFixed2. rewrite Qis_neg_nonneg by lra. reflexivity.
Qed.

(** All of them and none of them: the quotients [1] and [0] are exact. *)
Lemma toFixed2_all (n : Z) :
  (0 < n)%Z -> toFixed2 (js_times100 (js_div (inject_Z n) (inject_Z n))) = "100.00".
Proof.
  intros Hn. unfold js_div. rewrite Qis_zero_inject_Z.
  destruct (Z.eqb_spec n 0) as [-> | _]; [lia |].
  assert (0 < inject_Z n) as HN
    by (change 0 with (inject_Z 0); rewrite <- Zlt_Qlt; lia).
  rewrite (js_round_comp _ 1) by (field; lra).
  vm_compute. reflexivity.
Qed.

Lemma toFixed2_none (n : Z) :
  (0 < n)%Z -> toFixed2 (js_times100 (js_div (inject_Z 0) (inject_Z n))) = "0.00".
Proof.
  intros Hn. unfold js_div. rewrite Qis_zero_inject_Z.
  destruct (Z.eqb_spec n 0) as [-> | _]; [lia |].
  assert (0 < inject_Z n) as HN
    by (change 0 with (inject_Z 0); rewrite <- Zlt_Qlt; lia).
  rewrite (js_round_comp _ 0) by (field; lra).
  vm_compute. reflexivity.
Qed.

End percentages.

Lemma toFixed2_zero_by_zero :
  toFixed2 (js_times100 (js_div (inject_Z 0) (inject_Z 0))) = "NaN".
Proof. reflexivity. Qed.

Lemma toFixed2_positive_by_zero (a : Z) :
  0 < a -> toFixed2 (js_times100 (js_div (inject_Z a) (inject_Z 0))) = "Infinity".
Proof.
  intros Ha. unfold js_div. rewrite !Qis_zero_inject_Z, Qis_neg_inject_Z.
  destruct (Z.eqb_spec a 0) as [-> | _]; [lia |].
  destruct (Z.ltb_spec a 0); [lia | reflexivity].
Qed.

(** A number of hundredths nearest to the exact percentage is the one that
    rounding half up gives, unless the percentage is half-way between two
    hundredths. *)
Lemma nearest_hundredth (a b n : Z) :
  0 < b ->
  2 * b * n - b <= 20000 * a <= 2 * b * n + b ->
  (20000 * a) mod (2 * b) <> b ->
  hundredths n = percent_two_decimals a b.
Proof.
  intros Hb Hn Htie. unfold percent_two_decimals. f_equal.
  apply (Z.div_unique_pos _ _ _ (20000 * a + b - 2 * b * n)); [| lia].
  split; [lia |].
  destruct (Z.eq_dec (20000 * a) (2 * b * n + b)) as [Heq | Hne]; [| lia].
  exfalso. apply Htie. symmetry.
  apply (Z.mod_unique_pos _ _ n); lia.
Qed.

(** * [calculateVarianceStats] *)

(** A sum whose exact value is at most [2^53] in magnitude is exact. *)
Lemma js_add_exact (a b : Z) : exact_int (a + b) -> js_add a b = a + b.
Proof.
  intros H. unfold js_add.
  rewrite (Qfloor_comp _ _ (b64_int _ H)). apply Qfloor_Z.
Qed.

Lemma fold_js_add_exact (l : list Z) (acc : Z) :
  Forall exact_int (running_totals acc l) ->
  fold_left js_add l acc = acc + sum_Z l.
Proof.
  revert acc. induction l as [| x l IH]; intros acc H; simpl.
  - unfold sum_Z. simpl. lia.
  - simpl in H. apply Forall_cons in H as [Hx Hl].
    rewrite (js_add_exact _ _ Hx), (IH _ Hl). unfold sum_Z. simpl. lia.
Qed.

Lemma running_totals_app (l1 l2 : list Z) (acc : Z) :
  running_totals acc (l1 ++ l2)
  = running_totals acc l1 ++ running_totals (acc + sum_Z l1) l2.
Proof.
  revert acc. induction l1 as [| x l1 IH]; intros acc; simpl.
  - unfold sum_Z. simpl. by rewrite Z.add_0_r.
  - rewrite IH. do 3 f_equal. unfold sum_Z. simpl. lia.
Qed.

Lemma fold_stats_callback actions acc :
  let stats := fold_left stats_callback actions acc in
  acc_totalActions stats = acc_totalActions acc
  /\ acc_totalVariance stats
     = fold_left js_add (variance <$> actions) (acc_totalVariance acc)
  /\ acc_positive stats
     = acc_positive acc ++ filter (fun a => 0 < variance a) actions
  /\ acc_negative stats
     = acc_negative acc ++ filter (fun a => variance a < 0) actions
  /\ acc_zero stats
     = acc_zero acc ++ filter (fun a => variance a = 0) actions.
Proof.
  cbv zeta. revert acc.
  induction actions as [| a actions IH]; intros acc.
  - simpl. rewrite !app_nil_r. repeat split.
  - cbn [fold_left]. destruct (IH (stats_callback acc a))
      as (Hn & Hv & Hp & Hm & Hz).
    rewrite Hn, Hv, Hp, Hm, Hz. clear IH Hn Hv Hp Hm Hz.
    rewrite !filter_cons, fmap_cons. unfold stats_callback. cbn [fold_left].
    destruct (Z.gtb_spec (variance a) 0); [| destruct (Z.ltb_spec (variance a) 0)];
      simpl; repeat case_decide; try lia;
      rewrite <- ?app_assoc; repeat split; done.
Qed.

Lemma length_filter_sign (actions : list CountAction) :
  (length (filter (fun a => (0 < variance a)%Z) actions)
   + length (filter (fun a => (variance a < 0)%Z) actions)
   + length (filter (fun a => variance a = 0%Z) actions)
   = length actions)%nat.
Proof.
  induction actions as [| a actions IH]; [done |].
  rewrite !filter_cons. repeat case_decide; simpl; lia.
Qed.

(** What [calculateVarianceStats] returns, field by field. *)
Lemma calculateVarianceStats_fields (actions : list CountAction) :
  totalActions (calculateVarianceStats actions) = length actions
  /\ totalVariance (calculateVarianceStats actions)
     = fold_left js_add (variance <$> actions) 0
  /\ positiveVariances (calculateVarianceStats actions)
     = filter (fun a => 0 < variance a) actions
  /\ negativeVariances (calculateVarianceStats actions)
     = filter (fun a => variance a < 0) actions
  /\ zeroVariances (calculateVarianceStats actions)
     = filter (fun a => variance a = 0) actions
  /\ varianceCount (calculateVarianceStats actions)
     = (length (filter (fun a => (0 < variance a)%Z) actions)
        + length (filter (fun a => (variance a < 0)%Z) actions))%nat.
Proof.
  unfold calculateVarianceStats. cbv zeta. simpl.
  destruct (fold_stats_callback actions
    {| acc_totalActions := length actions; acc_totalVariance := 0;
       acc_positive := []; acc_negative := []; acc_zero := [] |})
    as (Hn & Hv & Hp & Hm & Hz).
  simpl in *. by rewrite Hn, Hv, Hp, Hm, Hz.
Qed.

(** The total of variances whose running totals a double holds exactly. *)
Lemma totalVariance_exact (actions : list CountAction) :
  Forall exact_int (partial_sums (variance <$> actions)) ->
  totalVariance (calculateVarianceStats actions) = sum_Z (variance <$> actions).
Proof.
  intros H. destruct (calculateVarianceStats_fields actions) as (_ & -> & _).
  by rewrite (fold_js_add_exact _ _ H).
Qed.

(** C7, as the code has it: the three buckets split the actions by the sign
    of their variance, [varianceCount] counts the positive and the negative
    ones, and [totalVariance] is the signed sum of the variances as long as
    the running totals stay within [2^53], where the additions of doubles
    are exact. *)
Theorem calculateVarianceStats_buckets (actions : list CountAction) :
  let stats := calculateVarianceStats actions in
  (length (positiveVariances stats) + length (negativeVariances stats)
   + length (zeroVariances stats) = length actions)%nat
  /\ (Forall exact_int (partial_sums (variance <$> actions)) ->
      totalVariance stats = sum_Z (variance <$> actions))
  /\ varianceCount stats
     = (length (positiveVariances stats) + length (negativeVariances stats))%nat
  /\ totalActions stats = length actions
  /\ positiveVariances stats = filter (fun a => 0 < variance a) actions
  /\ negativeVariances stats = filter (fun a => variance a < 0) actions
  /\ zeroVariances stats = filter (fun a => variance a = 0) actions.
Proof.
  cbv zeta.
  destruct (calculateVarianceStats_fields actions)
    as (Hn & _ & Hp & Hm & Hz & Hc).
  rewrite Hn, Hp, Hm, Hz, Hc.
  pose proof (length_filter_sign actions).
  repeat split; try done. apply totalVariance_exact.
Qed.

Lemma calculateVarianceStats_buckets_witness :
  totalVariance
    (calculateVarianceStats
       [action_with 10 false; action_with (-5) false; action_with 0 false])
  = sum_Z [10; -5; 0].
Proof.
  apply (proj1 (proj2 (calculateVarianceStats_buckets
           [action_with 10 false; action_with (-5) false; action_with 0 false]))).
  repeat constructor; unfold exact_int; simpl; lia.
Defined.

(** C7 fails as stated for totals beyond [2^53]: the sum of [2^53] and [1]
    is rounded to [2^53], and the total of the three variances comes out as
    [0], not as their sum [1]. *)
Lemma calculateVarianceStats_buckets_counterexample :
  let actions :=
    [action_with (2 ^ 53) false; action_with 1 false;
     action_with (- 2 ^ 53) false] in
  sum_Z (variance <$> actions) = 1
  /\ totalVariance (calculateVarianceStats actions) = 0.
Proof. vm_compute. split; reflexivity. Qed.

(** C2, as the code has it: on an empty list nothing fails and nothing guards
    the division; [accuracyPercentage] is the text [NaN], the rendering of
    [0 / 0]. On any other list it is a percentage with two decimals, a
    hundredth nearest to the exact share of the actions without variance:
    the one that rounding half up gives, unless the exact percentage is
    half-way between two hundredths. An array has fewer than [2^32]
    elements. *)
Theorem calculateVarianceStats_accuracy (actions : list CountAction) :
  Z.of_nat (length actions) < 2 ^ 32 ->
  let z := Z.of_nat (length (filter (fun a => variance a = 0) actions)) in
  let t := Z.of_nat (length actions) in
  match actions with
  | [] => accuracyPercentage (calculateVarianceStats actions) = "NaN"
  | _ :: _ =>
      exists n,
        accuracyPercentage (calculateVarianceStats actions) = hundredths n
        /\ 0 <= n <= 10000
        /\ 2 * t * n - t <= 20000 * z <= 2 * t * n + t
        /\ ((20000 * z) mod (2 * t) <> t ->
            accuracyPercentage (calculateVarianceStats actions)
            = percent_two_decimals z t)
  end.
Proof.
  intros Hlen z t.
  destruct (calculateVarianceStats_fields actions)
    as (Hn & _ & _ & _ & Hz & _).
  change (accuracyPercentage (calculateVarianceStats actions))
    with (toFixed2 (js_times100
            (js_div (Qnat (length (zeroVariances (calculateVarianceStats actions))))
                    (Qnat (totalActions (calculateVarianceStats actions)))))).
  rewrite Hn, Hz. fold z.
  destruct actions as [| a actions]; [reflexivity |].
  assert (0 < t) as Ht by (subst t; simpl; lia).
  assert (0 <= z <= t) as Hzt.
  { subst z t. pose proof (length_filter_sign (a :: actions)). lia. }
  unfold Qnat. fold z t.
  destruct (toFixed2_percent z t) as (n & Heq & Hnear); [lia | lia |].
  exists n. split; [exact Heq |]. split; [nia |]. split; [exact Hnear |].
  intros Htie. rewrite Heq. by apply nearest_hundredth.
Qed.

Lemma calculateVarianceStats_accuracy_witness :
  exists n,
    accuracyPercentage
      (calculateVarianceStats
         [action_with 10 false; action_with 0 false; action_with 0 false])
    = hundredths n
    /\ 0 <= n <= 10000
    /\ 2 * 3 * n - 3 <= 20000 * 2 <= 2 * 3 * n + 3.
Proof.
  destruct (calculateVarianceStats_accuracy
              [action_with 10 false; action_with 0 false; action_with 0 false])
    as (n & H1 & H2 & H3 & _); [simpl; lia |].
  exists n. split; [exact H1 |]. split; [exact H2 |]. exact H3.
Defined.

(** C2 fails as stated: on the empty list the function returns normally, and
    [accuracyPercentage] is what the division of 0 by 0 renders as. *)
Lemma calculateVarianceStats_empty_counterexample :
  js_div (Qnat (length (zeroVariances (calculateVarianceStats []))))
         (Qnat (totalActions (calculateVarianceStats []))) = JNaN
  /\ calculateVarianceStats []
     = {| totalActions := 0; totalVariance := 0; positiveVariances := [];
          negativeVariances := []; zeroVariances := []; varianceCount := 0;
          accuracyPercentage := toFixed2 (js_times100 JNaN) |}.
Proof. split; reflexivity. Qed.

(** * [calculateSessionMetrics] and [formatDuration] *)

(** C8, as the code has it: with a positive [totalPallets] the completion is
    a percentage with two decimals, a hundredth nearest to the exact share of
    counted pallets (the one that rounding half up gives, unless the exact
    percentage is half-way between two hundredths); with [totalPallets = 0]
    there is no guard, and the division renders as [NaN] (no action) or
    [Infinity] (some action). The number of pallets is an integer a double
    holds, and an array has fewer than [2^32] elements. *)
Theorem completionPercentage_spec (now : Z) (session : CountSession)
    (actions : list CountAction) :
  0 <= totalPallets session <= 2 ^ 53 ->
  Z.of_nat (length actions) < 2 ^ 32 ->
  let a := Z.of_nat (length actions) in
  let b := totalPallets session in
  let text := completionPercentage (calculateSessionMetrics now session actions) in
  if b =? 0
  then text = match actions with [] => "NaN" | _ :: _ => "Infinity" end
  else exists n,
         text = hundredths n
         /\ 0 <= n
         /\ 2 * b * n - b <= 20000 * a <= 2 * b * n + b
         /\ ((20000 * a) mod (2 * b) <> b -> text = percent_two_decimals a b).
Proof.
  intros Hp Hlen a b text. subst text.
  unfold calculateSessionMetrics. cbv zeta. cbn [completionPercentage].
  unfold Qnat. fold a b.
  destruct (Z.eqb_spec b 0) as [Hb | Hne].
  - rewrite Hb. destruct actions as [| x actions]; [reflexivity |].
    apply toFixed2_positive_by_zero. subst a. simpl. lia.
  - destruct (toFixed2_percent a b) as (n & Heq & Hnear);
      [subst a; lia | subst b; lia |].
    exists n. split; [exact Heq |]. split; [subst a b; nia |].
    split; [exact Hnear |].
    intros Htie. rewrite Heq. apply nearest_hundredth; [subst b; lia | done | done].
Qed.

Lemma completionPercentage_witness :
  completionPercentage
    (calculateSessionMetrics 1000 (session_with 10 None)
       (replicate 5 (action_with 0 false)))
  = percent_two_decimals 5 10.
Proof.
  pose proof (completionPercentage_spec 1000 (session_with 10 None)
                (replicate 5 (action_with 0 false))) as H.
  cbv zeta in H.
  change (totalPallets (session_with 10 None) =? 0) with false in H.
  cbv iota in H.
  destruct H as (n & _ & _ & _ & H); [simpl; lia | simpl; lia |].
  apply H. vm_compute. discriminate.
Defined.

(** C8 fails as stated: a session with no pallet in scope is not guarded. *)
Lemma completionPercentage_counterexample :
  js_div (Qnat (length (@nil CountAction)))
         (inject_Z (totalPallets (session_with 0 None))) = JNaN
  /\ completionPercentage (calculateSessionMetrics 1000 (session_with 0 None) [])
     = "NaN"
  /\ completionPercentage
       (calculateSessionMetrics 1000 (session_with 0 None) [action_with 0 false])
     = "Infinity".
Proof. repeat split; reflexivity. Qed.

(** [Math.floor(a / b)] of a dividend below [2^53] is the integer
    quotient. *)
Lemma js_floor_div_exact (s d : Z) :
  0 <= s < 2 ^ 53 -> 0 < d <= 2 ^ 53 -> js_floor_div s d = s / d.
Proof. apply b64_floor_div. Qed.

(** Of a dividend that is not positive it is not positive. *)
Lemma js_floor_div_nonpos (s d : Z) :
  s <= 0 -> 0 < d -> js_floor_div s d <= 0.
Proof.
  intros Hs Hd. unfold js_floor_div.
  change 0 with (Qfloor 0) at 1. apply Qfloor_resp_le, b64_nonpos.
  assert (0 < inject_Z d)%Q as HD
    by (change 0%Q with (inject_Z 0); rewrite <- Zlt_Qlt; lia).
  assert (inject_Z s <= 0)%Q as HS
    by (change 0%Q with (inject_Z 0); rewrite <- Zle_Qle; lia).
  apply Qle_shift_div_r; [assumption | lra].
Qed.

(** C9, as the code has it: a duration of [seconds >= 0] below [2^53],
    where the integers are doubles and the quotients are exact, splits into
    hours, minutes below 60 and seconds below 60, and is rendered as
    [<h>h <m>m <s>s] without the leading units that are zero. *)
Theorem formatDuration_spec (seconds : Z) :
  0 <= seconds < 2 ^ 53 ->
  let h := seconds / 3600 in
  let m := seconds mod 3600 / 60 in
  let s := seconds mod 60 in
  seconds = 3600 * h + 60 * m + s
  /\ 0 <= h /\ 0 <= m < 60 /\ 0 <= s < 60
  /\ formatDuration seconds = duration_text h m s
  /\ formatDuration 45 = "45s"
  /\ formatDuration 125 = "2m 5s"
  /\ formatDuration 3665 = "1h 1m 5s".
Proof.
  intros Hs h m s.
  assert (0 <= h) as Hh by (apply Z.div_pos; lia).
  assert (0 <= m < 60) as Hm.
  { subst m. pose proof (Z.mod_pos_bound seconds 3600).
    split; [apply Z.div_pos; lia | apply Z.div_lt_upper_bound; lia]. }
  assert (0 <= s < 60) as Hsec by (apply Z.mod_pos_bound; lia).
  assert (seconds = 3600 * h + 60 * m + s) as Hsplit.
  { subst h m s. pose proof (Z.div_mod seconds 3600).
    pose proof (Z.div_mod (seconds mod 3600) 60).
    assert (seconds mod 3600 mod 60 = seconds mod 60) as Hmm.
    { apply Z.mod_mod_divide. by exists 60. }
    lia. }
  split; [done |]. split; [done |]. split; [done |]. split; [done |].
  split; [| by vm_compute].
  unfold formatDuration. cbv zeta.
  rewrite !Z.rem_mod_nonneg by lia.
  pose proof (Z.mod_pos_bound seconds 3600 ltac:(lia)) as Hr.
  rewrite !js_floor_div_exact by lia. fold h m s.
  unfold duration_text. cbn [drop_leading_zero_units].
  destruct (Z.gtb_spec h 0) as [Hh' | Hh'].
  - destruct (Z.eqb_spec h 0); [lia |].
    unfold join_spaces. cbn [fmap list_fmap fold_left].
    by rewrite !append_assoc.
  - assert (h = 0) as -> by lia. simpl (0 =? 0).
    destruct (Z.gtb_spec m 0) as [Hm' | Hm'].
    + destruct (Z.eqb_spec m 0); [lia |].
      unfold join_spaces. cbn [fmap list_fmap fold_left].
      by rewrite !append_assoc.
    + assert (m = 0) as -> by lia. reflexivity.
Qed.

Lemma formatDuration_witness :
  formatDuration 3665 = duration_text 1 1 5
  /\ duration_text 1 1 5 = "1h 1m 5s"
  /\ duration_text 0 2 5 = "2m 5s"
  /\ duration_text 0 0 45 = "45s"
  /\ duration_text 1 0 0 = "1h 0m 0s".
Proof.
  split; [| vm_compute; repeat split].
  assert (0 <= 3665 < 2 ^ 53) as H by lia.
  exact (proj1 (proj2 (proj2 (proj2 (proj2 (formatDuration_spec 3665 H)))))).
Defined.

(** C9 fails as stated for durations beyond [2^53]: the quotient by 3600 is
    a double, here rounded up to the next integer, and the text has one hour
    more than the duration. *)
Lemma formatDuration_counterexample :
  let seconds := 253327479039593984 in
  seconds = 3600 * 70368744177664 + 60 * 59 + 44
  /\ seconds / 3600 = 70368744177664
  /\ formatDuration seconds = "70368744177665h 59m 44s"
  /\ formatDuration seconds
     <> duration_text (seconds / 3600) (seconds mod 3600 / 60) (seconds mod 60).
Proof.
  cbv zeta. split; [reflexivity |]. split; [reflexivity |].
  split; [vm_compute; reflexivity |].
  intros H. vm_compute in H. discriminate H.
Qed.

(** * The functions on the store *)

Lemma bind_eq {A B} (m : M A) (k : A -> M B) h a h' :
  m h = Some (a, h') -> bind m k h = k a h'.
Proof. unfold bind. by intros ->. Qed.

Lemma bind_ret {A B} (a : A) (k : A -> M B) h : bind (ret a) k h = k a h.
Proof. reflexivity. Qed.

Lemma bind_alloc {B} o (k : loc -> M B) h :
  bind (alloc o) k h = k (fresh (dom h)) (<[fresh (dom h) := o]> h).
Proof. reflexivity. Qed.

Lemma fresh_lookup (h : heap) : h !! fresh (dom h) = None.
Proof. apply not_elem_of_dom, is_fresh. Qed.

Lemma fresh_ne (h : heap) l o : h !! l = Some o -> l <> fresh (dom h).
Proof. intros H ->. by rewrite fresh_lookup in H. Qed.

Lemma get_obj_at h l f : h !! l = Some (HObj f) -> get_obj l h = Some (f, h).
Proof. unfold get_obj. by intros ->. Qed.

Lemma get_arr_at h l a : h !! l = Some (HArr a) -> get_arr l h = Some (a, h).
Proof. unfold get_arr. by intros ->. Qed.

Lemma get_field_at h l f k :
  h !! l = Some (HObj f) ->
  get_field l k h = Some (default (VPrim Undefined) (f !! k), h).
Proof. intros H. unfold get_field. by rewrite (bind_eq _ _ _ _ _ (get_obj_at _ _ _ H)). Qed.

Lemma get_field_row h l r k :
  h !! l = Some (row_obj r) -> get_field l k h = Some (VPrim (get r k), h).
Proof.
  intros H. rewrite (get_field_at _ _ _ _ H), lookup_fmap. unfold get.
  by destruct (r !! k).
Qed.

Lemma push_at h l a v :
  h !! l = Some (HArr a) -> push l v h = Some (tt, <[l := HArr (a ++ [v])]> h).
Proof. unfold push. by intros ->. Qed.

Lemma set_field_at h l f k v :
  h !! l = Some (HObj f) ->
  set_field l k v h = Some (tt, <[l := HObj (<[k := v]> f)]> h).
Proof. unfold set_field. by intros ->. Qed.

Lemma map_has_at h l m k :
  h !! l = Some (HMap m) ->
  map_has l k h = Some (bool_decide (is_Some (m !! k)), h).
Proof. unfold map_has, bind, get_map. by intros ->. Qed.

Lemma map_set_at h l m k v :
  h !! l = Some (HMap m) ->
  map_set l k v h = Some (tt, <[l := HMap (<[k := v]> m)]> h).
Proof. unfold map_set. by intros ->. Qed.

(** ** [validateInventoryRow] *)

Lemma push_if_at h l es (b : bool) e :
  h !! l = Some (HArr (vstr <$> es)) ->
  (if b then push l (vstr e) else ret tt) h
  = Some (tt, <[l := HArr (vstr <$> (if b then es ++ [e] else es))]> h).
Proof.
  intros H. destruct b.
  - rewrite (push_at _ _ _ _ H). by rewrite fmap_app.
  - unfold ret. by rewrite insert_id.
Qed.

Lemma for_each_at h l a cb :
  h !! l = Some (HArr a) -> for_each l cb h = for_each_from l cb 0 (length a) h.
Proof. intros H. unfold for_each. by rewrite (bind_eq _ _ _ _ _ (get_arr_at _ _ _ H)). Qed.

Lemma exec_check_required_at h lrow lerr row es c :
  h !! lrow = Some (row_obj row) ->
  h !! lerr = Some (HArr (vstr <$> es)) ->
  exec_check_required lrow lerr (vstr c) h
  = Some (tt, <[lerr := HArr (vstr <$> check_required row es c)]> h).
Proof.
  intros Hrow Herr. unfold exec_check_required. cbn [vstr as_str].
  rewrite bind_ret, (bind_eq _ _ _ _ _ (get_field_row _ _ _ c Hrow)).
  cbn [as_prim]. rewrite bind_ret.
  apply (push_if_at _ _ _ _ (missing_error c) Herr).
Qed.

Lemma for_each_check_required h lrow lreq lerr row cols rest i es :
  h !! lrow = Some (row_obj row) ->
  h !! lreq = Some (HArr (vstr <$> cols)) ->
  h !! lerr = Some (HArr (vstr <$> es)) ->
  lerr <> lrow -> lerr <> lreq ->
  drop i cols = rest ->
  for_each_from lreq (exec_check_required lrow lerr) i (length rest) h
  = Some (tt, <[lerr := HArr (vstr <$> fold_left (check_required row) rest es)]> h).
Proof.
  revert h i es.
  induction rest as [| c rest IH]; intros h i es Hrow Hreq Herr Hn1 Hn2 Hdrop.
  - simpl. unfold ret. by rewrite insert_id.
  - assert (cols !! i = Some c) as Hi.
    { pose proof (lookup_drop cols i 0) as H.
      rewrite Hdrop, Nat.add_0_r in H. by rewrite <- H. }
    assert (drop (S i) cols = rest) as Hdrop'.
    { pose proof (drop_drop cols 1 i) as H.
      rewrite Hdrop, Nat.add_1_r in H. by rewrite <- H. }
    cbn [length for_each_from].
    rewrite (bind_eq _ _ _ _ _ (get_arr_at _ _ _ Hreq)).
    rewrite list_lookup_fmap, Hi. cbn [fmap option_fmap option_map].
    rewrite (bind_eq _ _ _ _ _ (exec_check_required_at _ _ _ _ _ c Hrow Herr)).
    rewrite (IH _ (S i) (check_required row es c)).
    + rewrite insert_insert_eq. reflexivity.
    + by rewrite lookup_insert_ne.
    + by rewrite lookup_insert_ne.
    + by rewrite lookup_insert_eq.
    + done.
    + done.
    + done.
Qed.

(** On the store, [validateInventoryRow] returns a new result object with a
    new array of errors, which hold what the function on values computes, and
    every object that was in the store is in it unchanged. *)
Lemma exec_validateInventoryRow_spec (h : heap) (lrow : loc) (row : Row) :
  h !! lrow = Some (row_obj row) ->
  exists lres lerr h',
    exec_validateInventoryRow lrow h = Some (lres, h')
    /\ h ⊆ h'
    /\ h' !! lres = Some (validation_obj (validateInventoryRow row) lerr)
    /\ h' !! lerr = Some (HArr (vstr <$> errors (validateInventoryRow row))).
Proof.
  intros Hrow. unfold exec_validateInventoryRow.
  rewrite bind_alloc.
  set (lreq := fresh (dom h)).
  set (h1 := <[lreq := HArr (vstr <$> required)]> h).
  rewrite bind_alloc.
  set (lerr := fresh (dom h1)).
  set (h2 := <[lerr := HArr []]> h1).
  assert (h1 !! lreq = Some (HArr (vstr <$> required))) as Hreq1
    by apply lookup_insert_eq.
  assert (lerr <> lreq) as Hn2 by (symmetry; apply (fresh_ne _ _ _ Hreq1)).
  assert (lreq <> lrow) as Hn0 by (symmetry; apply (fresh_ne _ _ _ Hrow)).
  assert (h1 !! lrow = Some (row_obj row)) as Hrow1
    by (unfold h1; by rewrite lookup_insert_ne).
  assert (lerr <> lrow) as Hn1 by (symmetry; apply (fresh_ne _ _ _ Hrow1)).
  assert (h2 !! lrow = Some (row_obj row)) as Hrow2
    by (unfold h2; by rewrite lookup_insert_ne).
  assert (h2 !! lreq = Some (HArr (vstr <$> required))) as Hreq2
    by (unfold h2; by rewrite lookup_insert_ne).
  assert (h2 !! lerr = Some (HArr (vstr <$> []))) as Herr2
    by apply lookup_insert_eq.
  (* the loop over the required columns *)
  assert (for_each lreq (exec_check_required lrow lerr) h2
          = Some (tt, <[lerr := HArr (vstr <$> fold_left (check_required row)
                                                 required [])]> h2)) as Hloop.
  { rewrite (for_each_at _ _ _ _ Hreq2), length_fmap.
    by apply (for_each_check_required h2 lrow lreq lerr row required). }
  rewrite (bind_eq _ _ _ _ _ Hloop). clear Hloop.
  set (es1 := fold_left (check_required row) required []).
  unfold h2. rewrite insert_insert_eq.
  set (h3 := <[lerr := HArr (vstr <$> es1)]> h1).
  assert (h3 !! lrow = Some (row_obj row)) as Hrow3
    by (unfold h3; by rewrite lookup_insert_ne).
  assert (h3 !! lerr = Some (HArr (vstr <$> es1))) as Herr3
    by apply lookup_insert_eq.
  (* the quantity *)
  rewrite (bind_eq _ _ _ _ _ (get_field_row _ _ _ "SystemQuantity" Hrow3)).
  cbn [as_prim]. rewrite bind_ret.
  rewrite (bind_eq _ _ _ _ _
    (push_if_at _ _ _ _ (quantity_error (get row "SystemQuantity")) Herr3)).
  set (es2 := if truthy (get row "SystemQuantity") && _ then _ else es1).
  unfold h3. rewrite insert_insert_eq.
  set (h4 := <[lerr := HArr (vstr <$> es2)]> h1).
  assert (h4 !! lrow = Some (row_obj row)) as Hrow4
    by (unfold h4; by rewrite lookup_insert_ne).
  assert (h4 !! lerr = Some (HArr (vstr <$> es2))) as Herr4
    by apply lookup_insert_eq.
  (* the expiry date *)
  rewrite (bind_eq _ _ _ _ _ (get_field_row _ _ _ "ExpiryDate" Hrow4)).
  cbn [as_prim]. rewrite bind_ret.
  rewrite (bind_eq _ _ _ _ _
    (push_if_at _ _ _ _ (expiry_error (get row "ExpiryDate")) Herr4)).
  set (es3 := if truthy (get row "ExpiryDate") && _ then _ else es2).
  unfold h4. rewrite insert_insert_eq.
  set (h5 := <[lerr := HArr (vstr <$> es3)]> h1).
  assert (h5 !! lerr = Some (HArr (vstr <$> es3))) as Herr5
    by apply lookup_insert_eq.
  (* the result *)
  rewrite (bind_eq _ _ _ _ _ (get_arr_at _ _ _ Herr5)).
  unfold alloc. cbv zeta. rewrite length_fmap.
  exists (fresh (dom h5)), lerr. eexists. split; [reflexivity |].
  assert (h ⊆ h5) as Hsub.
  { transitivity h1.
    - apply insert_subseteq, fresh_lookup.
    - apply insert_subseteq, fresh_lookup. }
  split; [| split].
  - transitivity h5; [done |]. apply insert_subseteq, fresh_lookup.
  - rewrite lookup_insert_eq. reflexivity.
  - rewrite lookup_insert_ne by (symmetry; apply (fresh_ne _ _ _ Herr5)).
    exact Herr5.
Qed.

(** ** [calculateVarianceStats] *)

Lemma stats_fields_lookup acc lp ln lz :
  stats_fields acc lp ln lz !! "totalActions" = Some (vnat (acc_totalActions acc))
  /\ stats_fields acc lp ln lz !! "totalVariance"
     = Some (vnum (acc_totalVariance acc))
  /\ stats_fields acc lp ln lz !! "positiveVariances" = Some (VRef lp)
  /\ stats_fields acc lp ln lz !! "negativeVariances" = Some (VRef ln)
  /\ stats_fields acc lp ln lz !! "zeroVariances" = Some (VRef lz).
Proof.
  unfold stats_fields.
  repeat split; repeat (rewrite lookup_insert_ne by done); apply lookup_insert_eq.
Qed.

Lemma action_fields_lookup a :
  action_fields a !! "variance" = Some (vnum (variance a))
  /\ action_fields a !! "flagged" = Some (vbool (flagged a)).
Proof.
  unfold action_fields. split; [apply lookup_insert_eq |].
  rewrite lookup_insert_ne by done. apply lookup_insert_eq.
Qed.

Lemma bucket_at_other h0 h h' l actions :
  h' !! l = h !! l -> bucket_at h0 h l actions -> bucket_at h0 h' l actions.
Proof. intros Heq (ls & Hl & Hls). exists ls. by rewrite Heq. Qed.

Lemma push_field_bucket h0 h lst f k lb actions la a :
  h !! lst = Some (HObj f) -> f !! k = Some (VRef lb) ->
  bucket_at h0 h lb actions -> h0 !! la = Some (action_obj a) ->
  exists h',
    push_field lst k (VRef la) h = Some (tt, h')
    /\ bucket_at h0 h' lb (actions ++ [a])
    /\ (forall l, l <> lb -> h' !! l = h !! l)
    /\ (h0 !! lb = None -> h0 ⊆ h -> h0 ⊆ h').
Proof.
  intros Hst Hk (ls & Hlb & Hls) Hla.
  exists (<[lb := HArr ((VRef <$> ls) ++ [VRef la])]> h). repeat split.
  - unfold push_field.
    rewrite (bind_eq _ _ _ _ _ (get_field_at _ _ _ k Hst)), Hk.
    cbn [from_option id as_ref]. rewrite bind_ret. by apply push_at.
  - exists (ls ++ [la]). rewrite lookup_insert_eq, fmap_app. split; [done |].
    apply Forall2_app; [done |]. by constructor.
  - intros l Hl. by rewrite lookup_insert_ne.
  - intros Hnew Hsub. by apply insert_subseteq_r.
Qed.

Section stats_on_store.
(** The store before the call, and the four objects the call has created. *)
Variables (h0 : heap) (lst lp ln lz : loc).
Hypothesis Hlocs : stats_locs h0 lst lp ln lz.

Lemma exec_stats_callback_at h acc la a :
  stats_inv h0 h lst lp ln lz acc ->
  h0 !! la = Some (action_obj a) ->
  exists h',
    exec_stats_callback lst (VRef la) h = Some (tt, h')
    /\ stats_inv h0 h' lst lp ln lz (stats_callback acc a).
Proof.
  destruct Hlocs as [Hnst Hnp Hnn Hnz Hsp Hsn Hsz Hpn Hpz Hnz'].
  intros [Hsub Hst Hp Hn Hz] Hla.
  destruct (stats_fields_lookup acc lp ln lz) as (_ & Htv & Hfp & Hfn & Hfz).
  destruct (action_fields_lookup a) as [Hv _].
  assert (h !! la = Some (HObj (action_fields a))) as Hla'
    by (by apply (lookup_weaken h0)).
  unfold exec_stats_callback. cbn [as_ref]. rewrite bind_ret.
  rewrite (bind_eq _ _ _ _ _ (get_field_at _ _ _ "totalVariance" Hst)), Htv.
  cbn [from_option id vnum as_num]. rewrite bind_ret.
  rewrite (bind_eq _ _ _ _ _ (get_field_at _ _ _ "variance" Hla')), Hv.
  cbn [from_option id vnum as_num]. rewrite bind_ret.
  rewrite (bind_eq _ _ _ _ _ (set_field_at _ _ _ "totalVariance" _ Hst)).
  set (f1 := <["totalVariance" := _]> (stats_fields acc lp ln lz)).
  set (h1 := <[lst := _]> h).
  assert (h1 !! lst = Some (HObj f1)) as Hst1 by apply lookup_insert_eq.
  assert (h0 ⊆ h1) as Hsub1 by (by apply insert_subseteq_r).
  assert (forall l actions, l <> lst -> bucket_at h0 h l actions ->
            bucket_at h0 h1 l actions) as Hkeep.
  { intros l actions Hl. apply bucket_at_other. unfold h1.
    by rewrite lookup_insert_ne. }
  assert (f1 !! "positiveVariances" = Some (VRef lp)
          /\ f1 !! "negativeVariances" = Some (VRef ln)
          /\ f1 !! "zeroVariances" = Some (VRef lz)) as (Hf1p & Hf1n & Hf1z).
  { unfold f1. by rewrite !lookup_insert_ne by done. }
  unfold stats_callback.
  destruct (variance a >? 0); [| destruct (variance a <? 0)].
  - destruct (push_field_bucket h0 h1 lst f1 "positiveVariances" lp
                (acc_positive acc) la a Hst1 Hf1p
                (Hkeep _ _ (not_eq_sym Hsp) Hp) Hla)
      as (h' & Hrun & Hb & Hoth & Hsub').
    exists h'. split; [done |]. split; simpl.
    + by apply Hsub'.
    + rewrite Hoth by done. exact Hst1.
    + done.
    + apply (bucket_at_other h0 h1); [by apply Hoth | by apply Hkeep].
    + apply (bucket_at_other h0 h1); [by apply Hoth | by apply Hkeep].
  - destruct (push_field_bucket h0 h1 lst f1 "negativeVariances" ln
                (acc_negative acc) la a Hst1 Hf1n
                (Hkeep _ _ (not_eq_sym Hsn) Hn) Hla)
      as (h' & Hrun & Hb & Hoth & Hsub').
    exists h'. split; [done |]. split; simpl.
    + by apply Hsub'.
    + rewrite Hoth by done. exact Hst1.
    + apply (bucket_at_other h0 h1); [by apply Hoth | by apply Hkeep].
    + done.
    + apply (bucket_at_other h0 h1); [by apply Hoth | by apply Hkeep].
  - destruct (push_field_bucket h0 h1 lst f1 "zeroVariances" lz
                (acc_zero acc) la a Hst1 Hf1z
                (Hkeep _ _ (not_eq_sym Hsz) Hz) Hla)
      as (h' & Hrun & Hb & Hoth & Hsub').
    exists h'. split; [done |]. split; simpl.
    + by apply Hsub'.
    + rewrite Hoth by done. exact Hst1.
    + apply (bucket_at_other h0 h1); [by apply Hoth | by apply Hkeep].
    + apply (bucket_at_other h0 h1); [by apply Hoth | by apply Hkeep].
    + done.
Qed.

Lemma drop_lookup_head {A} (l rest : list A) i x :
  drop i l = x :: rest -> l !! i = Some x /\ drop (S i) l = rest.
Proof.
  intros Hdrop. split.
  - pose proof (lookup_drop l i 0) as H.
    rewrite Hdrop, Nat.add_0_r in H. by rewrite <- H.
  - pose proof (drop_drop l 1 i) as H.
    rewrite Hdrop, Nat.add_1_r in H. by rewrite <- H.
Qed.

Lemma for_each_stats lacts ls rest_l rest_a i h acc :
  h0 !! lacts = Some (HArr (VRef <$> ls)) ->
  stats_inv h0 h lst lp ln lz acc ->
  drop i ls = rest_l ->
  actions_at h0 rest_l rest_a ->
  exists h',
    for_each_from lacts (exec_stats_callback lst) i (length rest_l) h
    = Some (tt, h')
    /\ stats_inv h0 h' lst lp ln lz (fold_left stats_callback rest_a acc).
Proof.
  intros Hacts. revert rest_a i h acc.
  induction rest_l as [| la rest_l IH]; intros rest_a i h acc Hinv Hdrop Hat.
  - apply Forall2_nil_inv_l in Hat as ->. by exists h.
  - apply Forall2_cons_inv_l in Hat as (a & rest_a' & Hla & Hat & ->).
    apply drop_lookup_head in Hdrop as [Hi Hdrop].
    destruct (exec_stats_callback_at _ _ _ _ Hinv Hla) as (h1 & Hrun & Hinv1).
    destruct (IH rest_a' (S i) h1 _ Hinv1 Hdrop Hat) as (h' & Hloop & Hinv').
    exists h'. split; [| done].
    cbn [length for_each_from].
    assert (h !! lacts = Some (HArr (VRef <$> ls))) as Hacts'
      by (apply (lookup_weaken h0); [done | apply Hinv]).
    rewrite (bind_eq _ _ _ _ _ (get_arr_at _ _ _ Hacts')).
    rewrite list_lookup_fmap, Hi. cbn [fmap option_fmap option_map].
    by rewrite (bind_eq _ _ _ _ _ Hrun).
Qed.

End stats_on_store.

Lemma field_length_at h lst f k lb a :
  h !! lst = Some (HObj f) -> f !! k = Some (VRef lb) ->
  h !! lb = Some (HArr a) ->
  field_length lst k h = Some (length a, h).
Proof.
  intros Hst Hk Hlb. unfold field_length.
  rewrite (bind_eq _ _ _ _ _ (get_field_at _ _ _ k Hst)), Hk.
  cbn [from_option id as_ref]. rewrite bind_ret.
  by rewrite (bind_eq _ _ _ _ _ (get_arr_at _ _ _ Hlb)).
Qed.

Lemma actions_at_weaken h h' ls actions :
  h ⊆ h' -> actions_at h ls actions -> actions_at h' ls actions.
Proof.
  intros Hsub H. apply (Forall2_impl _ _ _ _ H).
  intros l a Hl. by apply (lookup_weaken h).
Qed.

Lemma lookup_fresh_below (h0 h : heap) : h0 ⊆ h -> h0 !! fresh (dom h) = None.
Proof.
  intros Hsub. destruct (h0 !! fresh (dom h)) as [o |] eqn:E; [| done].
  apply (lookup_weaken _ h) in E; [| done]. by rewrite fresh_lookup in E.
Qed.

(** On the store, [calculateVarianceStats] returns a new [stats] object with
    three new arrays; they hold what the function on values computes, the
    arrays refer to the actions of the argument, and every object that was in
    the store is in it unchanged. *)
Lemma exec_calculateVarianceStats_spec (h : heap) (lacts : loc)
    (ls : list loc) (actions : list CountAction) :
  h !! lacts = Some (HArr (VRef <$> ls)) ->
  actions_at h ls actions ->
  exists lres lp ln lz h',
    exec_calculateVarianceStats lacts h = Some (lres, h')
    /\ h ⊆ h'
    /\ h' !! lres = Some (stats_obj (calculateVarianceStats actions) lp ln lz)
    /\ bucket_at h h' lp (positiveVariances (calculateVarianceStats actions))
    /\ bucket_at h h' ln (negativeVariances (calculateVarianceStats actions))
    /\ bucket_at h h' lz (zeroVariances (calculateVarianceStats actions)).
Proof.
  intros Hacts Hat. unfold exec_calculateVarianceStats.
  rewrite (bind_eq _ _ _ _ _ (get_arr_at _ _ _ Hacts)).
  rewrite length_fmap, (Forall2_length _ _ _ Hat).
  rewrite bind_alloc. set (lp := fresh (dom h)).
  set (h1 := <[lp := HArr []]> h).
  rewrite bind_alloc. set (ln := fresh (dom h1)).
  set (h2 := <[ln := HArr []]> h1).
  rewrite bind_alloc. set (lz := fresh (dom h2)).
  set (h3 := <[lz := HArr []]> h2).
  rewrite bind_alloc. set (lst := fresh (dom h3)).
  set (acc0 := {| acc_totalActions := length actions; acc_totalVariance := 0;
                  acc_positive := []; acc_negative := []; acc_zero := [] |}).
  set (h4 := <[lst := _]> h3).
  assert (h ⊆ h1) as Hs1 by apply insert_subseteq, fresh_lookup.
  assert (h1 ⊆ h2) as Hs2 by apply insert_subseteq, fresh_lookup.
  assert (h2 ⊆ h3) as Hs3 by apply insert_subseteq, fresh_lookup.
  assert (h3 ⊆ h4) as Hs4 by apply insert_subseteq, fresh_lookup.
  assert (h ⊆ h2) as Hs02 by (by transitivity h1).
  assert (h ⊆ h3) as Hs03 by (by transitivity h2).
  assert (h ⊆ h4) as Hs04 by (by transitivity h3).
  assert (h1 !! lp = Some (HArr [])) as Hp1 by apply lookup_insert_eq.
  assert (h2 !! ln = Some (HArr [])) as Hn2 by apply lookup_insert_eq.
  assert (h3 !! lz = Some (HArr [])) as Hz3 by apply lookup_insert_eq.
  assert (h4 !! lst = Some (HObj (stats_fields acc0 lp ln lz))) as Hst4
    by apply lookup_insert_eq.
  assert (h2 !! lp = Some (HArr [])) as Hp2 by (by apply (lookup_weaken h1)).
  assert (h3 !! lp = Some (HArr [])) as Hp3 by (by apply (lookup_weaken h2)).
  assert (h3 !! ln = Some (HArr [])) as Hn3 by (by apply (lookup_weaken h2)).
  assert (stats_locs h lst lp ln lz) as Hlocs.
  { split.
    - by apply lookup_fresh_below.
    - apply fresh_lookup.
    - by apply lookup_fresh_below.
    - by apply lookup_fresh_below.
    - symmetry. apply (fresh_ne _ _ _ Hp3).
    - symmetry. apply (fresh_ne _ _ _ Hn3).
    - symmetry. apply (fresh_ne _ _ _ Hz3).
    - apply (fresh_ne _ _ _ Hp1).
    - apply (fresh_ne _ _ _ Hp2).
    - apply (fresh_ne _ _ _ Hn2). }
  assert (stats_inv h h4 lst lp ln lz acc0) as Hinv.
  { split.
    - done.
    - done.
    - exists []. split; [| constructor].
      apply (lookup_weaken h3); [done | done].
    - exists []. split; [| constructor].
      apply (lookup_weaken h3); [done | done].
    - exists []. split; [| constructor].
      apply (lookup_weaken h3); [done | done]. }
  assert (h4 !! lacts = Some (HArr (VRef <$> ls))) as Hacts4.
  { apply (lookup_weaken h); [done | apply Hinv]. }
  destruct (for_each_stats h lst lp ln lz Hlocs lacts ls ls actions 0 h4 acc0
              Hacts Hinv eq_refl Hat) as (h5 & Hloop & Hinv5).
  assert (for_each lacts (exec_stats_callback lst) h4 = Some (tt, h5)) as Hfe
    by (by rewrite (for_each_at _ _ _ _ Hacts4), length_fmap).
  rewrite (bind_eq _ _ _ _ _ Hfe).
  set (accF := fold_left stats_callback actions acc0) in *.
  destruct Hinv5 as [Hsub5 Hst5 (lsp & Hp5 & Hpat) (lsn & Hn5 & Hnat)
                       (lsz & Hz5 & Hzat)].
  destruct (stats_fields_lookup accF lp ln lz) as (Hfa & _ & Hfp & Hfn & Hfz).
  destruct Hlocs as [Hnst Hnp Hnn Hnz Hsp Hsn Hsz Hpn Hpz Hnz'].
  rewrite (bind_eq _ _ _ _ _ (field_length_at _ _ _ _ _ _ Hst5 Hfp Hp5)).
  rewrite (bind_eq _ _ _ _ _ (field_length_at _ _ _ _ _ _ Hst5 Hfn Hn5)).
  rewrite !length_fmap, (Forall2_length _ _ _ Hpat), (Forall2_length _ _ _ Hnat).
  rewrite (bind_eq _ _ _ _ _ (set_field_at _ _ _ "varianceCount" _ Hst5)).
  set (f6 := <["varianceCount" := _]> (stats_fields accF lp ln lz)).
  set (h6 := <[lst := HObj f6]> h5).
  assert (h6 !! lst = Some (HObj f6)) as Hst6 by apply lookup_insert_eq.
  assert (h6 !! lz = Some (HArr (VRef <$> lsz))) as Hz6
    by (unfold h6; by rewrite lookup_insert_ne).
  assert (f6 !! "zeroVariances" = Some (VRef lz)
          /\ f6 !! "totalActions" = Some (vnat (acc_totalActions accF)))
    as [Hf6z Hf6a] by (unfold f6; by rewrite !lookup_insert_ne by done).
  rewrite (bind_eq _ _ _ _ _ (field_length_at _ _ _ _ _ _ Hst6 Hf6z Hz6)).
  rewrite (bind_eq _ _ _ _ _ (get_field_at _ _ _ "totalActions" Hst6)), Hf6a.
  cbn [from_option id vnat as_num]. rewrite bind_ret.
  rewrite (bind_eq _ _ _ _ _ (set_field_at _ _ _ "accuracyPercentage" _ Hst6)).
  unfold ret, h6. rewrite insert_insert_eq, !length_fmap.
  rewrite (Forall2_length _ _ _ Hzat).
  exists lst, lp, ln, lz. eexists. split; [reflexivity |].
  assert (h ⊆ <[lst := HObj (<["accuracyPercentage" :=
            vstr (toFixed2 (js_times100 (js_div (Qnat (length (acc_zero accF)))
              (inject_Z (Z.of_nat (acc_totalActions accF))))))]> f6)]> h5)
    as Hsub by (by apply insert_subseteq_r).
  split; [done |]. split; [| split; [| split]].
  - rewrite lookup_insert_eq. reflexivity.
  - exists lsp. by rewrite lookup_insert_ne.
  - exists lsn. by rewrite lookup_insert_ne.
  - exists lsz. by rewrite lookup_insert_ne.
Qed.

(** ** [deduplicateRows] *)

Lemma rows_at_insert h ls rows l o :
  (forall r, h !! l <> Some (row_obj r)) ->
  rows_at h ls rows -> rows_at (<[l := o]> h) ls rows.
Proof.
  intros Hl H. apply (Forall2_impl _ _ _ _ H). intros l' r Hl'.
  rewrite lookup_insert_ne; [done |]. intros ->. by apply (Hl r).
Qed.

Lemma rows_at_weaken h h' ls rows :
  h ⊆ h' -> rows_at h ls rows -> rows_at h' ls rows.
Proof.
  intros Hsub H. apply (Forall2_impl _ _ _ _ H).
  intros l r Hl. by apply (lookup_weaken h).
Qed.

Lemma deduplicateRows_eq rows :
  deduplicateRows rows
  = let res := filter_st dedup_callback rows {| seen := ∅; dups := [] |} in
    {| unique := res.1; duplicates := dups res.2;
       deduplicationCount := length (dups res.2) |}.
Proof.
  unfold deduplicateRows. by destruct (filter_st dedup_callback rows _).
Qed.

Lemma array_filter_at h l a cb kept h' :
  h !! l = Some (HArr a) ->
  filter_from l cb 0 (length a) h = Some (kept, h') ->
  array_filter l cb h
  = Some (fresh (dom h'), <[fresh (dom h') := HArr kept]> h').
Proof.
  intros Hl Hrun. unfold array_filter.
  rewrite (bind_eq _ _ _ _ _ (get_arr_at _ _ _ Hl)).
  by rewrite (bind_eq _ _ _ _ _ Hrun).
Qed.

Section dedup_on_store.
(** The store before the call, and the two objects the call has created. *)
Variables (h0 : heap) (lseen ldup : loc).
Hypothesis Hnseen : h0 !! lseen = None.
Hypothesis Hndup : h0 !! ldup = None.
Hypothesis Hne : lseen <> ldup.

Lemma exec_dedup_callback_at h st l r :
  dedup_inv h0 h lseen ldup st ->
  h0 !! l = Some (row_obj r) ->
  exists h',
    exec_dedup_callback lseen ldup (VRef l) h
    = Some ((dedup_callback r st).1, h')
    /\ dedup_inv h0 h' lseen ldup (dedup_callback r st).2.
Proof.
  intros [Hsub (m & Hseen & Hdom) (lds & Hdup & Hrows)] Hl0.
  assert (h !! l = Some (row_obj r)) as Hl by (by apply (lookup_weaken h0)).
  unfold exec_dedup_callback. cbn [as_ref]. rewrite bind_ret.
  rewrite (bind_eq _ _ _ _ _ (get_field_row _ _ _ "PalletID" Hl)).
  cbn [as_prim]. rewrite bind_ret.
  rewrite (bind_eq _ _ _ _ _ (get_field_row _ _ _ "Bin" Hl)).
  cbn [as_prim]. rewrite bind_ret. cbv zeta. fold (dedupKey r).
  rewrite (bind_eq _ _ _ _ _ (map_has_at _ _ _ (dedupKey r) Hseen)).
  destruct (dedup_callback_cases r st) as [[Hkey ->] | [Hkey ->]]; simpl.
  - rewrite bool_decide_eq_true_2
      by (by rewrite <- elem_of_dom, Hdom).
    rewrite (bind_eq _ _ _ _ _ (get_obj_at _ _ _ Hl)), bind_alloc.
    set (lc := fresh (dom h)).
    set (h1 := <[lc := _]> h).
    assert (h1 !! lc = Some (row_obj (with_reason r))) as Hc1.
    { unfold h1, row_obj, with_reason.
      by rewrite lookup_insert_eq, fmap_insert. }
    assert (h1 !! ldup = Some (HArr (VRef <$> lds))) as Hdup1.
    { unfold h1. rewrite lookup_insert_ne; [done |].
      symmetry. apply (fresh_ne _ _ _ Hdup). }
    rewrite (bind_eq _ _ _ _ _ (push_at _ _ _ (VRef lc) Hdup1)).
    eexists. split; [reflexivity |].
    split; simpl.
    + apply insert_subseteq_r; [done |].
      transitivity h; [done |]. apply insert_subseteq, fresh_lookup.
    + exists m. split; [| done].
      rewrite lookup_insert_ne by done. unfold h1.
      rewrite lookup_insert_ne; [done |].
      symmetry. apply (fresh_ne _ _ _ Hseen).
    + exists (lds ++ [lc]). rewrite lookup_insert_eq, fmap_app.
      split; [done |]. apply Forall2_app.
      * apply rows_at_insert; [by rewrite Hdup1 |].
        apply rows_at_insert; [| done].
        intros r'. unfold lc. by rewrite fresh_lookup.
      * constructor; [| constructor].
        rewrite lookup_insert_ne; [done |].
        intros <-. rewrite Hdup1 in Hc1. discriminate Hc1.
  - rewrite bool_decide_eq_false_2
      by (by rewrite <- elem_of_dom, Hdom).
    rewrite (bind_eq _ _ _ _ _ (map_set_at _ _ _ (dedupKey r) (VRef l) Hseen)).
    eexists. split; [reflexivity |].
    split; simpl.
    + by apply insert_subseteq_r.
    + eexists. rewrite lookup_insert_eq. split; [done |].
      by rewrite !dom_insert_L, Hdom.
    + exists lds. rewrite lookup_insert_ne by done. split; [done |].
      apply rows_at_insert; [by rewrite Hseen | done].
Qed.

Lemma filter_from_dedup lrows ls rest_l rest_r i h st :
  h0 !! lrows = Some (HArr (VRef <$> ls)) ->
  dedup_inv h0 h lseen ldup st ->
  drop i ls = rest_l ->
  rows_at h0 rest_l rest_r ->
  exists kept_l h',
    filter_from lrows (exec_dedup_callback lseen ldup) i (length rest_l) h
    = Some (VRef <$> kept_l, h')
    /\ dedup_inv h0 h' lseen ldup (filter_st dedup_callback rest_r st).2
    /\ rows_at h0 kept_l (filter_st dedup_callback rest_r st).1
    /\ kept_l `sublist_of` rest_l.
Proof.
  intros Hrows. revert rest_r i h st.
  induction rest_l as [| l rest_l IH]; intros rest_r i h st Hinv Hdrop Hat.
  - apply Forall2_nil_inv_l in Hat as ->. exists [], h.
    repeat split; try done; try apply Hinv; constructor.
  - apply Forall2_cons_inv_l in Hat as (r & rest_r' & Hl & Hat & ->).
    apply drop_lookup_head in Hdrop as [Hi Hdrop].
    destruct (exec_dedup_callback_at _ _ _ _ Hinv Hl) as (h1 & Hrun & Hinv1).
    destruct (IH rest_r' (S i) h1 _ Hinv1 Hdrop Hat)
      as (kept_l & h' & Hloop & Hinv' & Hkept & Hsubl).
    cbn [filter_st]. destruct (dedup_callback r st) as [keep st1].
    simpl in Hrun, Hinv1, Hloop, Hinv', Hkept.
    destruct (filter_st dedup_callback rest_r' st1) as [kept st2] eqn:Efs.
    simpl in Hinv', Hkept |- *.
    exists (if keep then l :: kept_l else kept_l), h'.
    split; [| split; [done | split]].
    + assert (h !! lrows = Some (HArr (VRef <$> ls))) as Hrows'
        by (apply (lookup_weaken h0); [done | apply Hinv]).
      rewrite (bind_eq _ _ _ _ _ (get_arr_at _ _ _ Hrows')).
      rewrite list_lookup_fmap, Hi. cbn [fmap option_fmap option_map].
      rewrite (bind_eq _ _ _ _ _ Hrun), (bind_eq _ _ _ _ _ Hloop).
      unfold ret. by destruct keep.
    + destruct keep; [by constructor | done].
    + destruct keep; by constructor.
Qed.

End dedup_on_store.

(** On the store, [deduplicateRows] returns a new result object with two new
    arrays; [unique] refers to rows of the argument, [duplicates] to new
    copies with a [reason]; they hold what the function on values computes,
    and every object that was in the store is in it unchanged. *)
Lemma exec_deduplicateRows_spec (h : heap) (lrows : loc) (ls : list loc)
    (rows : list Row) :
  h !! lrows = Some (HArr (VRef <$> ls)) ->
  rows_at h ls rows ->
  exists lres lu ld lus lds h',
    exec_deduplicateRows lrows h = Some (lres, h')
    /\ h ⊆ h'
    /\ h' !! lres = Some (dedup_obj (deduplicateRows rows) lu ld)
    /\ h' !! lu = Some (HArr (VRef <$> lus))
    /\ rows_at h lus (unique (deduplicateRows rows))
    /\ lus `sublist_of` ls
    /\ h' !! ld = Some (HArr (VRef <$> lds))
    /\ rows_at h' lds (duplicates (deduplicateRows rows)).
Proof.
  intros Hrows Hat. unfold exec_deduplicateRows.
  rewrite bind_alloc. set (lseen := fresh (dom h)).
  set (h1 := <[lseen := HMap ∅]> h).
  rewrite bind_alloc. set (ldup := fresh (dom h1)).
  set (h2 := <[ldup := HArr []]> h1).
  assert (h ⊆ h1) as Hs1 by apply insert_subseteq, fresh_lookup.
  assert (h1 ⊆ h2) as Hs2 by apply insert_subseteq, fresh_lookup.
  assert (h ⊆ h2) as Hs02 by (by transitivity h1).
  assert (h1 !! lseen = Some (HMap ∅)) as Hseen1 by apply lookup_insert_eq.
  assert (h !! lseen = None) as Hnseen by apply fresh_lookup.
  assert (h !! ldup = None) as Hndup by (by apply lookup_fresh_below).
  assert (lseen <> ldup) as Hne by apply (fresh_ne _ _ _ Hseen1).
  set (st0 := {| seen := ∅; dups := [] |}).
  assert (dedup_inv h h2 lseen ldup st0) as Hinv.
  { split; [done | |].
    - exists ∅. split; [| by rewrite !dom_empty_L].
      by apply (lookup_weaken h1).
    - exists []. split; [apply lookup_insert_eq | constructor]. }
  destruct (filter_from_dedup h lseen ldup Hnseen Hndup Hne lrows ls ls rows 0
              h2 st0 Hrows Hinv eq_refl Hat)
    as (lus & h3 & Hloop & [Hsub3 _ (lds & Hdup3 & Hdups)] & Hkept & Hsubl).
  assert (h2 !! lrows = Some (HArr (VRef <$> ls))) as Hrows2
    by (by apply (lookup_weaken h)).
  rewrite <- (length_fmap VRef ls) in Hloop.
  rewrite (bind_eq _ _ _ _ _ (array_filter_at _ _ _ _ _ _ Hrows2 Hloop)).
  set (lu := fresh (dom h3)).
  set (h4 := <[lu := HArr (VRef <$> lus)]> h3).
  assert (h3 ⊆ h4) as Hs4 by apply insert_subseteq, fresh_lookup.
  assert (h4 !! ldup = Some (HArr (VRef <$> lds))) as Hdup4
    by (by apply (lookup_weaken h3)).
  rewrite (bind_eq _ _ _ _ _ (get_arr_at _ _ _ Hdup4)).
  unfold alloc. cbv zeta. rewrite length_fmap, (Forall2_length _ _ _ Hdups).
  set (h5 := <[fresh (dom h4) := _]> h4).
  assert (h4 ⊆ h5) as Hs5 by apply insert_subseteq, fresh_lookup.
  exists (fresh (dom h4)), lu, ldup, lus, lds, h5.
  rewrite deduplicateRows_eq. cbv zeta. cbn [unique duplicates].
  split; [reflexivity |]. split; [| split; [| split; [| split; [| split; [| split]]]]].
  - transitivity h3; [done |]. by transitivity h4.
  - apply lookup_insert_eq.
  - apply (lookup_weaken h4); [apply lookup_insert_eq | done].
  - done.
  - done.
  - by apply (lookup_weaken h4).
  - apply (rows_at_weaken h3); [by transitivity h4 | done].
Qed.

(** ** [calculateSessionMetrics] *)

Lemma session_fields_lookup s lbins :
  session_fields s lbins !! "endTime"
  = Some (VPrim (from_option Num Null (endTime s)))
  /\ session_fields s lbins !! "startTime" = Some (vnum (startTime s))
  /\ session_fields s lbins !! "sessionId" = Some (vstr (sessionId s))
  /\ session_fields s lbins !! "location" = Some (vstr (location s))
  /\ session_fields s lbins !! "bins" = Some (VRef lbins)
  /\ session_fields s lbins !! "totalPallets" = Some (vnum (totalPallets s)).
Proof.
  unfold session_fields.
  repeat split; repeat (rewrite lookup_insert_ne by done); apply lookup_insert_eq.
Qed.

(** A [filter] whose callback only reads: the store is left as it is, and as
    many elements are kept as satisfy the test. *)
Lemma filter_from_readonly h0 h lacts ls (P : CountAction -> Prop)
    `{!forall a, Decision (P a)} (cb : val -> M bool) rest_l rest_a i :
  h0 ⊆ h ->
  h0 !! lacts = Some (HArr (VRef <$> ls)) ->
  (forall l a, h !! l = Some (action_obj a) ->
     cb (VRef l) h = Some (bool_decide (P a), h)) ->
  drop i ls = rest_l ->
  actions_at h0 rest_l rest_a ->
  exists kept_l,
    filter_from lacts cb i (length rest_l) h = Some (VRef <$> kept_l, h)
    /\ length kept_l = length (filter P rest_a).
Proof.
  intros Hsub Hacts Hcb. revert rest_a i.
  induction rest_l as [| l rest_l IH]; intros rest_a i Hdrop Hat.
  - apply Forall2_nil_inv_l in Hat as ->. by exists [].
  - apply Forall2_cons_inv_l in Hat as (a & rest_a' & Hl & Hat & ->).
    apply drop_lookup_head in Hdrop as [Hi Hdrop].
    destruct (IH rest_a' (S i) Hdrop Hat) as (kept_l & Hloop & Hlen).
    exists (if bool_decide (P a) then l :: kept_l else kept_l). split.
    + cbn [length filter_from].
      assert (h !! lacts = Some (HArr (VRef <$> ls))) as Hacts'
        by (by apply (lookup_weaken h0)).
      rewrite (bind_eq _ _ _ _ _ (get_arr_at _ _ _ Hacts')).
      rewrite list_lookup_fmap, Hi. cbn [fmap option_fmap option_map].
      assert (h !! l = Some (action_obj a)) as Hl'
        by (by apply (lookup_weaken h0)).
      rewrite (bind_eq _ _ _ _ _ (Hcb l a Hl')), (bind_eq _ _ _ _ _ Hloop).
      unfold ret. by destruct (bool_decide (P a)).
    + rewrite filter_cons. destruct (decide (P a)) as [HP | HP].
      * rewrite bool_decide_eq_true_2 by done. simpl. by rewrite Hlen.
      * by rewrite bool_decide_eq_false_2 by done.
Qed.

Lemma variance_test_at h l a :
  h !! l = Some (action_obj a) ->
  exec_has_variance (VRef l) h = Some (bool_decide (variance a <> 0), h).
Proof.
  intros Hl. destruct (action_fields_lookup a) as [Hv _].
  unfold exec_has_variance. cbn [as_ref]. rewrite bind_ret.
  rewrite (bind_eq _ _ _ _ _ (get_field_at _ _ _ "variance" Hl)), Hv.
  cbn [from_option id vnum as_num]. rewrite bind_ret. unfold ret.
  do 2 f_equal. destruct (Z.eqb_spec (variance a) 0) as [Heq | Hne]; simpl.
  - by rewrite bool_decide_eq_false_2 by (by intros ?).
  - by rewrite bool_decide_eq_true_2.
Qed.

Lemma flagged_test_at h l a :
  h !! l = Some (action_obj a) ->
  exec_is_flagged (VRef l) h = Some (bool_decide (flagged a = true), h).
Proof.
  intros Hl. destruct (action_fields_lookup a) as [_ Hf].
  unfold exec_is_flagged. cbn [as_ref]. rewrite bind_ret.
  rewrite (bind_eq _ _ _ _ _ (get_field_at _ _ _ "flagged" Hl)), Hf.
  cbn [from_option id vbool as_prim]. rewrite bind_ret. unfold ret.
  do 2 f_equal. by destruct (flagged a).
Qed.

(** On the store, [calculateSessionMetrics] returns a new object that holds
    what the function on values computes for the same clock, and every object
    that was in the store is in it unchanged. *)
Lemma exec_calculateSessionMetrics_spec (now : Z) (h : heap)
    (lsess lacts : loc) (s : CountSession) (ls : list loc)
    (actions : list CountAction) :
  session_at h lsess s ->
  h !! lacts = Some (HArr (VRef <$> ls)) ->
  actions_at h ls actions ->
  exists lres h',
    exec_calculateSessionMetrics now lsess lacts h = Some (lres, h')
    /\ h ⊆ h'
    /\ h' !! lres = Some (metrics_obj (calculateSessionMetrics now s actions)).
Proof.
  intros (lbins & Hsess & Hbins) Hacts Hat.
  destruct (session_fields_lookup s lbins) as (He & Hs & Hid & Hloc & Hb & Ht).
  unfold exec_calculateSessionMetrics.
  rewrite (bind_eq _ _ _ _ _ (get_field_at _ _ _ "endTime" Hsess)), He.
  cbn [from_option id as_prim]. rewrite bind_ret.
  rewrite (bind_eq _ _ _ _ _ (get_field_at _ _ _ "startTime" Hsess)), Hs.
  cbn [from_option id vnum as_num]. rewrite bind_ret.
  set (duration := if endTime_set s then default 0 (endTime s) - startTime s
                   else now - startTime s).
  assert ((if truthy (from_option Num Null (endTime s))
           then let* finish := as_num (VPrim (from_option Num Null (endTime s)))
                in ret (finish - startTime s)
           else ret (now - startTime s)) h = Some (duration, h)) as Hdur.
  { unfold duration, endTime_set. destruct (endTime s) as [t |]; simpl.
    - by destruct (t =? 0).
    - done. }
  rewrite (bind_eq _ _ _ _ _ Hdur). cbv zeta.
  rewrite (bind_eq _ _ _ _ _ (get_field_at _ _ _ "sessionId" Hsess)), Hid.
  rewrite (bind_eq _ _ _ _ _ (get_field_at _ _ _ "location" Hsess)), Hloc.
  rewrite (bind_eq _ _ _ _ _ (get_field_at _ _ _ "bins" Hsess)), Hb.
  cbn [from_option id as_ref]. rewrite bind_ret.
  rewrite (bind_eq _ _ _ _ _ (get_arr_at _ _ _ Hbins)).
  rewrite (bind_eq _ _ _ _ _ (get_field_at _ _ _ "totalPallets" Hsess)), Ht.
  cbn [from_option id vnum as_num]. rewrite bind_ret.
  rewrite (bind_eq _ _ _ _ _ (get_arr_at _ _ _ Hacts)).
  (* the two filters *)
  destruct (filter_from_readonly h h lacts ls (fun a => variance a <> 0)
              exec_has_variance ls actions 0 (reflexivity h) Hacts
              (fun l a => variance_test_at h l a) eq_refl Hat)
    as (lvs & Hvloop & Hvlen).
  rewrite <- (length_fmap VRef ls) in Hvloop.
  rewrite (bind_eq _ _ _ _ _ (array_filter_at _ _ _ _ _ _ Hacts Hvloop)).
  set (lv := fresh (dom h)).
  set (h1 := <[lv := HArr (VRef <$> lvs)]> h).
  assert (h ⊆ h1) as Hs1 by apply insert_subseteq, fresh_lookup.
  assert (h1 !! lv = Some (HArr (VRef <$> lvs))) as Hlv
    by apply lookup_insert_eq.
  rewrite (bind_eq _ _ _ _ _ (get_arr_at _ _ _ Hlv)).
  assert (h1 !! lacts = Some (HArr (VRef <$> ls))) as Hacts1
    by (by apply (lookup_weaken h)).
  destruct (filter_from_readonly h h1 lacts ls (fun a => flagged a = true)
              exec_is_flagged ls actions 0 Hs1 Hacts
              (fun l a => flagged_test_at h1 l a) eq_refl Hat)
    as (lfs & Hfloop & Hflen).
  rewrite <- (length_fmap VRef ls) in Hfloop.
  rewrite (bind_eq _ _ _ _ _ (array_filter_at _ _ _ _ _ _ Hacts1 Hfloop)).
  set (lf := fresh (dom h1)).
  set (h2 := <[lf := HArr (VRef <$> lfs)]> h1).
  assert (h1 ⊆ h2) as Hs2 by apply insert_subseteq, fresh_lookup.
  assert (h2 !! lf = Some (HArr (VRef <$> lfs))) as Hlf
    by apply lookup_insert_eq.
  rewrite (bind_eq _ _ _ _ _ (get_arr_at _ _ _ Hlf)).
  unfold alloc. cbv zeta.
  rewrite !length_fmap, Hvlen, Hflen, (Forall2_length _ _ _ Hat).
  eexists _, _. split; [reflexivity |]. split.
  - transitivity h1; [done |]. transitivity h2; [done |].
    apply insert_subseteq, fresh_lookup.
  - rewrite lookup_insert_eq. reflexivity.
Qed.

(** * Purity *)

(** With an end time that is set, [Date.now()] is not read. *)
Lemma calculateSessionMetrics_clock (now now' : Z) (s : CountSession)
    (actions : list CountAction) :
  endTime_set s = true ->
  calculateSessionMetrics now s actions = calculateSessionMetrics now' s actions.
Proof. intros H. unfold calculateSessionMetrics. by rewrite H. Qed.

(** C6, as the code has it. None of the four functions writes to an object
    it is given: run on a store, each returns new objects and leaves every
    object of the store as it was. What [validateInventoryRow],
    [deduplicateRows] and [calculateVarianceStats] return is a function of
    what their arguments hold; what [calculateSessionMetrics] returns is a
    function of what its arguments hold and of the clock, and of the
    arguments alone once the session has an end time. *)
Theorem functions_leave_their_arguments (h : heap) :
  (forall lrow row,
     h !! lrow = Some (row_obj row) ->
     exists lres lerr h',
       exec_validateInventoryRow lrow h = Some (lres, h')
       /\ h ⊆ h'
       /\ h' !! lres = Some (validation_obj (validateInventoryRow row) lerr)
       /\ h' !! lerr = Some (HArr (vstr <$> errors (validateInventoryRow row))))
  /\ (forall lrows ls rows,
        h !! lrows = Some (HArr (VRef <$> ls)) ->
        rows_at h ls rows ->
        exists lres lu ld lus lds h',
          exec_deduplicateRows lrows h = Some (lres, h')
          /\ h ⊆ h'
          /\ h' !! lres = Some (dedup_obj (deduplicateRows rows) lu ld)
          /\ h' !! lu = Some (HArr (VRef <$> lus))
          /\ rows_at h lus (unique (deduplicateRows rows))
          /\ lus `sublist_of` ls
          /\ h' !! ld = Some (HArr (VRef <$> lds))
          /\ rows_at h' lds (duplicates (deduplicateRows rows)))
  /\ (forall lacts ls actions,
        h !! lacts = Some (HArr (VRef <$> ls)) ->
        actions_at h ls actions ->
        exists lres lp ln lz h',
          exec_calculateVarianceStats lacts h = Some (lres, h')
          /\ h ⊆ h'
          /\ h' !! lres
             = Some (stats_obj (calculateVarianceStats actions) lp ln lz)
          /\ bucket_at h h' lp (positiveVariances (calculateVarianceStats actions))
          /\ bucket_at h h' ln (negativeVariances (calculateVarianceStats actions))
          /\ bucket_at h h' lz (zeroVariances (calculateVarianceStats actions)))
  /\ (forall now lsess lacts s ls actions,
        session_at h lsess s ->
        h !! lacts = Some (HArr (VRef <$> ls)) ->
        actions_at h ls actions ->
        exists lres h',
          exec_calculateSessionMetrics now lsess lacts h = Some (lres, h')
          /\ h ⊆ h'
          /\ h' !! lres
             = Some (metrics_obj (calculateSessionMetrics now s actions))
          /\ (endTime_set s = true ->
              forall now',
                calculateSessionMetrics now' s actions
                = calculateSessionMetrics now s actions)).
Proof.
  split; [| split; [| split]].
  - apply exec_validateInventoryRow_spec.
  - apply exec_deduplicateRows_spec.
  - apply exec_calculateVarianceStats_spec.
  - intros now lsess lacts s ls actions Hs Hacts Hat.
    destruct (exec_calculateSessionMetrics_spec now h lsess lacts s ls actions
                Hs Hacts Hat) as (lres & h' & Hrun & Hsub & Hres).
    exists lres, h'. repeat split; try done.
    intros Hset now'. by apply calculateSessionMetrics_clock.
Qed.

Lemma functions_leave_their_arguments_witness :
  (exists lres lerr h',
     exec_validateInventoryRow 1 sample_store = Some (lres, h')
     /\ sample_store ⊆ h'
     /\ h' !! lres
        = Some (validation_obj (validateInventoryRow (sample_row (Num 50))) lerr)
     /\ h' !! lerr
        = Some (HArr (vstr <$> errors (validateInventoryRow (sample_row (Num 50))))))
  /\ (exists lres lu ld lus lds h',
        exec_deduplicateRows 2 sample_store = Some (lres, h')
        /\ sample_store ⊆ h'
        /\ h' !! lres
           = Some (dedup_obj (deduplicateRows [sample_row (Num 50)]) lu ld)
        /\ h' !! lu = Some (HArr (VRef <$> lus))
        /\ rows_at sample_store lus (unique (deduplicateRows [sample_row (Num 50)]))
        /\ lus `sublist_of` [1%positive]
        /\ h' !! ld = Some (HArr (VRef <$> lds))
        /\ rows_at h' lds (duplicates (deduplicateRows [sample_row (Num 50)])))
  /\ (exists lres lp ln lz h',
        exec_calculateVarianceStats 4 sample_store = Some (lres, h')
        /\ sample_store ⊆ h'
        /\ h' !! lres
           = Some (stats_obj (calculateVarianceStats [action_with 5 true])
                     lp ln lz)
        /\ bucket_at sample_store h' lp
             (positiveVariances (calculateVarianceStats [action_with 5 true]))
        /\ bucket_at sample_store h' ln
             (negativeVariances (calculateVarianceStats [action_with 5 true]))
        /\ bucket_at sample_store h' lz
             (zeroVariances (calculateVarianceStats [action_with 5 true])))
  /\ (exists lres h',
        exec_calculateSessionMetrics 99000 5 4 sample_store = Some (lres, h')
        /\ sample_store ⊆ h'
        /\ h' !! lres
           = Some (metrics_obj
                     (calculateSessionMetrics 99000 (session_with 10 (Some 61000))
                        [action_with 5 true]))
        /\ (endTime_set (session_with 10 (Some 61000)) = true ->
            forall now',
              calculateSessionMetrics now' (session_with 10 (Some 61000))
                [action_with 5 true]
              = calculateSessionMetrics 99000 (session_with 10 (Some 61000))
                  [action_with 5 true])).
Proof.
  destruct (functions_leave_their_arguments sample_store)
    as (Hvalidate & Hdedup & Hstats & Hmetrics).
  split; [| split; [| split]].
  - apply (Hvalidate 1%positive (sample_row (Num 50))). reflexivity.
  - apply (Hdedup 2%positive [1%positive] [sample_row (Num 50)]).
    + reflexivity.
    + constructor; [reflexivity | constructor].
  - apply (Hstats 4%positive [3%positive] [action_with 5 true]).
    + reflexivity.
    + constructor; [reflexivity | constructor].
  - apply (Hmetrics 99000 5%positive 4%positive (session_with 10 (Some 61000))
             [3%positive] [action_with 5 true]).
    + exists 6%positive. split; reflexivity.
    + reflexivity.
    + constructor; [reflexivity | constructor].
Defined.

(** C6 fails as stated: for a session in progress [calculateSessionMetrics]
    reads the clock, and two runs on the same session and actions differ. *)
Lemma calculateSessionMetrics_clock_counterexample :
  let s := session_with 10 None in
  durationFormatted (calculateSessionMetrics 1000 s []) = "0s"
  /\ durationFormatted (calculateSessionMetrics 61000 s []) = "1m 0s"
  /\ calculateSessionMetrics 1000 s [] <> calculateSessionMetrics 61000 s [].
Proof.
  repeat split; try (vm_compute; reflexivity).
  intros H. apply (f_equal durationSeconds) in H. vm_compute in H.
  discriminate H.
Qed.

(** * Further properties of [validateInventoryRow] *)

Lemma expiry_error_not_missing row v : expiry_error v ∉ missing_errors row.
Proof.
  rewrite elem_of_missing_errors. intros (c & Heq & _).
  unfold expiry_error, missing_error in Heq. discriminate Heq.
Qed.

Lemma expiry_error_not_quantity row v : expiry_error v ∉ quantity_errors row.
Proof.
  unfold quantity_errors. case_match; [| apply not_elem_of_nil].
  rewrite list_elem_of_singleton. unfold quantity_error, expiry_error.
  discriminate.
Qed.

Lemma NoDup_missing_errors row : NoDup (missing_errors row).
Proof.
  unfold missing_errors. apply NoDup_fmap_2_strong.
  - intros c c' _ _. apply missing_error_inj.
  - apply NoDup_filter. unfold required.
    repeat (apply NoDup_cons; split;
            [rewrite ?not_elem_of_cons; repeat split;
             try discriminate; apply not_elem_of_nil |]).
    constructor.
Qed.

(** X1: a row is valid exactly when its five required values are truthy,
    [parseInt] reads its quantity, and its expiry date is falsy or of the
    form dddd-dd-dd. *)
Theorem validate_isValid_iff (row : Row) :
  isValid (validateInventoryRow row) = true
  <-> (forall c, c ∈ required -> truthy (get row c) = true)
      /\ parseInt (get row "SystemQuantity") <> None
      /\ (truthy (get row "ExpiryDate") = false
          \/ date_regex_test (get row "ExpiryDate") = true).
Proof.
  split.
  - rewrite validate_isValid, validate_errors.
    intros (Hm & (Hq & He)%app_nil)%app_nil.
    assert (forall c, c ∈ required -> truthy (get row c) = true) as Hreq.
    { intros c Hc. destruct (truthy (get row c)) eqn:E; [done |].
      assert (missing_error c ∈ missing_errors row) as Hin
        by (apply elem_of_missing_errors; eauto).
      rewrite Hm in Hin. by apply not_elem_of_nil in Hin. }
    split; [done |]. split.
    + unfold quantity_errors, isNaN_parseInt in Hq.
      rewrite (Hreq "SystemQuantity") in Hq
        by (unfold required; do 4 apply list_elem_of_further;
            apply list_elem_of_here).
      by destruct (parseInt (get row "SystemQuantity")).
    + unfold expiry_errors in He.
      destruct (truthy (get row "ExpiryDate")); [| by left].
      destruct (date_regex_test (get row "ExpiryDate")); [by right | done].
  - intros (Hreq & Hq & Hd).
    by rewrite (validate_accepts row Hreq Hq Hd).
Qed.

(** X2: the errors are one [Missing required column] per falsy required
    column, in the order of the columns, then the quantity error, then the
    expiry error; no error comes twice, and there are at most seven. *)
Theorem validate_errors_in_order (row : Row) :
  errors (validateInventoryRow row)
  = (missing_error <$> filter (fun c => truthy (get row c) = false) required)
    ++ (if truthy (get row "SystemQuantity")
           && isNaN_parseInt (get row "SystemQuantity")
        then [quantity_error (get row "SystemQuantity")] else [])
    ++ (if truthy (get row "ExpiryDate")
           && negb (date_regex_test (get row "ExpiryDate"))
        then [expiry_error (get row "ExpiryDate")] else [])
  /\ NoDup (errors (validateInventoryRow row))
  /\ (length (errors (validateInventoryRow row)) <= 7)%nat.
Proof.
  split; [apply validate_errors |]. rewrite validate_errors. split.
  - apply NoDup_app. split; [apply NoDup_missing_errors |]. split.
    + intros e He Hin. apply elem_of_app in Hin as [Hin | Hin].
      * unfold quantity_errors in Hin. case_match;
          [| by apply not_elem_of_nil in Hin].
        apply list_elem_of_singleton in Hin as ->.
        by apply quantity_error_not_missing in He.
      * unfold expiry_errors in Hin. case_match;
          [| by apply not_elem_of_nil in Hin].
        apply list_elem_of_singleton in Hin as ->.
        by apply expiry_error_not_missing in He.
    + apply NoDup_app. split; [| split].
      * unfold quantity_errors. case_match; [apply NoDup_singleton | constructor].
      * intros e He Hin. unfold quantity_errors in He. case_match;
          [| by apply not_elem_of_nil in He].
        apply list_elem_of_singleton in He as ->.
        by apply quantity_error_not_expiry in Hin.
      * unfold expiry_errors. case_match; [apply NoDup_singleton | constructor].
  - rewrite !length_app. unfold missing_errors. rewrite length_fmap.
    pose proof (length_filter (fun c => truthy (get row c) = false) required) as H.
    change (length required) with 5%nat in H.
    unfold quantity_errors, expiry_errors. repeat case_match; simpl; lia.
Qed.

(** X3: the expiry error is reported exactly when the value is truthy and
    not of the form dddd-dd-dd; a value that passes the test has ten
    characters, whatever date they spell. *)
Theorem expiry_error_iff (row : Row) :
  let v := get row "ExpiryDate" in
  (expiry_error v ∈ errors (validateInventoryRow row)
   <-> truthy v = true /\ date_regex_test v = false)
  /\ (date_regex_test v = true -> String.length (js_string v) = 10%nat).
Proof.
  cbv zeta. split.
  - rewrite validate_errors, !elem_of_app. split.
    + intros [H | [H | H]].
      * by apply expiry_error_not_missing in H.
      * by apply expiry_error_not_quantity in H.
      * unfold expiry_errors in H.
        destruct (truthy (get row "ExpiryDate")); simpl in H;
          [| by apply not_elem_of_nil in H].
        destruct (date_regex_test (get row "ExpiryDate")); [| done].
        by apply not_elem_of_nil in H.
    + intros [Ht Hd]. right. right. unfold expiry_errors. rewrite Ht, Hd.
      apply list_elem_of_here.
  - unfold date_regex_test, date_pattern.
    generalize (js_string (get row "ExpiryDate")). intros s H.
    do 10 (destruct s as [| ? s]; [discriminate H |];
           cbn [match_all] in H; apply andb_prop in H as [_ H]).
    destruct s; [reflexivity | discriminate H].
Qed.

Lemma expiry_error_iff_witness :
  date_regex_test (Str "2024-13-45") = true
  /\ String.length
       (js_string (get (<["ExpiryDate" := Str "2024-13-45"]> (sample_row (Num 50)))
                     "ExpiryDate")) = 10%nat.
Proof.
  split; [reflexivity |].
  apply (proj2 (expiry_error_iff
                  (<["ExpiryDate" := Str "2024-13-45"]> (sample_row (Num 50))))).
  reflexivity.
Defined.

Ltac in_list := repeat first [apply list_elem_of_here | apply list_elem_of_further].

(** Validation reads six columns and no other. *)
Lemma validate_ext_on (r1 r2 : Row) :
  (forall c, c ∈ required \/ c = "ExpiryDate" -> get r1 c = get r2 c) ->
  validateInventoryRow r1 = validateInventoryRow r2.
Proof.
  intros H. unfold validateInventoryRow, required.
  cbn [fold_left]. unfold check_required.
  rewrite (H "Location"), (H "Bin"), (H "PalletID"), (H "ItemNumber"),
    (H "SystemQuantity"), (H "ExpiryDate");
    first [reflexivity | by right | left; unfold required; in_list].
Qed.

(** X4: a column other than the five required ones and ExpiryDate is
    ignored: setting it or removing it does not change the result. *)
Theorem validate_ignores_other_columns (row : Row) (k : string) (v : prim) :
  k ∉ required -> k <> "ExpiryDate" ->
  validateInventoryRow (<[k := v]> row) = validateInventoryRow row
  /\ validateInventoryRow (delete k row) = validateInventoryRow row.
Proof.
  intros Hk He.
  assert (forall c, c ∈ required \/ c = "ExpiryDate" -> k <> c) as Hne.
  { intros c Hc Heq. subst c. destruct Hc; [by apply Hk | by apply He]. }
  split; apply validate_ext_on; intros c Hc; unfold get.
  - by rewrite lookup_insert_ne by (by apply Hne).
  - by rewrite lookup_delete_ne by (by apply Hne).
Qed.

Lemma validate_ignores_other_columns_witness :
  validateInventoryRow (<["Description" := Num 0]> (sample_row (Num 50)))
  = validateInventoryRow (sample_row (Num 50))
  /\ validateInventoryRow (delete "Description" (sample_row (Num 50)))
     = validateInventoryRow (sample_row (Num 50)).
Proof.
  apply (validate_ignores_other_columns (sample_row (Num 50)) "Description").
  - unfold required. rewrite !not_elem_of_cons.
    repeat split; try discriminate. apply not_elem_of_nil.
  - discriminate.
Defined.

(** X5: the sign of the quantity is not looked at: a row with a negative
    integer quantity, truthy required values and no expiry date is valid,
    although the [validation] of [systemQuantity] in the schema rejects the
    value. *)
Theorem validate_accepts_negative_quantity (row : Row) (z : Z) :
  z < 0 ->
  get row "SystemQuantity" = Num z ->
  (forall c, c ∈ required -> truthy (get row c) = true) ->
  truthy (get row "ExpiryDate") = false ->
  validateInventoryRow row = {| isValid := true; errors := [] |}
  /\ systemQuantity_validation (get row "SystemQuantity") = false.
Proof.
  intros Hz Hq Hreq He. split.
  - apply validate_accepts; [done | | by left].
    by rewrite Hq, parseInt_Num.
  - rewrite Hq. simpl. by apply Z.leb_gt.
Qed.

Lemma validate_accepts_negative_quantity_witness :
  validateInventoryRow (sample_row (Num (-5)))
  = {| isValid := true; errors := [] |}
  /\ systemQuantity_validation (get (sample_row (Num (-5))) "SystemQuantity")
     = false.
Proof.
  apply (validate_accepts_negative_quantity (sample_row (Num (-5))) (-5)).
  - lia.
  - reflexivity.
  - intros c Hc. unfold required in Hc.
    repeat (apply elem_of_cons in Hc as [-> | Hc]; [reflexivity |]).
    by apply not_elem_of_nil in Hc.
  - reflexivity.
Defined.

(** * Further properties of [deduplicateRows] *)

#[local] Set Warnings "-clear-no-such-hyp".

Lemma filter_st_app {A S : Type} (cb : A -> S -> bool * S) (l1 l2 : list A)
    (st : S) :
  filter_st cb (l1 ++ l2) st
  = let '(k1, st1) := filter_st cb l1 st in
    let '(k2, st2) := filter_st cb l2 st1 in
    (k1 ++ k2, st2).
Proof.
  revert st. induction l1 as [| x l1 IH]; intros st; simpl.
  - by destruct (filter_st cb l2 st).
  - destruct (cb x st) as [keep st1]. rewrite IH.
    destruct (filter_st cb l1 st1) as [k1 st2].
    destruct (filter_st cb l2 st2) as [k2 st3]. by destruct keep.
Qed.

(** The keys seen after a run: those seen before, and those of the rows. *)
Lemma filter_st_dedup_dom rows st kept st' :
  filter_st dedup_callback rows st = (kept, st') ->
  dom (seen st') = dom (seen st) ∪ list_to_set (dedupKey <$> rows)
  /\ dom (seen st') = dom (seen st) ∪ list_to_set (dedupKey <$> kept).
Proof.
  revert st kept st'. induction rows as [| row rows IH]; intros st kept st' H.
  - simpl in H. injection H as <- <-. simpl. split; set_solver.
  - dedup_cases H row st; apply IH in H as [H1 H2]; simpl in H1, H2;
      rewrite ?dom_insert_L in H1, H2; rewrite ?fmap_cons, ?list_to_set_cons;
      split; set_solver.
Qed.

Lemma filter_st_dedup_rejected rows st kept st' :
  filter_st dedup_callback rows st = (kept, st') ->
  exists rejected,
    dups st' = dups st ++ (with_reason <$> rejected)
    /\ rejected `sublist_of` rows
    /\ kept ++ rejected ≡ₚ rows
    /\ forall r, r ∈ rejected ->
         dedupKey r ∈ dom (seen st)
         \/ exists u, u ∈ kept /\ dedupKey u = dedupKey r.
Proof.
  revert st kept st'. induction rows as [| row rows IH]; intros st kept st' H.
  - simpl in H. injection H as <- <-. exists [].
    rewrite app_nil_r. repeat split; try done.
    intros r Hr. by apply not_elem_of_nil in Hr.
  - dedup_cases H row st;
      apply IH in H as (rejected & Hd & Hsub & Hperm & Hkeys); simpl in *.
    + exists (row :: rejected). rewrite Hd, fmap_cons, <- app_assoc.
      repeat split; try done.
      * by constructor.
      * by rewrite <- Permutation_middle, Hperm.
      * intros r [-> | Hr]%elem_of_cons; [by left | by apply Hkeys].
    + exists rejected. repeat split; try done.
      * by constructor.
      * by rewrite Hperm.
      * intros r Hr. destruct (Hkeys r Hr) as [Hin | (u & Hu & Hk)].
        -- rewrite dom_insert_L in Hin.
           apply elem_of_union in Hin as [Hin%elem_of_singleton | Hin];
             [| by left].
           right. exists row. split; [apply list_elem_of_here | done].
        -- right. exists u. split; [by apply list_elem_of_further | done].
Qed.

(** Rows with distinct keys, none of them seen, are all kept. *)
Lemma filter_st_dedup_distinct rows st :
  NoDup (dedupKey <$> rows) ->
  (forall r, r ∈ rows -> dedupKey r ∉ dom (seen st)) ->
  exists m,
    filter_st dedup_callback rows st = (rows, {| seen := m; dups := dups st |}).
Proof.
  revert st. induction rows as [| row rows IH]; intros st Hnd Hnew.
  - exists (seen st). by destruct st.
  - rewrite fmap_cons in Hnd. apply NoDup_cons in Hnd as [Hrow Hnd].
    destruct (dedup_callback_cases row st) as [[Hkey _] | [_ Heq]].
    { exfalso. apply (Hnew row); [apply list_elem_of_here | done]. }
    destruct (IH {| seen := <[dedupKey row := row]> (seen st); dups := dups st |}
                Hnd) as [m Hm].
    { intros r Hr. simpl. rewrite dom_insert_L.
      apply not_elem_of_union. split.
      - apply not_elem_of_singleton. intros Heq'. apply Hrow.
        rewrite <- Heq'. by apply list_elem_of_fmap_2.
      - apply Hnew. by apply list_elem_of_further. }
    exists m. cbn [filter_st]. rewrite Heq, Hm. reflexivity.
Qed.

(** With more keys seen at the start, the rows kept are those that were kept
    and have none of these keys. *)
Lemma filter_st_dedup_seen (K : gset string) rows st1 st2 kept1 kept2 st1' st2' :
  dom (seen st2) = dom (seen st1) ∪ K ->
  filter_st dedup_callback rows st1 = (kept1, st1') ->
  filter_st dedup_callback rows st2 = (kept2, st2') ->
  kept2 = filter (fun r => dedupKey r ∉ K) kept1.
Proof.
  revert st1 st2 kept1 kept2 st1' st2'.
  induction rows as [| row rows IH];
    intros st1 st2 kept1 kept2 st1' st2' Hdom H1 H2.
  - simpl in H1, H2. injection H1 as <- <-. injection H2 as <- <-. done.
  - dedup_cases H1 row st1; dedup_cases H2 row st2.
    + eapply IH; [| exact H1 | exact H2]. done.
    + exfalso. rewrite Hdom in Hkey0. set_solver.
    + rewrite filter_cons. rewrite Hdom in Hkey0.
      rewrite decide_False by set_solver.
      eapply IH; [| exact H1 | exact H2].
      simpl. rewrite dom_insert_L. set_solver.
    + rewrite filter_cons. rewrite Hdom in Hkey0.
      rewrite decide_True by set_solver. f_equal.
      eapply IH; [| exact H1 | exact H2].
      simpl. rewrite !dom_insert_L. set_solver.
Qed.

Lemma dedup_run rows :
  exists kept st',
    filter_st dedup_callback rows {| seen := ∅; dups := [] |} = (kept, st')
    /\ deduplicateRows rows
       = {| unique := kept; duplicates := dups st';
            deduplicationCount := length (dups st') |}.
Proof.
  rewrite deduplicateRows_eq.
  destruct (filter_st dedup_callback rows _) as [kept st']. by exists kept, st'.
Qed.

(** X6: the duplicates are the rejected rows of the input, in their order,
    each with the reason added; together with the unique rows they are the
    input up to order, and every rejected row has a unique row with its
    key. *)
Theorem deduplicateRows_duplicates (rows : list Row) :
  exists rejected,
    duplicates (deduplicateRows rows) = with_reason <$> rejected
    /\ rejected `sublist_of` rows
    /\ unique (deduplicateRows rows) ++ rejected ≡ₚ rows
    /\ (forall r, r ∈ rejected ->
          exists u, u ∈ unique (deduplicateRows rows)
                    /\ dedupKey u = dedupKey r)
    /\ (forall d, d ∈ duplicates (deduplicateRows rows) ->
          d !! "reason" = Some (Str "Duplicate PalletID+Bin")).
Proof.
  destruct (dedup_run rows) as (kept & st' & Hrun & ->). simpl.
  destruct (filter_st_dedup_rejected _ _ _ _ Hrun)
    as (rejected & Hd & Hsub & Hperm & Hkeys). simpl in Hd.
  exists rejected. rewrite Hd. repeat split; try done.
  - intros r Hr. destruct (Hkeys r Hr) as [Hin | Hu]; [| done].
    simpl in Hin. rewrite dom_empty_L in Hin. by apply not_elem_of_empty in Hin.
  - intros d (r & -> & _)%list_elem_of_fmap. apply lookup_insert_eq.
Qed.

(** X7: nothing is rejected exactly when the keys of the rows are
    distinct. *)
Theorem deduplicateRows_distinct_keys (rows : list Row) :
  NoDup (dedupKey <$> rows)
  <-> deduplicateRows rows
      = {| unique := rows; duplicates := []; deduplicationCount := 0 |}.
Proof.
  split.
  - intros Hnd.
    destruct (filter_st_dedup_distinct rows {| seen := ∅; dups := [] |} Hnd)
      as [m Hm].
    { intros r _. simpl. rewrite dom_empty_L. apply not_elem_of_empty. }
    rewrite deduplicateRows_eq, Hm. reflexivity.
  - intros Heq. destruct (dedup_run rows) as (kept & st' & Hrun & Hres).
    rewrite Hres in Heq. injection Heq as -> _ _.
    apply (filter_st_dedup_NoDup _ _ _ _ Hrun).
Qed.

(** X8: deduplicating the unique rows once more rejects nothing. *)
Theorem deduplicateRows_idempotent (rows : list Row) :
  deduplicateRows (unique (deduplicateRows rows))
  = {| unique := unique (deduplicateRows rows); duplicates := [];
       deduplicationCount := 0 |}.
Proof.
  destruct (dedup_run rows) as (kept & st' & Hrun & ->). simpl.
  destruct (filter_st_dedup_distinct kept {| seen := ∅; dups := [] |})
    as [m Hm].
  - apply (filter_st_dedup_NoDup _ _ _ _ Hrun).
  - intros r _. simpl. rewrite dom_empty_L. apply not_elem_of_empty.
  - rewrite deduplicateRows_eq, Hm. reflexivity.
Qed.

(** X9: rows that come after do not change the verdict on the rows before:
    the unique rows of [l1 ++ l2] are those of [l1], followed by those of
    [l2] whose key no row of [l1] has. *)
Theorem deduplicateRows_app (l1 l2 : list Row) :
  unique (deduplicateRows (l1 ++ l2))
  = unique (deduplicateRows l1)
    ++ filter (fun r => dedupKey r ∉ (list_to_set (dedupKey <$> l1) : gset string))
         (unique (deduplicateRows l2))
  /\ unique (deduplicateRows l1) `prefix_of` unique (deduplicateRows (l1 ++ l2))
  /\ duplicates (deduplicateRows l1)
     `prefix_of` duplicates (deduplicateRows (l1 ++ l2)).
Proof.
  rewrite !deduplicateRows_eq. cbv zeta. rewrite filter_st_app.
  destruct (filter_st dedup_callback l1 _) as [k1 st1] eqn:H1.
  destruct (filter_st dedup_callback l2 st1) as [k2 st2] eqn:H2.
  destruct (filter_st dedup_callback l2 {| seen := ∅; dups := [] |})
    as [k2' st2'] eqn:H2'.
  simpl.
  destruct (filter_st_dedup_dom _ _ _ _ H1) as [Hdom _]. simpl in Hdom.
  assert (k2 = filter
            (fun r => dedupKey r ∉ (list_to_set (dedupKey <$> l1) : gset string))
            k2') as ->.
  { apply (filter_st_dedup_seen _ l2 {| seen := ∅; dups := [] |} st1
             k2' k2 st2' st2); [| done | done].
    by rewrite Hdom. }
  split; [done |]. split; [by eexists |].
  destruct (filter_st_dedup_rejected _ _ _ _ H2) as (rejected & -> & _).
  by eexists.
Qed.

(** X10: no key is lost: the keys of the unique rows are the keys of the
    input. *)
Theorem deduplicateRows_keys (rows : list Row) :
  (list_to_set (dedupKey <$> unique (deduplicateRows rows)) : gset string)
  = list_to_set (dedupKey <$> rows).
Proof.
  destruct (dedup_run rows) as (kept & st' & Hrun & ->). simpl.
  destruct (filter_st_dedup_dom _ _ _ _ Hrun) as [H1 H2]. simpl in H1, H2.
  rewrite dom_empty_L in H1, H2. set_solver.
Qed.

(** ** The pattern of the schema and the key *)

Lemma all_chars_no_bar s : all_chars is_code_char s = true -> no_bar s = true.
Proof.
  induction s as [| c s IH]; [done |]. simpl.
  intros [Hc Hs]%andb_prop. rewrite IH by done. rewrite andb_true_r.
  destruct (Ascii.eqb_spec c "|") as [-> | _]; [discriminate Hc | done].
Qed.

(** X11: on rows whose Bin passes the [validation] of [bin] in the schema,
    two rows have the same key exactly when their PalletID and Bin read the
    same as text. *)
Theorem dedupKey_schema_bins (r r' : Row) :
  code_pattern_test (get r "Bin") = true ->
  code_pattern_test (get r' "Bin") = true ->
  dedupKey r = dedupKey r' <-> pallet_bin_text r = pallet_bin_text r'.
Proof.
  unfold code_pattern_test. intros [_ H]%andb_prop [_ H']%andb_prop. split.
  - apply dedupKey_inj; by apply all_chars_no_bar.
  - unfold pallet_bin_text, dedupKey. by intros [= -> ->].
Qed.

Lemma dedupKey_schema_bins_witness :
  dedupKey (inventory_row (Str "PAL-001") (Str "A-1"))
  = dedupKey (inventory_row (Num 7) (Str "A-1"))
  <-> pallet_bin_text (inventory_row (Str "PAL-001") (Str "A-1"))
      = pallet_bin_text (inventory_row (Num 7) (Str "A-1")).
Proof.
  apply (dedupKey_schema_bins (inventory_row (Str "PAL-001") (Str "A-1"))
           (inventory_row (Num 7) (Str "A-1"))); vm_compute; reflexivity.
Defined.

(** * Further properties of the statistics and the metrics *)

Lemma accuracyPercentage_eq (actions : list CountAction) :
  accuracyPercentage (calculateVarianceStats actions)
  = toFixed2 (js_times100
      (js_div (Qnat (length (filter (fun a => variance a = 0) actions)))
              (Qnat (length actions)))).
Proof.
  destruct (calculateVarianceStats_fields actions) as (Hn & _ & _ & _ & Hz & _).
  change (accuracyPercentage (calculateVarianceStats actions))
    with (toFixed2 (js_times100
            (js_div (Qnat (length (zeroVariances (calculateVarianceStats actions))))
                    (Qnat (totalActions (calculateVarianceStats actions)))))).
  by rewrite Hn, Hz.
Qed.

Lemma sum_Z_app l1 l2 : sum_Z (l1 ++ l2) = sum_Z l1 + sum_Z l2.
Proof. induction l1 as [| x l1 IH]; simpl; [done |]. rewrite IH. lia. Qed.

Lemma sum_Z_Permutation l1 l2 : l1 ≡ₚ l2 -> sum_Z l1 = sum_Z l2.
Proof. induction 1; simpl; lia. Qed.

(** X12: the statistics of two lists put end to end: the buckets are put end
    to end and the counts add up; the totals add up when the running totals
    of the whole list and of the second list stay within [2^53], where the
    additions of doubles are exact. *)
Theorem calculateVarianceStats_app (l1 l2 : list CountAction) :
  let s := calculateVarianceStats (l1 ++ l2) in
  let s1 := calculateVarianceStats l1 in
  let s2 := calculateVarianceStats l2 in
  totalActions s = (totalActions s1 + totalActions s2)%nat
  /\ (Forall exact_int (partial_sums (variance <$> l1 ++ l2)) ->
      Forall exact_int (partial_sums (variance <$> l2)) ->
      totalVariance s = totalVariance s1 + totalVariance s2)
  /\ positiveVariances s = positiveVariances s1 ++ positiveVariances s2
  /\ negativeVariances s = negativeVariances s1 ++ negativeVariances s2
  /\ zeroVariances s = zeroVariances s1 ++ zeroVariances s2
  /\ varianceCount s = (varianceCount s1 + varianceCount s2)%nat.
Proof.
  cbv zeta. split; [| split].
  - destruct (calculateVarianceStats_fields (l1 ++ l2)) as (-> & _).
    destruct (calculateVarianceStats_fields l1) as (-> & _).
    destruct (calculateVarianceStats_fields l2) as (-> & _).
    by rewrite length_app.
  - intros H12 H2. rewrite !totalVariance_exact; try done.
    + by rewrite fmap_app, sum_Z_app.
    + unfold partial_sums in *. rewrite fmap_app, running_totals_app in H12.
      by apply Forall_app in H12 as [H1 _].
  - destruct (calculateVarianceStats_fields (l1 ++ l2))
      as (_ & _ & -> & -> & -> & ->).
    destruct (calculateVarianceStats_fields l1) as (_ & _ & -> & -> & -> & ->).
    destruct (calculateVarianceStats_fields l2) as (_ & _ & -> & -> & -> & ->).
    rewrite !filter_app, !length_app.
    repeat split; lia.
Qed.

Lemma calculateVarianceStats_app_witness :
  totalVariance
    (calculateVarianceStats
       ([action_with 3 false; action_with (-7) true] ++ [action_with 5 false]))
  = totalVariance
      (calculateVarianceStats [action_with 3 false; action_with (-7) true])
    + totalVariance (calculateVarianceStats [action_with 5 false]).
Proof.
  apply (proj1 (proj2 (calculateVarianceStats_app
           [action_with 3 false; action_with (-7) true] [action_with 5 false])));
    repeat constructor; unfold exact_int; simpl; lia.
Defined.

(** X13: the order of the actions does not matter to the numbers: two lists
    with the same actions in another order have the same counts and
    accuracy, and buckets with the same actions; they have the same total
    when the running totals of both stay within [2^53], where the additions
    of doubles are exact. *)
Theorem calculateVarianceStats_Permutation (l1 l2 : list CountAction) :
  l1 ≡ₚ l2 ->
  let s1 := calculateVarianceStats l1 in
  let s2 := calculateVarianceStats l2 in
  totalActions s1 = totalActions s2
  /\ (Forall exact_int (partial_sums (variance <$> l1)) ->
      Forall exact_int (partial_sums (variance <$> l2)) ->
      totalVariance s1 = totalVariance s2)
  /\ varianceCount s1 = varianceCount s2
  /\ accuracyPercentage s1 = accuracyPercentage s2
  /\ positiveVariances s1 ≡ₚ positiveVariances s2
  /\ negativeVariances s1 ≡ₚ negativeVariances s2
  /\ zeroVariances s1 ≡ₚ zeroVariances s2.
Proof.
  intros Hperm. cbv zeta. rewrite !accuracyPercentage_eq.
  split; [| split].
  - destruct (calculateVarianceStats_fields l1) as (-> & _).
    destruct (calculateVarianceStats_fields l2) as (-> & _).
    by rewrite Hperm.
  - intros H1 H2. rewrite !totalVariance_exact by done.
    apply sum_Z_Permutation. by rewrite Hperm.
  - destruct (calculateVarianceStats_fields l1) as (_ & _ & -> & -> & -> & ->).
    destruct (calculateVarianceStats_fields l2) as (_ & _ & -> & -> & -> & ->).
    repeat split.
  + by rewrite Hperm.
  + by rewrite Hperm.
  + by rewrite Hperm.
  + by rewrite Hperm.
  + by rewrite Hperm.
Qed.

Lemma calculateVarianceStats_Permutation_witness :
  let s1 := calculateVarianceStats [action_with 3 false; action_with 0 true] in
  let s2 := calculateVarianceStats [action_with 0 true; action_with 3 false] in
  totalVariance s1 = totalVariance s2
  /\ accuracyPercentage s1 = accuracyPercentage s2.
Proof.
  pose proof (calculateVarianceStats_Permutation
                [action_with 3 false; action_with 0 true]
                [action_with 0 true; action_with 3 false]
                (perm_swap _ _ _)) as (_ & Ht & _ & Ha & _).
  split; [| exact Ha].
  apply Ht; repeat constructor; unfold exact_int; simpl; lia.
Defined.

(** X14: on a list that is not empty, the accuracy is [100.00] when no action
    has a variance, and [0.00] when every action has one. *)
Theorem accuracyPercentage_extremes (actions : list CountAction) :
  actions <> [] ->
  (Forall (fun a => variance a = 0) actions ->
   accuracyPercentage (calculateVarianceStats actions) = "100.00"
   /\ varianceCount (calculateVarianceStats actions) = 0%nat
   /\ totalVariance (calculateVarianceStats actions) = 0)
  /\ (Forall (fun a => variance a <> 0) actions ->
      accuracyPercentage (calculateVarianceStats actions) = "0.00"
      /\ varianceCount (calculateVarianceStats actions) = length actions).
Proof.
  intros Hne.
  assert (0 < Z.of_nat (length actions)) as Hlen
    by (destruct actions; [done | simpl; lia]).
  rewrite accuracyPercentage_eq.
  destruct (calculateVarianceStats_fields actions) as (_ & -> & _ & _ & _ & ->).
  pose proof (length_filter_sign actions) as Hsplit.
  split; intros Hall.
  - assert (filter (fun a => variance a = 0) actions = actions) as Hz.
    { clear -Hall. induction Hall as [| a l Ha _ IH]; [done |].
      rewrite filter_cons, decide_True by done. by rewrite IH. }
    rewrite Hz in *. split; [| split].
    + unfold Qnat. by apply toFixed2_all.
    + lia.
    + clear -Hall. induction Hall as [| a l Ha _ IH]; [done |].
      rewrite fmap_cons. cbn [fold_left]. by rewrite Ha.
  - assert (filter (fun a => variance a = 0) actions = []) as Hz.
    { clear -Hall. induction Hall as [| a l Ha _ IH]; [done |].
      by rewrite filter_cons, decide_False by done. }
    rewrite Hz in *. split.
    + unfold Qnat. by apply toFixed2_none.
    + simpl in Hsplit. lia.
Qed.

Lemma accuracyPercentage_extremes_witness :
  accuracyPercentage
    (calculateVarianceStats [action_with 0 false; action_with 0 true])
  = "100.00"
  /\ accuracyPercentage
       (calculateVarianceStats [action_with 2 false; action_with (-1) true])
     = "0.00".
Proof.
  split.
  - apply (accuracyPercentage_extremes [action_with 0 false; action_with 0 true]);
      [discriminate |].
    repeat constructor.
  - apply (accuracyPercentage_extremes
             [action_with 2 false; action_with (-1) true]); [discriminate |].
    repeat constructor; discriminate.
Defined.

Lemma length_filter_nonzero (actions : list CountAction) :
  length (filter (fun a => variance a <> 0) actions)
  = (length (filter (fun a => (0 < variance a)%Z) actions)
     + length (filter (fun a => (variance a < 0)%Z) actions))%nat.
Proof.
  induction actions as [| a actions IH]; [done |].
  rewrite !filter_cons. repeat case_decide; simpl; lia.
Qed.

(** X15: the metrics and the statistics of the same actions agree:
    [varianceCount] is the same number in both, [countedPallets] is
    [totalActions]; and the flagged and the variance counts are at most the
    number of actions. *)
Theorem metrics_agree_with_stats (now : Z) (session : CountSession)
    (actions : list CountAction) :
  let m := calculateSessionMetrics now session actions in
  let s := calculateVarianceStats actions in
  m_varianceCount m = varianceCount s
  /\ countedPallets m = totalActions s
  /\ (m_varianceCount m + length (zeroVariances s) = countedPallets m)%nat
  /\ (flaggedCount m <= countedPallets m)%nat.
Proof.
  cbv zeta.
  destruct (calculateVarianceStats_fields actions) as (-> & _ & _ & _ & -> & ->).
  unfold calculateSessionMetrics. simpl.
  pose proof (length_filter_sign actions).
  pose proof (length_filter_nonzero actions).
  pose proof (length_filter (fun a => flagged a = true) actions).
  repeat split; lia.
Qed.



(** X17: with a positive [totalPallets], the completion is [100.00] when as
    many actions as pallets are given, and [0.00] when none is. *)
Theorem completionPercentage_extremes (now : Z) (session : CountSession)
    (actions : list CountAction) :
  0 < totalPallets session ->
  (Z.of_nat (length actions) = totalPallets session ->
   completionPercentage (calculateSessionMetrics now session actions) = "100.00")
  /\ (actions = [] ->
      completionPercentage (calculateSessionMetrics now session actions) = "0.00").
Proof.
  intros Hp. unfold calculateSessionMetrics. cbn [completionPercentage].
  unfold Qnat. split.
  - intros ->. by apply toFixed2_all.
  - intros ->. by apply toFixed2_none.
Qed.

Lemma completionPercentage_extremes_witness :
  completionPercentage
    (calculateSessionMetrics 0 (session_with 2 None)
       [action_with 0 false; action_with 1 false]) = "100.00"
  /\ completionPercentage (calculateSessionMetrics 0 (session_with 2 None) [])
     = "0.00".
Proof.
  split.
  - apply (completionPercentage_extremes 0 (session_with 2 None)
             [action_with 0 false; action_with 1 false]); [simpl; lia | done].
  - apply (completionPercentage_extremes 0 (session_with 2 None) []);
      [simpl; lia | done].
Defined.

(** X18: when every variance is the [computed] of the schema, counted minus
    system, the buckets hold the actions counted above, below and at the
    system quantity, and [totalVariance] is the counted total minus the
    system total as long as the running totals of the variances stay within
    [2^53], where the additions of doubles are exact. *)
Theorem calculateVarianceStats_computed (actions : list CountAction) :
  Forall (fun a => variance a = variance_computed a) actions ->
  let s := calculateVarianceStats actions in
  (Forall exact_int (partial_sums (variance <$> actions)) ->
   totalVariance s
   = sum_Z (countedQuantity <$> actions) - sum_Z (systemQuantity <$> actions))
  /\ positiveVariances s
     = filter (fun a => systemQuantity a < countedQuantity a) actions
  /\ negativeVariances s
     = filter (fun a => countedQuantity a < systemQuantity a) actions
  /\ zeroVariances s
     = filter (fun a => countedQuantity a = systemQuantity a) actions.
Proof.
  intros Hall. cbv zeta. unfold variance_computed in Hall. split.
  - intros Hex. rewrite totalVariance_exact by done. clear Hex.
    induction Hall as [| a l Ha Hall IH]; [done |].
    rewrite !fmap_cons. unfold sum_Z in *. simpl. lia.
  - destruct (calculateVarianceStats_fields actions)
      as (_ & _ & -> & -> & -> & _).
    induction Hall as [| a l Ha Hall IH]; [done |].
    destruct IH as (IH2 & IH3 & IH4).
    rewrite !filter_cons, IH2, IH3, IH4.
    repeat split; repeat case_decide; try done; lia.
Qed.

Lemma calculateVarianceStats_computed_witness :
  let actions := [action_with 4 false; action_with 0 false] in
  let s := calculateVarianceStats actions in
  totalVariance s
  = sum_Z (countedQuantity <$> actions) - sum_Z (systemQuantity <$> actions)
  /\ positiveVariances s
     = filter (fun a => systemQuantity a < countedQuantity a) actions.
Proof.
  intros actions s.
  pose proof (calculateVarianceStats_computed
                [action_with 4 false; action_with 0 false]) as H.
  destruct H as (Ht & Hp & _); [repeat constructor |].
  split; [| exact Hp].
  apply Ht. repeat constructor; unfold exact_int; simpl; lia.
Defined.

(** * Further properties of [formatDuration] *)

(** X19: a negative duration is rendered by its seconds alone, the remainder
    by 60 with its sign: the hours and the minutes are dropped. *)
Theorem formatDuration_negative (seconds : Z) :
  seconds < 0 ->
  formatDuration seconds = pretty (Z.rem seconds 60) +:+ "s"
  /\ -60 < Z.rem seconds 60 <= 0.
Proof.
  intros Hs. split.
  - unfold formatDuration. cbv zeta.
    assert (js_floor_div seconds 3600 <= 0) as Hh
      by (apply js_floor_div_nonpos; lia).
    assert (Z.rem seconds 3600 <= 0) as Hr
      by (apply Z.rem_bound_pos_neg; lia).
    assert (js_floor_div (Z.rem seconds 3600) 60 <= 0) as Hm
      by (apply js_floor_div_nonpos; lia).
    destruct (Z.gtb_spec (js_floor_div seconds 3600) 0); [lia |].
    destruct (Z.gtb_spec (js_floor_div (Z.rem seconds 3600) 60) 0);
      [lia | done].
  - pose proof (Z.rem_bound_pos_neg seconds 60). lia.
Qed.

Lemma formatDuration_negative_witness :
  formatDuration (-3700) = pretty (Z.rem (-3700) 60) +:+ "s"
  /\ -60 < Z.rem (-3700) 60 <= 0.
Proof. apply (formatDuration_negative (-3700)). lia. Defined.

(** ** Reading a duration back *)

Lemma pretty_N_go_app x s t : pretty_N_go x s +:+ t = pretty_N_go x (s +:+ t).
Proof.
  revert s. induction (N.lt_wf_0 x) as [x _ IH]; intros s.
  destruct (decide (x = 0)%N) as [-> | Hx]; [by rewrite !pretty_N_go_0 |].
  assert (0 < x)%N as Hpos by lia.
  rewrite (pretty_N_go_step x s), (pretty_N_go_step x (s +:+ t)) by done.
  rewrite IH by (apply N.div_lt; lia). by rewrite append_cons.
Qed.

Lemma read_digits_pretty_N_go x s :
  (0 < x)%N ->
  exists k, forall acc,
    read_digits (pretty_N_go x s) acc
    = read_digits s (Some (10 ^ k * default 0 acc + x)%N).
Proof.
  revert s. induction (N.lt_wf_0 x) as [x _ IH]; intros s Hx.
  rewrite pretty_N_go_step by done.
  destruct (decide (x `div` 10 = 0)%N) as [Hq | Hq].
  - rewrite Hq, pretty_N_go_0. exists 1%N. intros acc. cbn [read_digits].
    assert (x < 10)%N by (apply N.div_small_iff in Hq; lia).
    rewrite N.mod_small by done.
    by rewrite digit_val_pretty_N_char by done.
  - assert (x `div` 10 < x)%N as Hlt by (apply N.div_lt; lia).
    assert (0 < x `div` 10)%N as Hpos by by apply N.neq_0_lt_0.
    destruct (IH _ Hlt (String (pretty_N_char (x `mod` 10)) s) Hpos) as [k Hk].
    exists (k + 1)%N. intros acc. rewrite Hk. cbn [read_digits].
    rewrite digit_val_pretty_N_char by (apply N.mod_lt; lia).
    do 2 f_equal. cbn [default from_option id].
    rewrite N.pow_add_r, N.pow_1_r.
    pose proof (N.div_mod x 10). lia.
Qed.

(** The numeral of [z >= 0], then a character that is no digit: the number
    is read, and the rest is left. *)
Lemma read_unit_pretty (z : Z) (u : ascii) (t : string) :
  0 <= z -> digit_val 10 u = None ->
  read_unit (pretty z +:+ String u t) = Some (Z.to_N z, u, t).
Proof.
  intros Hz Hu. unfold read_unit.
  destruct z as [| p | p]; [| | lia].
  - change (pretty 0 +:+ String u t) with (String "0" (String u t)).
    cbn [read_digits]. change (digit_val 10 "0") with (Some 0%N).
    cbn [read_digits]. by rewrite Hu.
  - change (pretty (Z.pos p)) with (pretty (N.pos p)).
    unfold pretty, pretty_N. rewrite decide_False by done.
    rewrite pretty_N_go_app, append_nil_l.
    destruct (read_digits_pretty_N_go (N.pos p) (String u t)) as [k ->]; [lia |].
    cbn [read_digits]. rewrite Hu. cbn [default from_option id].
    by replace (10 ^ k * 0 + N.pos p)%N with (Z.to_N (Z.pos p)) by lia.
Qed.

Lemma parse_duration_s (s : Z) :
  0 <= s -> parse_duration (pretty s +:+ "s") = Some (Z.to_N s).
Proof.
  intros Hs. unfold parse_duration.
  change (pretty s +:+ "s") with (pretty s +:+ String "s" "").
  by rewrite read_unit_pretty.
Qed.

Lemma parse_duration_ms (m s : Z) :
  0 <= m -> 0 <= s ->
  parse_duration (pretty m +:+ "m " +:+ pretty s +:+ "s")
  = Some (Z.to_N (60 * m + s)).
Proof.
  intros Hm Hs. unfold parse_duration.
  change (pretty m +:+ "m " +:+ pretty s +:+ "s")
    with (pretty m +:+ String "m" (String " " (pretty s +:+ String "s" ""))).
  rewrite read_unit_pretty by done. cbn [Ascii.eqb]. simpl skip_space.
  cbn [mbind option_bind]. rewrite read_unit_pretty by done.
  simpl. f_equal. lia.
Qed.

Lemma parse_duration_hms (h m s : Z) :
  0 <= h -> 0 <= m -> 0 <= s ->
  parse_duration (pretty h +:+ "h " +:+ pretty m +:+ "m " +:+ pretty s +:+ "s")
  = Some (Z.to_N (3600 * h + 60 * m + s)).
Proof.
  intros Hh Hm Hs. unfold parse_duration.
  change (pretty h +:+ "h " +:+ pretty m +:+ "m " +:+ pretty s +:+ "s")
    with (pretty h +:+ String "h" (String " "
            (pretty m +:+ String "m" (String " "
               (pretty s +:+ String "s" ""))))).
  rewrite read_unit_pretty by done. simpl skip_space.
  cbn [mbind option_bind]. rewrite read_unit_pretty by done.
  simpl skip_space. cbn [mbind option_bind].
  rewrite read_unit_pretty by done.
  simpl. f_equal. lia.
Qed.

(** X20: the text of a duration determines it, for durations below [2^53]
    where the integers are doubles and the quotients are exact: reading the
    text of [seconds >= 0] back gives [seconds], so two durations with the
    same text are equal. *)
Theorem formatDuration_read_back (a b : Z) :
  0 <= a < 2 ^ 53 -> 0 <= b < 2 ^ 53 ->
  parse_duration (formatDuration a) = Some (Z.to_N a)
  /\ (formatDuration a = formatDuration b -> a = b).
Proof.
  assert (forall s, 0 <= s < 2 ^ 53 ->
            parse_duration (formatDuration s) = Some (Z.to_N s))
    as Hread.
  { intros s Hs. unfold formatDuration. cbv zeta.
    rewrite !Z.rem_mod_nonneg by lia.
    pose proof (Z.mod_pos_bound s 3600).
    rewrite !js_floor_div_exact by lia.
    assert (0 <= s / 3600) by (apply Z.div_pos; lia).
    pose proof (Z.mod_pos_bound s 60).
    assert (0 <= s mod 3600 / 60) by (apply Z.div_pos; lia).
    pose proof (Z.div_mod s 3600).
    pose proof (Z.div_mod (s mod 3600) 60).
    assert (s mod 3600 mod 60 = s mod 60) as Hmm
      by (apply Z.mod_mod_divide; by exists 60).
    destruct (Z.gtb_spec (s / 3600) 0); [| destruct (Z.gtb_spec (s mod 3600 / 60) 0)].
    - rewrite parse_duration_hms by lia. do 2 f_equal. lia.
    - rewrite parse_duration_ms by lia. do 2 f_equal. lia.
    - rewrite parse_duration_s by lia. do 2 f_equal. lia. }
  intros Ha Hb. split; [by apply Hread |].
  intros Heq. pose proof (Hread a Ha) as H1. rewrite Heq, (Hread b Hb) in H1.
  injection H1 as H1. lia.
Qed.

Lemma formatDuration_read_back_witness :
  parse_duration (formatDuration 3665) = Some (Z.to_N 3665)
  /\ (formatDuration 3665 = formatDuration 125 -> 3665 = 125).
Proof. apply (formatDuration_read_back 3665 125); lia. Defined.

(** * The test runner *)

Lemma run_assertion_None a : run_assertion a = None <-> assertion_holds a = true.
Proof.
  destruct a as [c m | x y m]; simpl.
  - unfold runner_assert. by destruct (truthy c).
  - unfold runner_assertEqual. by destruct (bool_decide (x = y)).
Qed.

Lemma run_body_None body : run_body body = None <-> forallb assertion_holds body = true.
Proof.
  induction body as [| a body IH]; [done |]. simpl.
  destruct (run_assertion a) as [e |] eqn:E.
  - split; [done |]. intros [Ha _]%andb_prop.
    apply run_assertion_None in Ha. congruence.
  - apply run_assertion_None in E. by rewrite E, IH.
Qed.

(** X21: each test is counted once, as passed when all the assertions of its
    body hold and as failed otherwise; a failed test does not stop the
    tests after it. *)
Theorem runner_it_counts (st : TestRunner) (tests : list (list assertion)) :
  let st' := fold_left runner_it tests st in
  passed st'
  = (passed st
     + length (filter (fun body => forallb assertion_holds body = true) tests))%nat
  /\ failed st'
     = (failed st
        + length (filter (fun body => forallb assertion_holds body = false)
                    tests))%nat
  /\ (passed st' + failed st' = passed st + failed st + length tests)%nat.
Proof.
  cbv zeta. revert st. induction tests as [| body tests IH]; intros st.
  - simpl. lia.
  - cbn [fold_left]. destruct (IH (runner_it st body)) as (Hp & Hf & Hs).
    rewrite Hp, Hf. rewrite !filter_cons. unfold runner_it in *.
    destruct (run_body body) as [e |] eqn:E.
    + assert (forallb assertion_holds body = false) as Hb.
      { destruct (forallb assertion_holds body) eqn:Hb; [| done].
        apply run_body_None in Hb. congruence. }
      rewrite Hb. simpl in *. lia.
    + apply run_body_None in E. rewrite E. simpl in *. lia.
Qed.

(** X22: a body throws exactly when one of its assertions fails, and the
    error is the one of the first that fails: the message given with it, or
    the default text when the message is falsy. *)
Theorem run_body_first_error (body : list assertion) (e : string) :
  run_body body = Some e
  <-> exists before a after,
        body = before ++ a :: after
        /\ forallb assertion_holds before = true
        /\ assertion_holds a = false
        /\ e = match a with
               | Assert _ m => message_or m "Assertion failed"
               | AssertEqual x y m =>
                   message_or m ("Expected " +:+ js_string y +:+ ", got "
                                 +:+ js_string x)
               end.
Proof.
  induction body as [| a body IH]; simpl.
  - split; [done |]. intros (before & a & after & H & _).
    by destruct before.
  - destruct (run_assertion a) as [e' |] eqn:E.
    + assert (assertion_holds a = false
              /\ e' = match a with
                      | Assert _ m => message_or m "Assertion failed"
                      | AssertEqual x y m =>
                          message_or m ("Expected " +:+ js_string y +:+ ", got "
                                        +:+ js_string x)
                      end) as [Ha He].
      { destruct a as [c m | x y m]; simpl in *.
        - unfold runner_assert in E. destruct (truthy c); [done |].
          by injection E as <-.
        - unfold runner_assertEqual in E.
          destruct (bool_decide (x = y)); [done |]. by injection E as <-. }
      split.
      * intros [= <-]. by exists [], a, body.
      * intros ([| b before] & a' & after & H & Hb & Ha' & ->).
        -- injection H as <- <-. by rewrite He.
        -- injection H as <- _. simpl in Hb. rewrite Ha in Hb. done.
    + apply run_assertion_None in E. rewrite IH. split.
      * intros (before & a' & after & -> & Hb & Ha' & ->).
        exists (a :: before), a', after. simpl. by rewrite E.
      * intros ([| b before] & a' & after & H & Hb & Ha' & ->).
        -- injection H as <- <-. congruence.
        -- injection H as <- ->. simpl in Hb. rewrite E in Hb.
           by exists before, a', after.
Qed.

(** No test passed, or all of them: the quotients [0] and [1] are exact. *)
Lemma toFixed1_all (n : Z) :
  0 < n -> toFixed1 (js_times100 (js_div (inject_Z n) (inject_Z n))) = "100.0".
Proof.
  intros Hn. unfold js_div. rewrite Qis_zero_inject_Z.
  destruct (Z.eqb_spec n 0) as [-> | _]; [lia |].
  assert (0 < inject_Z n)%Q as HN
    by (change 0%Q with (inject_Z 0); rewrite <- Zlt_Qlt; lia).
  rewrite (js_round_comp _ 1) by (field; lra).
  vm_compute. reflexivity.
Qed.

Lemma toFixed1_none (n : Z) :
  0 < n -> toFixed1 (js_times100 (js_div (inject_Z 0) (inject_Z n))) = "0.0".
Proof.
  intros Hn. unfold js_div. rewrite Qis_zero_inject_Z.
  destruct (Z.eqb_spec n 0) as [-> | _]; [lia |].
  assert (0 < inject_Z n)%Q as HN
    by (change 0%Q with (inject_Z 0); rewrite <- Zlt_Qlt; lia).
  rewrite (js_round_comp _ 0) by (field; lra).
  vm_compute. reflexivity.
Qed.

(** X23: the percentage of the report is [NaN] when no test was run, [100.0]
    when tests were run and none failed, and [0.0] when tests were run and
    none passed. *)
Theorem runner_report_extremes (st : TestRunner) :
  ((passed st + failed st = 0)%nat -> runner_report st = "NaN")
  /\ (failed st = 0%nat -> (0 < passed st)%nat -> runner_report st = "100.0")
  /\ (passed st = 0%nat -> (0 < failed st)%nat -> runner_report st = "0.0").
Proof.
  destruct st as [p f]. unfold runner_report. cbn [passed failed]. cbv zeta.
  repeat split.
  - intros H. assert (p = 0%nat) as -> by lia. assert (f = 0%nat) as -> by lia.
    reflexivity.
  - intros -> Hp. rewrite Nat.add_0_r. unfold Qnat.
    apply toFixed1_all. lia.
  - intros -> Hf. unfold Qnat. apply toFixed1_none. lia.
Qed.

Lemma runner_report_extremes_witness :
  runner_report {| passed := 12; failed := 0 |} = "100.0"
  /\ runner_report {| passed := 0; failed := 3 |} = "0.0"
  /\ runner_report {| passed := 0; failed := 0 |} = "NaN".
Proof.
  split; [| split].
  - apply (proj1 (proj2 (runner_report_extremes {| passed := 12; failed := 0 |})));
      [reflexivity | simpl; lia].
  - apply (proj2 (proj2 (runner_report_extremes {| passed := 0; failed := 3 |})));
      [reflexivity | simpl; lia].
  - apply (proj1 (runner_report_extremes {| passed := 0; failed := 0 |})).
    reflexivity.
Defined.
